(** * Verification of the PDF generation / splitting pipeline

  The development embeds two scripts of the repository:

  - [generate_large_pdf.py]: [create_detailed_paragraphs], the section
    table of [generate_massive_research_sections] and the content list
    assembled by [generate_pdf];
  - [split_pdf.py]: [split_pdf] and [extract_text_from_pages], run against
    an explicit model of the file system and of the PDF library.

  Python values are modelled as the scripts use them: [str] as [string],
  [int] as [Z], lists as [list], the insertion-ordered [dict] of sections as
  an association list, the file system as a finite map from paths to nodes,
  exceptions as the error branch of a state-and-error monad. *)

From Stdlib Require Import ZArith Lia Ascii.
From Stdlib Require QArith.QArith_base QArith.Qround Floats.SpecFloat.
From stdpp Require Import base tactics option list sorting strings pretty gmap fin_maps.

Local Open Scope Z_scope.

(** ** Python built-ins used by the scripts *)

Module Py.

(** [range(n)]: empty when [n <= 0]. *)
Definition range (n : Z) : list Z :=
  (λ i : nat, Z.of_nat i) <$> seq 0 (Z.to_nat n).

(** [str(n)] / [f"{n}"] on an [int]. *)
Definition str_of_int (n : Z) : string := pretty n.

(** [c.lower()] on one ASCII character; characters outside [A-Z] are kept. *)
Definition lower_ascii (c : Ascii.ascii) : Ascii.ascii :=
  let n := Ascii.N_of_ascii c in
  if ((65 <=? n)%N && (n <=? 90)%N)%bool then Ascii.ascii_of_N (n + 32) else c.

(** [s.lower()] on a text of ASCII characters, which is what the
    sentences of the generator are; other characters are kept. *)
Fixpoint lower (s : string) : string :=
  match s with
  | EmptyString => EmptyString
  | String c s' => String (lower_ascii c) (lower s')
  end.

(** [s.startswith(p)]. *)
Fixpoint startswith (p s : string) : bool :=
  match p, s with
  | EmptyString, _ => true
  | String a p', String b s' => if Ascii.eqb a b then startswith p' s' else false
  | String _ _, EmptyString => false
  end.

(** [p in s]: [p] occurs in [s]. *)
Fixpoint contains (p s : string) : bool :=
  startswith p s
  || match s with
     | EmptyString => false
     | String _ s' => contains p s'
     end.

(** [s.endswith(p)]. *)
Definition endswith (p s : string) : bool :=
  startswith (String.rev p) (String.rev s).

(** [s.replace(old, new)] for a non-empty [old]: the occurrences of [old]
    are found from the left and do not overlap.  [skip] counts the
    characters of a matched occurrence that are still to be dropped. *)
Fixpoint replace_go (old new : string) (skip : nat) (s : string) : string :=
  match s with
  | EmptyString => EmptyString
  | String c s' =>
      match skip with
      | S k => replace_go old new k s'
      | O =>
          if startswith old s
          then new +:+ replace_go old new (Nat.pred (String.length old)) s'
          else String c (replace_go old new O s')
      end
  end.

Definition replace (old new s : string) : string := replace_go old new O s.

(** ASCII white space, as removed by [s.strip()]. *)
Definition is_space (c : Ascii.ascii) : bool :=
  let n := Ascii.N_of_ascii c in
  ((n =? 32)%N || ((9 <=? n)%N && (n <=? 13)%N) || ((28 <=? n)%N && (n <=? 31)%N))%bool.

Fixpoint lstrip (s : string) : string :=
  match s with
  | EmptyString => EmptyString
  | String c s' => if is_space c then lstrip s' else s
  end.

Definition strip (s : string) : string :=
  String.rev (lstrip (String.rev (lstrip s))).

(** The last character of a string, [s[-1]]. *)
Fixpoint last_char (s : string) : option ascii :=
  match s with
  | EmptyString => None
  | String c EmptyString => Some c
  | String _ s' => last_char s'
  end.

(** [max(a, b)] on [int]. *)
Definition max (a b : Z) : Z := Z.max a b.

End Py.

(** ** [generate_large_pdf.py] *)

Module Generator.

(** The body of the inner loop of [create_detailed_paragraphs]: the string
    [detailed] built for one base sentence.  The loop index [i] is in scope
    in the source and is passed here as it is there. *)
Definition detailed_paragraph (base_content : string) (i : Z) : string :=
  let detailed := base_content +:+ " " in
  let detailed := detailed +:+ "This concept is fundamental to understanding modern AI systems and represents a significant breakthrough in computational approaches to machine learning. " in
  let detailed := detailed +:+ ("Research from leading institutions including MIT, Stanford, Carnegie Mellon, UC Berkeley, and Google Research has shown that " +:+ Py.lower base_content +:+ " ") in
  let detailed := detailed +:+ "Implementation details vary significantly across different frameworks including TensorFlow 2.x, PyTorch 2.0, JAX with Flax, Hugging Face Transformers, and specialized libraries like FairSeq and AllenNLP. " in
  let detailed := detailed +:+ ("Performance benchmarks conducted on diverse hardware configurations including NVIDIA A100, H100, V100 GPUs, TPU v4 pods, and AWS Trainium instances indicate substantial improvements when " +:+ Py.lower base_content +:+ " ") in
  let detailed := detailed +:+ "Industry applications span numerous domains including healthcare diagnostics, financial risk assessment, autonomous vehicle perception, robotics control systems, natural language understanding, computer vision, and drug discovery. " in
  let detailed := detailed +:+ "Future research directions encompass optimization strategies, model interpretability techniques, robustness enhancement methods, privacy-preserving approaches, federated learning architectures, and sustainable AI development practices. " in
  let detailed := detailed +:+ "Mathematical formulations underlying these concepts involve complex optimization problems, gradient-based learning algorithms, statistical learning theory, information theory principles, and computational complexity analysis. " in
  let detailed := detailed +:+ "Experimental validation requires comprehensive datasets, rigorous evaluation protocols, statistical significance testing, ablation studies, and reproducibility verification across multiple research groups and computational environments. " in
  let detailed := detailed +:+ "The implications for practical deployment include considerations for model serving infrastructure, real-time inference requirements, batch processing capabilities, monitoring and observability systems, A/B testing frameworks, and continuous learning pipelines. " in
  detailed.

(** [create_detailed_paragraphs(content_list, repetitions)]: two nested
    [for] loops appending to the accumulator [expanded]. *)
Definition create_detailed_paragraphs
    (content_list : list string) (repetitions : Z) : list string :=
  fold_left
    (λ expanded base_content,
       fold_left
         (λ expanded i, expanded ++ [detailed_paragraph base_content i])
         (Py.range repetitions) expanded)
    content_list [].

(** The default of the keyword argument: [repetitions=300]. *)
Definition default_repetitions : Z := 300.

(** A call that may omit [repetitions]. *)
Definition create_detailed_paragraphs_call
    (content_list : list string) (repetitions : option Z) : list string :=
  create_detailed_paragraphs content_list (default default_repetitions repetitions).

(** The renderable blocks ([reportlab] flowables) that [generate_pdf]
    appends to [content], with the paragraph styles it uses. *)
Inductive Style :=
| CustomTitle      (* title_style *)
| CustomHeading    (* heading_style *)
| StyleTitle       (* styles['Title'] *)
| StyleNormal.     (* styles['Normal'] *)

Inductive Flowable :=
| Paragraph (text : string) (style : Style)
| Spacer (width height : Z)
| PageBreak
| Table (data : list (list string)).

Global Instance Style_eq_dec : EqDecision Style.
Proof. solve_decision. Defined.

Definition title_page : list Flowable :=
  [ Paragraph "Comprehensive AI Research Document" CustomTitle
  ; Spacer 1 20
  ; Paragraph "Advanced Machine Learning and Deep Learning Techniques" StyleTitle
  ; Spacer 1 20
  ; Paragraph "A detailed exploration of neural networks, transformers, optimization, and applications" StyleNormal
  ; PageBreak ].

Definition table_data : list (list string) :=
  [ ["Metric"; "Baseline"; "Improved"; "Enhancement"; "Significance"]
  ; ["Accuracy"; "87.2%"; "94.7%"; "+7.5%"; "p<0.001"]
  ; ["F1-Score"; "0.832"; "0.923"; "+0.091"; "p<0.001"]
  ; ["Precision"; "0.845"; "0.935"; "+0.090"; "p<0.001"]
  ; ["Recall"; "0.819"; "0.912"; "+0.093"; "p<0.001"]
  ; ["Training Time"; "24.3h"; "18.7h"; "-23.0%"; "p<0.01"]
  ; ["Memory Usage"; "8.2GB"; "6.8GB"; "-17.1%"; "p<0.01"]
  ; ["Inference Speed"; "45ms"; "32ms"; "-28.9%"; "p<0.001"]
  ; ["Energy Consumption"; "120W"; "95W"; "-20.8%"; "p<0.05"] ].

(** The section table returned by [generate_massive_research_sections]. *)
Definition generate_massive_research_sections : list (string * list string) :=
  [ ("Deep Learning Fundamentals and Mathematical Foundations",
      [ "Neural networks are sophisticated computational models inspired by biological neural networks found in animal brains. They consist of interconnected processing nodes called neurons organized in hierarchical layers that enable complex pattern recognition and decision-making capabilities."
      ; "The fundamental building block is the artificial neuron or perceptron, which performs a weighted linear combination of input features followed by a nonlinear activation function such as ReLU, sigmoid, or tanh to introduce necessary nonlinearity for complex function approximation."
      ; "Deep neural networks contain multiple hidden layers between input and output layers, enabling them to learn hierarchical representations and complex patterns through the composition of simpler functions across different levels of abstraction."
      ; "Training involves forward propagation to compute predictions and backpropagation to update network weights based on error gradients computed through the chain rule of calculus, enabling automatic differentiation and gradient-based optimization."
      ; "Gradient descent optimization algorithms including SGD, Adam, AdaGrad, and RMSprop enable efficient parameter updates by following the negative gradient direction to minimize loss functions and improve model performance over training iterations."
      ])
  ; ("Advanced Transformer Architectures and Attention Mechanisms",
      [ "The Transformer architecture represents a revolutionary breakthrough in sequence modeling that fundamentally changed natural language processing through the introduction of self-attention mechanisms that enable parallel computation and long-range dependency modeling."
      ; "Self-attention mechanisms allow models to dynamically weight the importance of different positions in the input sequence, enabling the capture of complex relationships and dependencies without the sequential processing limitations of recurrent architectures."
      ; "Multi-head attention enables the model to simultaneously attend to information from different representation subspaces at different positions, providing richer representations and improved modeling of complex linguistic phenomena."
      ; "Position encoding schemes are crucial components since Transformers lack inherent understanding of sequence order, requiring explicit positional information through sinusoidal encodings, learned embeddings, or relative position representations."
      ; "The encoder-decoder structure with cross-attention facilitates powerful sequence-to-sequence capabilities for tasks including machine translation, text summarization, question answering, and dialogue generation with state-of-the-art performance."
      ])
  ; ("Optimization Algorithms and Training Methodologies",
      [ "Gradient descent serves as the fundamental optimization algorithm for neural network training, iteratively updating parameters in the direction that minimizes the loss function through first-order gradient information."
      ; "Stochastic gradient descent introduces randomness by using mini-batches of training examples to approximate the true gradient, enabling efficient training on large datasets while providing regularization benefits through noise injection."
      ; "Advanced optimizers like Adam combine momentum-based methods with adaptive learning rates, maintaining exponential moving averages of gradients and their squared values to achieve faster convergence and improved stability across diverse optimization landscapes."
      ; "Learning rate scheduling strategies including cosine annealing, step decay, and warm-up phases help models converge more effectively by adjusting the learning rate throughout training to balance exploration and exploitation."
      ; "Regularization techniques including dropout, weight decay, batch normalization, and layer normalization prevent overfitting and improve generalization by constraining model complexity and stabilizing training dynamics."
      ])
  ; ("Computer Vision Applications and Convolutional Architectures",
      [ "Convolutional Neural Networks represent specialized architectures designed specifically for processing grid-like data such as images, leveraging translation equivariance and local connectivity patterns to efficiently extract hierarchical visual features."
      ; "Feature maps generated through convolution operations capture spatial hierarchies and local patterns through learnable filters that detect edges, textures, shapes, and increasingly complex visual concepts across network depth."
      ; "Residual Networks introduced skip connections to address the vanishing gradient problem in very deep networks, enabling the training of networks with hundreds of layers while maintaining gradient flow and representational capacity."
      ; "Object detection systems combine classification and localization capabilities using architectures like YOLO, R-CNN, and SSD to simultaneously identify and locate multiple objects within images with high accuracy and real-time performance."
      ; "Image segmentation provides pixel-level classification for detailed scene understanding, enabling applications in medical imaging, autonomous driving, and augmented reality through precise object boundary delineation."
      ])
  ; ("Natural Language Processing and Language Models",
      [ "Tokenization represents the fundamental preprocessing step for text data, converting raw text into discrete tokens that can be processed by neural networks through various strategies including word-level, subword, and character-level approaches."
      ; "Word embeddings such as Word2Vec, GloVe, and FastText capture semantic relationships between words in continuous vector spaces, enabling models to understand similarity, analogy, and contextual relationships between linguistic units."
      ; "Recurrent Neural Networks and Long Short-Term Memory networks provided early solutions for sequence modeling by maintaining hidden states that capture temporal dependencies, though they suffered from vanishing gradients and sequential processing limitations."
      ; "BERT introduced bidirectional context understanding through masked language modeling pretraining, enabling models to understand context from both directions and achieving significant improvements across numerous NLP benchmarks."
      ; "Generative Pre-trained Transformers demonstrate the remarkable power of autoregressive language generation, scaling to billions of parameters and exhibiting emergent capabilities in reasoning, few-shot learning, and general language understanding."
      ])
  ; ("Reinforcement Learning and Decision Making",
      [ "Reinforcement learning enables agents to learn optimal decision-making policies through interaction with environments, using reward signals to guide learning without requiring explicit supervision or labeled training data."
      ; "Q-learning algorithms use action-value functions to estimate the expected cumulative reward of taking specific actions in given states, enabling model-free learning of optimal policies through temporal difference methods."
      ; "Policy gradient methods directly optimize the agent's decision-making policy using gradient ascent on expected rewards, providing more direct optimization of the ultimate objective and handling continuous action spaces more naturally."
      ; "Actor-critic algorithms combine the benefits of value estimation and policy optimization, using a critic network to estimate state values and an actor network to learn the policy, providing reduced variance and improved sample efficiency."
      ; "Deep Q-Networks brought the power of deep learning to reinforcement learning by using neural networks to approximate Q-functions, enabling RL agents to handle high-dimensional state spaces like raw pixel observations."
      ])
  ; ("Machine Learning Ethics and Responsible AI",
      [ "Bias in AI systems represents a critical challenge that can perpetuate and amplify existing societal inequalities, requiring careful attention to data collection, model development, and deployment practices to ensure fair and equitable outcomes."
      ; "Fairness metrics provide quantitative measures for assessing discriminatory behavior in model predictions, including demographic parity, equalized odds, and individual fairness criteria that help identify and mitigate biased decision-making."
      ; "Explainable AI techniques make model decisions more transparent and interpretable through methods like attention visualization, feature attribution, LIME, SHAP, and counterfactual explanations that help users understand model reasoning."
      ; "Privacy-preserving methods including federated learning, differential privacy, and secure multi-party computation enable machine learning on sensitive data while protecting individual privacy and maintaining data utility."
      ; "Responsible AI development requires consideration of broader societal impacts, including environmental sustainability, job displacement, security vulnerabilities, and the concentration of AI capabilities in large technology companies."
      ])
  ; ("Model Deployment and Production Systems",
      [ "Model serving infrastructure must handle varying computational loads, latency requirements, and throughput demands while maintaining reliability, scalability, and cost-effectiveness in production environments."
      ; "Containerization technologies like Docker enable consistent deployment across different computing environments by packaging models with their dependencies and runtime requirements in portable, lightweight containers."
      ; "Kubernetes orchestration manages the scaling, deployment, and operation of containerized ML workloads, providing automated scaling, load balancing, service discovery, and fault tolerance for production AI systems."
      ; "Model monitoring tracks performance degradation, data drift, and concept drift in production systems through comprehensive logging, alerting, and analysis of prediction quality, input distributions, and system performance metrics."
      ; "A/B testing frameworks enable safe rollout of new model versions by comparing performance against baseline models on live traffic, providing statistical validation of improvements and minimizing risks during model updates."
      ])
  ].
(** The f-string of [experimental_text] before [.replace] and [.strip]:
    [n] is the text of [repeat_cycle + 5].  The line breaks and the
    indentation of the literal are part of the string. *)
Definition experimental_template (n : string) : string :=
  "
            Comprehensive experimental validation was conducted across " +:+ n +:+ " different datasets 
            with rigorous cross-validation protocols. The results demonstrate consistent improvements across 
            all evaluation metrics with high statistical significance. Implementation details include 
            optimization strategies, distributed training approaches, and production deployment considerations. 
            The methodology encompasses data preprocessing, feature engineering, model architecture design, 
            hyperparameter optimization, and performance evaluation using industry-standard benchmarks.
            
            Advanced techniques employed include gradient clipping, learning rate scheduling, batch normalization, 
            dropout regularization, weight decay, early stopping, and ensemble methods. The computational 
            infrastructure utilized high-performance GPU clusters with efficient data loading pipelines 
            and distributed training frameworks for scalable machine learning workflows.
            
            Statistical analysis reveals significant improvements (p < 0.001) across all major evaluation 
            metrics with large effect sizes (Cohen's d > 1.2) indicating practical significance for 
            real-world deployment scenarios. Confidence intervals are narrow, demonstrating consistent 
            performance across different experimental conditions and random seeds.
            ".

(** The separator replaced in the template: a line break followed by the
    twelve spaces of indentation. *)
Definition template_indent : string :=
  String (Ascii.ascii_of_N 10) "            ".

Definition experimental_text (repeat_cycle : Z) : string :=
  Py.strip (Py.replace template_indent " "
              (experimental_template (Py.str_of_int (repeat_cycle + 5)))).

(** The body of the loop over [sections.items()], for one section of one
    cycle; [content] is the list being appended to.  [repetitions] is the
    keyword argument of the call to [create_detailed_paragraphs]. *)
Definition append_section (repetitions repeat_cycle : Z)
    (content : list Flowable) (item : string * list string) : list Flowable :=
  let '(section_title, section_content) := item in
  let section_with_cycle :=
    section_title +:+ " - Volume " +:+ Py.str_of_int (repeat_cycle + 1) in
  let content := content ++ [Paragraph section_with_cycle CustomHeading] in
  let content := content ++ [Spacer 1 12] in
  let detailed_paragraphs :=
    create_detailed_paragraphs_call section_content (Some repetitions) in
  let content :=
    fold_left
      (λ content para, (content ++ [Paragraph para StyleNormal]) ++ [Spacer 1 6])
      detailed_paragraphs content in
  let content := content ++ [Table table_data] in
  let content := content ++ [Spacer 1 15] in
  let content := content ++ [Paragraph (experimental_text repeat_cycle) StyleNormal] in
  let content := content ++ [Spacer 1 10] in
  content ++ [PageBreak].

(** The two outer loops of [generate_pdf], with the cycle count and the
    repetition count as parameters. *)
Definition build_content (cycles repetitions : Z)
    (sections : list (string * list string)) (content : list Flowable)
    : list Flowable :=
  fold_left
    (λ content repeat_cycle,
       fold_left (append_section repetitions repeat_cycle) sections content)
    (Py.range cycles) content.

(** The constants written in [generate_pdf]: [range(20)] and
    [repetitions=200]. *)
Definition generate_pdf_cycles : Z := 20.
Definition generate_pdf_repetitions : Z := 200.

(** The list handed to [doc.build] by [generate_pdf]. *)
Definition generate_pdf_content : list Flowable :=
  build_content generate_pdf_cycles generate_pdf_repetitions
    generate_massive_research_sections title_page.

(** The clauses that follow the base sentence in an expanded paragraph,
    from the blank after the sentence on: research context, frameworks,
    hardware, application domains, future work, mathematical foundations,
    evaluation methodology and deployment considerations. *)
Definition suffix_clauses (base_content : string) : string :=
  " "
  +:+ "This concept is fundamental to understanding modern AI systems and represents a significant breakthrough in computational approaches to machine learning. "
  +:+ "Research from leading institutions including MIT, Stanford, Carnegie Mellon, UC Berkeley, and Google Research has shown that " +:+ Py.lower base_content +:+ " "
  +:+ "Implementation details vary significantly across different frameworks including TensorFlow 2.x, PyTorch 2.0, JAX with Flax, Hugging Face Transformers, and specialized libraries like FairSeq and AllenNLP. "
  +:+ "Performance benchmarks conducted on diverse hardware configurations including NVIDIA A100, H100, V100 GPUs, TPU v4 pods, and AWS Trainium instances indicate substantial improvements when " +:+ Py.lower base_content +:+ " "
  +:+ "Industry applications span numerous domains including healthcare diagnostics, financial risk assessment, autonomous vehicle perception, robotics control systems, natural language understanding, computer vision, and drug discovery. "
  +:+ "Future research directions encompass optimization strategies, model interpretability techniques, robustness enhancement methods, privacy-preserving approaches, federated learning architectures, and sustainable AI development practices. "
  +:+ "Mathematical formulations underlying these concepts involve complex optimization problems, gradient-based learning algorithms, statistical learning theory, information theory principles, and computational complexity analysis. "
  +:+ "Experimental validation requires comprehensive datasets, rigorous evaluation protocols, statistical significance testing, ablation studies, and reproducibility verification across multiple research groups and computational environments. "
  +:+ "The implications for practical deployment include considerations for model serving infrastructure, real-time inference requirements, batch processing capabilities, monitoring and observability systems, A/B testing frameworks, and continuous learning pipelines. ".

(** *** Counting the expanded paragraphs of a document *)

(** Every expanded paragraph that the sections can give rise to, once. *)
Definition expanded_texts (sections : list (string * list string)) : list string :=
  create_detailed_paragraphs (sections ≫= snd) 1.

Definition is_expanded_paragraph
    (sections : list (string * list string)) (b : Flowable) : bool :=
  match b with
  | Paragraph text StyleNormal => bool_decide (text ∈ expanded_texts sections)
  | _ => false
  end.

Definition expanded_paragraph_count
    (sections : list (string * list string)) (content : list Flowable) : nat :=
  length (filter (λ b, is_expanded_paragraph sections b = true) content).

(** What one pass of the section loop appends to [content]. *)
Definition section_blocks (repetitions repeat_cycle : Z)
    (item : string * list string) : list Flowable :=
  [ Paragraph (item.1 +:+ " - Volume " +:+ Py.str_of_int (repeat_cycle + 1)) CustomHeading
  ; Spacer 1 12 ]
  ++ (create_detailed_paragraphs item.2 repetitions
        ≫= λ para, [Paragraph para StyleNormal; Spacer 1 6])
  ++ [ Table table_data; Spacer 1 15
     ; Paragraph (experimental_text repeat_cycle) StyleNormal
     ; Spacer 1 10; PageBreak ].

(** The number of base sentences of all sections. *)
Definition total_sentences (sections : list (string * list string)) : nat :=
  sum_list ((λ item, length (snd item)) <$> sections).

End Generator.

(** ** The file system and the exceptions of the scripts *)

Module OS.

(** A path is the list of its components below the working directory;
    [os.path.join(d, name)] adds one component.  The working directory
    itself is the empty path. *)
Abbreviation path := (list string).

Inductive node :=
| File (content : string)
| Dir.

(** The exceptions that the modelled calls can raise. *)
Inductive PyError :=
| FileNotFoundError
| FileExistsError
| IsADirectoryError
| NotADirectoryError
| PdfReadError
| IndexError
| OverflowError
| ZeroDivisionError.

Global Instance PyError_eq_dec : EqDecision PyError.
Proof. solve_decision. Defined.

(** A computation reads and updates the file system and either returns a
    value or raises; what was written before a raise stays written. *)
Definition M (A : Type) : Type :=
  gmap path node → (PyError + A) * gmap path node.

Definition ret {A} (a : A) : M A := λ σ, (inr a, σ).

Definition bind {A B} (m : M A) (k : A → M B) : M B :=
  λ σ, match m σ with
       | (inr a, σ') => k a σ'
       | (inl e, σ') => (inl e, σ')
       end.

Definition raise {A} (e : PyError) : M A := λ σ, (inl e, σ).

Definition from_option {A} (e : PyError) (o : option A) : M A :=
  match o with Some a => ret a | None => raise e end.

Declare Scope py_scope.
Delimit Scope py_scope with py.
Notation "x <- m ;; k" := (bind m (λ x, k))
  (at level 100, m at next level, right associativity) : py_scope.
Notation "m ;; k" := (bind m (λ _, k))
  (at level 100, right associativity) : py_scope.
Local Open Scope py_scope.

(** [for x in l: body(x)]. *)
Fixpoint for_each {A} (l : list A) (body : A → M unit) : M unit :=
  match l with
  | [] => ret tt
  | x :: l' => body x ;; for_each l' body
  end.

(** A [for] loop that updates local variables [acc]. *)
Fixpoint for_fold {A S} (l : list A) (body : S → A → M S) (acc : S) : M S :=
  match l with
  | [] => ret acc
  | x :: l' => acc' <- body acc x ;; for_fold l' body acc'
  end.

Definition os_path_join (d : path) (name : string) : path := d ++ [name].

Definition is_dir (σ : gmap path node) (p : path) : bool :=
  match p with
  | [] => true
  | _ => match σ !! p with Some Dir => true | _ => false end
  end.

Definition exists_at (σ : gmap path node) (p : path) : bool :=
  match p with
  | [] => true
  | _ => bool_decide (is_Some (σ !! p))
  end.

(** [os.path.exists(p)]. *)
Definition os_path_exists (p : path) : M bool := λ σ, (inr (exists_at σ p), σ).

(** [os.makedirs(p)] creates [p] and the missing directories above it.
    [pre] is the part of the path already walked. *)
Fixpoint makedirs_go (pre rest : path) (σ : gmap path node)
    : (PyError + unit) * gmap path node :=
  match rest with
  | [] => (inr tt, σ)
  | c :: rest' =>
      let p := pre ++ [c] in
      match σ !! p with
      | Some Dir => makedirs_go p rest' σ
      | Some (File _) => (inl NotADirectoryError, σ)
      | None => makedirs_go p rest' (<[p := Dir]> σ)
      end
  end.

Definition os_makedirs (p : path) : M unit :=
  λ σ, if exists_at σ p then (inl FileExistsError, σ) else makedirs_go [] p σ.

(** A regular file lies on the way to [p], at one of the paths above
    it. *)
Definition below_file (σ : gmap path node) (p : path) : bool :=
  existsb (λ k, match σ !! take k p with Some (File _) => true | _ => false end)
    (seq 0 (length p)).

(** The error of a call on a path that does not exist: [ENOTDIR] when a
    regular file lies on the way, [ENOENT] otherwise. *)
Definition missing_error (σ : gmap path node) (p : path) : PyError :=
  if below_file σ p then NotADirectoryError else FileNotFoundError.

(** [open(p, 'rb')] followed by reading the whole file. *)
Definition read_file (p : path) : M string :=
  λ σ, match p with
       | [] => (inl IsADirectoryError, σ)
       | _ => match σ !! p with
              | Some (File content) => (inr content, σ)
              | Some Dir => (inl IsADirectoryError, σ)
              | None => (inl (missing_error σ p), σ)
              end
       end.

(** The directory a path lies in. *)
Definition parent (p : path) : path := removelast p.

(** [open(p, 'wb')] (or ['w']), writing [content] and closing: the file is
    created or truncated; the directory it lies in must exist, and a
    regular file in its place or above it gives [NotADirectoryError]. *)
Definition write_file (p : path) (content : string) : M unit :=
  λ σ, match p with
       | [] => (inl IsADirectoryError, σ)
       | _ =>
           if is_dir σ (parent p) then
             match σ !! p with
             | Some Dir => (inl IsADirectoryError, σ)
             | _ => (inr tt, <[p := File content]> σ)
             end
           else (inl (missing_error σ p), σ)
       end.

(** The name of [p] below the directory [d], when [p] is an entry of [d]. *)
Fixpoint entry_name (d p : path) : option string :=
  match d, p with
  | [], [name] => Some name
  | c :: d', c' :: p' => if decide (c = c') then entry_name d' p' else None
  | _, _ => None
  end.

(** The names of the entries of [d], in the arbitrary order of the
    underlying map. *)
Definition entries (σ : gmap path node) (d : path) : list string :=
  omap (entry_name d) (elements (dom σ)).

(** [os.listdir(d)]. *)
Definition os_listdir (d : path) : M (list string) :=
  λ σ, if is_dir σ d
       then (inr (entries σ d), σ)
       else match d with
            | [] => (inr [], σ)
            | _ => match σ !! d with
                   | Some _ => (inl NotADirectoryError, σ)
                   | None => (inl (missing_error σ d), σ)
                   end
            end.

(** [σ'] differs from [σ] only by directories created at absent paths,
    all of them [d] or above [d]. *)
Definition only_dirs_added (d : path) (σ σ' : gmap path node) : Prop :=
  ∀ p, σ' !! p = σ !! p
       ∨ (σ !! p = None ∧ σ' !! p = Some Dir ∧ p `prefix_of` d).

Definition is_file (σ : gmap path node) (p : path) : bool :=
  match σ !! p with Some (File _) => true | _ => false end.

(** No file lies at [d] or on the way to it, so that [d] exists as a
    directory or can be created. *)
Definition dir_available (σ : gmap path node) (d : path) : bool :=
  forallb (λ k, negb (is_file σ (take k d))) (seq 0 (S (length d))).

End OS.

(** ** Python [float]: IEEE 754 binary64

  The operations are the ones of the standard library's specification of
  binary64 arithmetic ([SpecFloat]), at precision 53 and maximal exponent
  1024, rounding to nearest, ties to even. *)

Module PyFloat.
Import SpecFloat.

Definition prec : Z := 53.
Definition emax : Z := 1024.

(** The literal [3.8]: the double nearest to 38/10, which is
    [8556839292003942 * 2^-51]. *)
Definition float_3_8 : spec_float := S754_finite false 8556839292003942 (-51).

(** The mantissa of [float_3_8]. *)
Definition D38 : Z := 8556839292003942.

(** [float(n)] for an [int]: correctly rounded; [OverflowError] (here
    [None]) when [n] is beyond the largest double. *)
Definition of_int (n : Z) : option spec_float :=
  match binary_normalize prec emax n 0 false with
  | S754_infinity _ | S754_nan => None
  | x => Some x
  end.

(** [n / y] for an [int] [n] and a [float] [y]: the [int] is converted
    first.  A zero divisor raises [ZeroDivisionError], which does not occur
    for the literal divisor used by the script. *)
Definition truediv_int (n : Z) (y : spec_float) : option spec_float :=
  x ← of_int n; Some (SFdiv prec emax x y).

(** [int(x)]: truncation toward zero; infinities and NaN raise. *)
Definition to_int (x : spec_float) : option Z :=
  match x with
  | S754_zero _ => Some 0
  | S754_finite s m e =>
      let magnitude :=
        match e with
        | Zneg p => Z.pos m / 2 ^ Z.pos p
        | _ => Z.pos m * 2 ^ e
        end in
      Some (if s then - magnitude else magnitude)
  | S754_infinity _ | S754_nan => None
  end.

End PyFloat.

(** ** [split_pdf.py] *)

Module Splitter.
Import OS.
Local Open Scope py_scope.

(** The part of [PyPDF2] that the script uses.  A page is whatever the
    library hands out for one page of a document.
    - [PdfReader data] is [PdfReader(file).pages] for a file holding
      [data], [None] when the reader rejects the file;
    - [PdfWriter_write pages] is what [PdfWriter.write] writes for a writer
      to which [pages] were added in this order;
    - [extract_text page] is [page.extract_text()]. *)
Class PyPDF2 := {
  Page : Type;
  PdfReader : string → option (list Page);
  PdfWriter_write : list Page → string;
  extract_text : Page → string
}.

(** [f"{n:03d}"] for [n >= 0]: decimal, padded with zeros on the left to
    at least three characters. *)
Definition zeros (k : nat) : string := String.concat "" (replicate k "0").

Definition format_03d (n : nat) : string :=
  let digits := pretty n in
  zeros (3 - String.length digits) +:+ digits.

(** [f"page_{page_num + 1:03d}.pdf"]. *)
Definition page_filename (page_num : nat) : string :=
  "page_" +:+ format_03d (page_num + 1) +:+ ".pdf".

(** The path of the file written for the page of index [page_num]. *)
Definition page_path (output_dir : path) (page_num : nat) : path :=
  os_path_join output_dir (page_filename page_num).

(** [if not os.path.exists(d): os.makedirs(d)]. *)
Definition ensure_dir (d : path) : M unit :=
  present <- os_path_exists d ;;
  if negb present then os_makedirs d else ret tt.

(** [sorted(...)] and [list.sort()] on strings: by code point,
    lexicographically. *)
Definition sort_names (names : list string) : list string :=
  merge_sort String.le names.

Definition pdf_names (names : list string) : list string :=
  filter (λ f, Py.endswith ".pdf" f = true) names.

(** The name of a page file without its last four characters, [f[:-4]]. *)
Definition base_name (f : string) : string :=
  String.substring 0 (String.length f - 4) f.

(** The names that the splitter gives: [.pdf] closes the name and does not
    occur before. *)
Definition plain_page_name (f : string) : bool :=
  String.eqb f (base_name f +:+ ".pdf") && negb (Py.contains ".pdf" (base_name f)).

(** The path of the text file that belongs to the page file [f]. *)
Definition text_path (text_dir : path) (f : string) : path :=
  os_path_join text_dir (base_name f +:+ ".txt").

Section with_library.
Context `{PyPDF2}.

(** [open(path, 'rb')], [PdfReader(file)] and [pdf_reader.pages].  The
    pages are taken from the bytes that the file holds when it is opened;
    the file itself is only read.  The script keeps the file open and the
    library fetches a page when it is used, which gives the same pages as
    long as the file is not written to in between: the theorems about
    [split_pdf] keep the source apart from the page files. *)
Definition read_pdf (p : path) : M (list Page) :=
  data <- read_file p ;;
  from_option PdfReadError (PdfReader data).

(** The body of the page loop of [split_pdf]. *)
Definition split_page (pages : list Page) (output_dir : path)
    (page_num : nat) : M unit :=
  page <- from_option IndexError (pages !! page_num) ;;
  let pdf_writer := [page] in
  let output_filename := page_filename page_num in
  let output_path := os_path_join output_dir output_filename in
  write_file output_path (PdfWriter_write pdf_writer).

(** [split_pdf(input_path, output_dir)].  The value returned is the
    directory listing that the function prints last; the other printed
    lines carry no state and are left out. *)
Definition split_pdf (input_path output_dir : path) : M (list string) :=
  ensure_dir output_dir ;;
  pages <- read_pdf input_path ;;
  let total_pages := length pages in
  for_each (seq 0 total_pages) (split_page pages output_dir) ;;
  names <- os_listdir output_dir ;;
  ret (pdf_names (sort_names names)).

(** The text of the first page of the page file [f] of [output_dir], when
    the file is there and the reader accepts it. *)
Definition page_text (σ : gmap path node) (output_dir : path) (f : string)
    : option string :=
  match σ !! os_path_join output_dir f with
  | Some (File data) =>
      match PdfReader data with
      | Some (page :: _) => Some (extract_text page)
      | _ => None
      end
  | _ => None
  end.

(** The page file [f] can be processed in the state [σ]: it bears a
    plain page name, its first page can be read, the text is no longer
    than a Python string can be, and no directory has the name of its
    text file. *)
Definition page_file_ready (σ : gmap path node) (output_dir text_dir : path)
    (f : string) : Prop :=
  plain_page_name f = true
  ∧ ∃ text, page_text σ output_dir f = Some text
            ∧ Z.of_nat (String.length text) < 2 ^ 63
            ∧ σ !! text_path text_dir f ≠ Some Dir.

(** [max(1, int(char_count / 3.8))]. *)
Definition token_estimate (char_count : Z) : option Z :=
  quotient ← PyFloat.truediv_int char_count PyFloat.float_3_8;
  truncated ← PyFloat.to_int quotient;
  Some (Py.max 1 truncated).

(** The estimate as the specification words it, over the rationals:
    [max(1, floor(n / 3.8))] with [3.8 = 38/10]. *)
Definition token_estimate_exact (n : Z) : Z :=
  Z.max 1 (Qround.Qfloor
             (QArith_base.Qdiv (QArith_base.inject_Z n) (QArith_base.Qmake 38 10))).

(** [a // b] on [int]. *)
Definition floordiv (a b : Z) : M Z :=
  if decide (b = 0) then raise ZeroDivisionError else ret (a / b).

(** The local variables of the loop of [extract_text_from_pages], and the
    line printed for each file. *)
Record totals := {
  total_chars : Z;
  total_tokens : Z;
  printed : list (string * Z * Z)
}.

(** The body of the loop over [pdf_files]. *)
Definition extract_page (output_dir text_dir : path)
    (acc : totals) (pdf_file : string) : M totals :=
  let pdf_path := os_path_join output_dir pdf_file in
  pages <- read_pdf pdf_path ;;
  page <- from_option IndexError (pages !! 0%nat) ;;
  let text := extract_text page in
  let text_filename := Py.replace ".pdf" ".txt" pdf_file in
  let text_path := os_path_join text_dir text_filename in
  write_file text_path text ;;
  let char_count := Z.of_nat (String.length text) in
  token_estimate <- from_option OverflowError (token_estimate char_count) ;;
  ret {| total_chars := total_chars acc + char_count;
         total_tokens := total_tokens acc + token_estimate;
         printed := printed acc ++ [(text_filename, char_count, token_estimate)] |}.

(** What [extract_text_from_pages] prints at the end. *)
Record summary := {
  lines : list (string * Z * Z);
  sum_chars : Z;
  sum_tokens : Z;
  average_tokens : Z
}.

(** [extract_text_from_pages(output_dir, text_dir)]. *)
Definition extract_text_from_pages (output_dir text_dir : path) : M summary :=
  ensure_dir text_dir ;;
  names <- os_listdir output_dir ;;
  let pdf_files := sort_names (pdf_names names) in
  acc <- for_fold pdf_files (extract_page output_dir text_dir)
           {| total_chars := 0; total_tokens := 0; printed := [] |} ;;
  average <- floordiv (total_tokens acc) (Z.of_nat (length pdf_files)) ;;
  ret {| lines := printed acc;
         sum_chars := total_chars acc;
         sum_tokens := total_tokens acc;
         average_tokens := average |}.

End with_library.

(** The defaults of the keyword arguments and of the [__main__] block. *)
Definition default_output_dir : path := ["pdf_pages"].
Definition default_text_dir : path := ["pdf_text"].
Definition default_input_pdf : path := ["large_ai_research_document.pdf"].

End Splitter.

(** ** A small PDF library to run the model on

  A document is the text [%PDF:] followed by one character per page; the
  reader rejects anything else, the writer produces that text, and the
  text of a page is its character after the word [page]. *)

Module Example.
Import OS Splitter.

Definition example_reader (data : string) : option (list ascii) :=
  if Py.startswith "%PDF:" data
  then Some (String.list_ascii_of_string
               (String.substring 5 (String.length data - 5) data))
  else None.

Definition example_library : PyPDF2 := {|
  Page := ascii;
  PdfReader := example_reader;
  PdfWriter_write pages := "%PDF:" +:+ String.string_of_list_ascii pages;
  extract_text page := "page " +:+ String page ""
|}.

(** A working directory that holds a three-page document. *)
Definition three_pages : gmap path node :=
  {[ ["large_ai_research_document.pdf"] := File "%PDF:abc" ]}.

(** A pages directory in which a two-page document is stored under the
    name of the first page file. *)
Definition source_among_pages : gmap path node :=
  {[ ["pdf_pages"] := Dir;
     ["pdf_pages"; "page_001.pdf"] := File "%PDF:ab" ]}.

(** A pages directory that holds two files whose names contain [.pdf]
    twice. *)
Definition double_extension : gmap path node :=
  {[ ["pdf_pages"] := Dir;
     ["pdf_pages"; "a.pdf.pdf"] := File "%PDF:x";
     ["pdf_pages"; "a.txt.pdf"] := File "%PDF:y" ]}.

(** A pages directory as the splitter leaves it for a two-page source. *)
Definition two_page_files : gmap path node :=
  {[ ["pdf_pages"] := Dir;
     ["pdf_pages"; "page_001.pdf"] := File "%PDF:a";
     ["pdf_pages"; "page_002.pdf"] := File "%PDF:b" ]}.

(** An empty pages directory. *)
Definition no_pages : gmap path node := {[ ["pdf_pages"] := Dir ]}.

End Example.

(** ** Reading a document: the blocks of each kind *)

Module Document.
Import Generator.

Definition is_heading (b : Flowable) : bool :=
  match b with Paragraph _ CustomHeading => true | _ => false end.

Definition is_table (b : Flowable) : bool :=
  match b with Table _ => true | _ => false end.

Definition is_page_break (b : Flowable) : bool :=
  match b with PageBreak => true | _ => false end.

Definition count_blocks (kind : Flowable → bool) (content : list Flowable) : nat :=
  length (filter (λ b, kind b = true) content).

(** The texts of the section headings of a document, in order. *)
Definition heading_texts (content : list Flowable) : list string :=
  omap (λ b, match b with
             | Paragraph text CustomHeading => Some text
             | _ => None
             end) content.

End Document.

(** ** Strings made of characters of one kind *)

Module Chars.

Fixpoint all_chars (P : ascii → bool) (s : string) : bool :=
  match s with
  | EmptyString => true
  | String c s' => P c && all_chars P s'
  end.

Definition is_digit (c : ascii) : bool :=
  let n := Ascii.N_of_ascii c in ((48 <=? n)%N && (n <=? 57)%N)%bool.

Definition not_dot (c : ascii) : bool := negb (Ascii.eqb c ".").

Definition not_space (c : ascii) : bool := negb (Py.is_space c).

(** The characters on which [Py.lower] is [str.lower]: code points below
    128. *)
Definition is_ascii (c : ascii) : bool := (Ascii.N_of_ascii c <? 128)%N.

Definition not_newline (c : ascii) : bool :=
  negb (Ascii.eqb c (Ascii.ascii_of_N 10)).

End Chars.

(** ** The experimental paragraph on one line *)

Module Experimental.

(** The text of the paragraph before the number of datasets. *)
Definition experimental_head : string :=
  "Comprehensive experimental validation was conducted across ".

(** The text after the number: the lines of the literal, each closed by
    its trailing blank and the blank that replaces the line break. *)
Definition experimental_tail : string :=
  " different datasets  with rigorous cross-validation protocols. The results demonstrate consistent improvements across  all evaluation metrics with high statistical significance. Implementation details include  optimization strategies, distributed training approaches, and production deployment considerations.  The methodology encompasses data preprocessing, feature engineering, model architecture design,  hyperparameter optimization, and performance evaluation using industry-standard benchmarks.  Advanced techniques employed include gradient clipping, learning rate scheduling, batch normalization,  dropout regularization, weight decay, early stopping, and ensemble methods. The computational  infrastructure utilized high-performance GPU clusters with efficient data loading pipelines  and distributed training frameworks for scalable machine learning workflows.  Statistical analysis reveals significant improvements (p < 0.001) across all major evaluation  metrics with large effect sizes (Cohen's d > 1.2) indicating practical significance for  real-world deployment scenarios. Confidence intervals are narrow, demonstrating consistent  performance across different experimental conditions and random seeds.".

End Experimental.

(** ** The [__main__] block of [split_pdf.py] *)

Module Script.
Import OS Splitter.
Local Open Scope py_scope.

(** [if os.path.exists(input_pdf): split_pdf(input_pdf);
    extract_text_from_pages() else: ...].  The value returned is the
    summary printed by the extraction, [None] when the source is not found.
    The call of [install_pypdf2] and the printed lines are left out. *)
Definition main `{PyPDF2} : M (option summary) :=
  found <- os_path_exists default_input_pdf ;;
  if found then
    split_pdf default_input_pdf default_output_dir ;;
    s <- extract_text_from_pages default_output_dir default_text_dir ;;
    ret (Some s)
  else ret None.

End Script.

(** ** Further file systems to run the model on *)

Module Scenario.
Import OS.

(** A working directory with a three-page document, in which a directory
    bears the name of the second page file. *)
Definition blocked_second_page : gmap path node :=
  {[ ["large_ai_research_document.pdf"] := File "%PDF:abc";
     ["pdf_pages"] := Dir;
     ["pdf_pages"; "page_002.pdf"] := Dir ]}.

(** A pages directory whose second page file is not a PDF document. *)
Definition corrupt_second_page : gmap path node :=
  {[ ["pdf_pages"] := Dir;
     ["pdf_pages"; "page_001.pdf"] := File "%PDF:a";
     ["pdf_pages"; "page_002.pdf"] := File "garbage";
     ["pdf_pages"; "page_003.pdf"] := File "%PDF:c" ]}.

(** A working directory whose source is a document without pages. *)
Definition empty_document : gmap path node :=
  {[ ["large_ai_research_document.pdf"] := File "%PDF:" ]}.

End Scenario.

(** * Facts about [generate_large_pdf.py] *)

Section generator_facts.
Import Generator.

(** A loop that only appends to its accumulator computes a concatenation. *)
Lemma fold_left_append {A B} (f : B → list A) (l : list B) (acc : list A) :
  fold_left (λ acc x, acc ++ f x) l acc = acc ++ l ≫= f.
Proof.
  revert acc. induction l as [|x l IH]; intros acc; simpl.
  - by rewrite app_nil_r.
  - by rewrite IH, app_assoc.
Qed.

Lemma fold_left_ext_acc {A B} (f g : A → B → A) (l : list B) (acc : A) :
  (∀ a x, f a x = g a x) → fold_left f l acc = fold_left g l acc.
Proof.
  intros Hfg. revert acc. induction l as [|x l IH]; intros acc; simpl; [done|].
  by rewrite Hfg, IH.
Qed.

Lemma range_length (n : Z) : length (Py.range n) = Z.to_nat n.
Proof. unfold Py.range. by rewrite length_fmap, length_seq. Qed.

Lemma detailed_paragraph_index (s : string) (i j : Z) :
  detailed_paragraph s i = detailed_paragraph s j.
Proof. reflexivity. Qed.

(** The inner loop appends [repetitions] copies of one string. *)
Lemma inner_loop_replicate (s : string) (repetitions : Z) (expanded : list string) :
  fold_left (λ expanded i, expanded ++ [detailed_paragraph s i])
    (Py.range repetitions) expanded
  = expanded ++ replicate (Z.to_nat repetitions) (detailed_paragraph s 0).
Proof.
  rewrite (fold_left_append (λ i, [detailed_paragraph s i])).
  f_equal. unfold Py.range. generalize 0%nat.
  induction (Z.to_nat repetitions) as [|n IH]; intros k; simpl; [done|].
  by rewrite IH.
Qed.

Lemma create_detailed_paragraphs_bind (content_list : list string) (repetitions : Z) :
  create_detailed_paragraphs content_list repetitions
  = content_list ≫= (λ s, replicate (Z.to_nat repetitions) (detailed_paragraph s 0)).
Proof.
  unfold create_detailed_paragraphs.
  rewrite (fold_left_ext_acc _
    (λ acc s, acc ++ replicate (Z.to_nat repetitions) (detailed_paragraph s 0)))
    by (intros; apply inner_loop_replicate).
  by rewrite (fold_left_append
    (λ s, replicate (Z.to_nat repetitions) (detailed_paragraph s 0))).
Qed.

Lemma create_detailed_paragraphs_length (content_list : list string) (repetitions : Z) :
  length (create_detailed_paragraphs content_list repetitions)
  = (length content_list * Z.to_nat repetitions)%nat.
Proof.
  rewrite create_detailed_paragraphs_bind.
  induction content_list as [|s l IH]; [done|].
  rewrite bind_cons, length_app, length_replicate, IH. simpl. lia.
Qed.

Lemma elem_of_create_detailed_paragraphs (content_list : list string) (repetitions : Z) p :
  p ∈ create_detailed_paragraphs content_list repetitions ↔
  ∃ s, s ∈ content_list ∧ p = detailed_paragraph s 0 ∧ 0 < repetitions.
Proof.
  rewrite create_detailed_paragraphs_bind, list_elem_of_bind. split.
  - intros (s & [-> Hn]%elem_of_replicate & Hs). exists s. split_and!; [done..|lia].
  - intros (s & Hs & -> & Hn). exists s. split; [|done].
    apply elem_of_replicate. split; [done|lia].
Qed.
End generator_facts.

Section document_facts.
Import Generator.

Lemma last_char_app (s t : string) :
  t ≠ EmptyString → Py.last_char (s +:+ t) = Py.last_char t.
Proof.
  intros Ht. induction s as [|c s IH]; [done|].
  change (String c s +:+ t) with (String c (s +:+ t)). simpl.
  destruct (s +:+ t) eqn:E; [|done].
  destruct s; simpl in E; [done|discriminate].
Qed.

Lemma last_char_rev_app (s t : string) :
  t ≠ EmptyString → Py.last_char (String.rev_app s t) = Py.last_char t.
Proof.
  revert t. induction s as [|c s IH]; intros t Ht; simpl; [done|].
  rewrite IH by done. by destruct t.
Qed.

Lemma lstrip_head (s : string) :
  match Py.lstrip s with
  | EmptyString => True
  | String c _ => Py.is_space c = false
  end.
Proof.
  induction s as [|c s IH]; simpl; [done|].
  destruct (Py.is_space c) eqn:E; [done|]. simpl. done.
Qed.

(** [strip] leaves no white space at the end. *)
Lemma strip_last_char (s : string) (c : Ascii.ascii) :
  Py.last_char (Py.strip s) = Some c → Py.is_space c = false.
Proof.
  unfold Py.strip, String.rev.
  pose proof (lstrip_head (String.rev_app (Py.lstrip s) "")) as Hh.
  destruct (Py.lstrip (String.rev_app (Py.lstrip s) "")) as [|a t]; [done|].
  simpl. rewrite last_char_rev_app by done. simpl. by intros [= <-].
Qed.

(** Every expanded paragraph ends with the blank that closes its last
    clause. *)
Lemma detailed_paragraph_last_char (s : string) (i : Z) :
  Py.last_char (detailed_paragraph s i) = Some " "%char.
Proof. unfold detailed_paragraph. by rewrite last_char_app. Qed.

Lemma experimental_text_not_detailed (repeat_cycle : Z) (s : string) (i : Z) :
  experimental_text repeat_cycle ≠ detailed_paragraph s i.
Proof.
  intros E. pose proof (detailed_paragraph_last_char s i) as Hl.
  rewrite <-E in Hl. by apply strip_last_char in Hl.
Qed.
End document_facts.

Section count_facts.
Import Generator.

Lemma append_section_blocks repetitions repeat_cycle content item :
  append_section repetitions repeat_cycle content item
  = content ++ section_blocks repetitions repeat_cycle item.
Proof.
  destruct item as [section_title section_content].
  unfold append_section, section_blocks, create_detailed_paragraphs_call.
  rewrite (fold_left_ext_acc _
    (λ content para, content ++ [Paragraph para StyleNormal; Spacer 1 6]))
    by (intros; by rewrite <-app_assoc).
  rewrite (fold_left_append (λ para, [Paragraph para StyleNormal; Spacer 1 6])).
  simpl. by rewrite <-!app_assoc.
Qed.

Lemma build_content_blocks cycles repetitions sections content :
  build_content cycles repetitions sections content
  = content ++ Py.range cycles ≫= λ repeat_cycle,
                 sections ≫= section_blocks repetitions repeat_cycle.
Proof.
  unfold build_content.
  rewrite (fold_left_ext_acc _
    (λ content repeat_cycle,
       content ++ sections ≫= section_blocks repetitions repeat_cycle)).
  - by rewrite (fold_left_append
      (λ repeat_cycle, sections ≫= section_blocks repetitions repeat_cycle)).
  - intros acc repeat_cycle.
    rewrite (fold_left_ext_acc _
      (λ content item, content ++ section_blocks repetitions repeat_cycle item))
      by (intros; apply append_section_blocks).
    by rewrite (fold_left_append (section_blocks repetitions repeat_cycle)).
Qed.

Lemma expanded_paragraph_count_app sections (l1 l2 : list Flowable) :
  expanded_paragraph_count sections (l1 ++ l2)
  = (expanded_paragraph_count sections l1 + expanded_paragraph_count sections l2)%nat.
Proof. unfold expanded_paragraph_count. by rewrite filter_app, length_app. Qed.

Lemma elem_of_expanded_texts sections p :
  p ∈ expanded_texts sections ↔
  ∃ item s, item ∈ sections ∧ s ∈ item.2 ∧ p = detailed_paragraph s 0.
Proof.
  unfold expanded_texts. rewrite elem_of_create_detailed_paragraphs. split.
  - intros (s & (item & Hs & Hi)%list_elem_of_bind & -> & _).
    by exists item, s.
  - intros (item & s & Hi & Hs & ->). exists s. split_and!; [|done|lia].
    apply list_elem_of_bind. by exists item.
Qed.

Lemma experimental_text_not_expanded sections repeat_cycle :
  is_expanded_paragraph sections
    (Paragraph (experimental_text repeat_cycle) StyleNormal) = false.
Proof.
  simpl. apply bool_decide_eq_false. intros (item & s & _ & _ & E)%elem_of_expanded_texts.
  by apply experimental_text_not_detailed in E.
Qed.

Lemma title_page_count sections :
  expanded_paragraph_count sections title_page = 0%nat.
Proof.
  unfold expanded_paragraph_count, title_page.
  rewrite !filter_cons, filter_nil. simpl.
  destruct (decide (bool_decide _ = true)) as [H|]; [|done].
  apply bool_decide_eq_true in H.
  apply elem_of_expanded_texts in H as (item & s & _ & _ & E).
  pose proof (detailed_paragraph_last_char s 0) as Hl. rewrite <-E in Hl.
  discriminate.
Qed.

Lemma paragraphs_count sections (paras : list string) :
  (∀ p, p ∈ paras → p ∈ expanded_texts sections) →
  expanded_paragraph_count sections
    (paras ≫= λ para, [Paragraph para StyleNormal; Spacer 1 6])
  = length paras.
Proof.
  induction paras as [|p l IH]; intros Hin; [done|].
  rewrite bind_cons, expanded_paragraph_count_app, IH
    by (intros; apply Hin; by right).
  unfold expanded_paragraph_count. rewrite !filter_cons, filter_nil. simpl.
  rewrite decide_True; [done|].
  apply bool_decide_eq_true, Hin. by left.
Qed.

Lemma section_blocks_count sections repetitions repeat_cycle item :
  item ∈ sections →
  expanded_paragraph_count sections (section_blocks repetitions repeat_cycle item)
  = (length item.2 * Z.to_nat repetitions)%nat.
Proof.
  intros Hi. unfold section_blocks.
  rewrite !expanded_paragraph_count_app, paragraphs_count.
  - rewrite create_detailed_paragraphs_length.
    unfold expanded_paragraph_count. rewrite !filter_cons, filter_nil.
    rewrite (decide_False (P := is_expanded_paragraph _ (Paragraph (experimental_text _) _) = true))
      by (by rewrite experimental_text_not_expanded).
    simpl. lia.
  - intros p (s & Hs & -> & _)%elem_of_create_detailed_paragraphs.
    apply elem_of_expanded_texts. by exists item, s.
Qed.

Lemma sections_count sections repetitions repeat_cycle (secs : list (string * list string)) :
  secs ⊆ sections →
  expanded_paragraph_count sections (secs ≫= section_blocks repetitions repeat_cycle)
  = (total_sentences secs * Z.to_nat repetitions)%nat.
Proof.
  induction secs as [|item l IH]; intros Hsub; [done|].
  rewrite bind_cons, expanded_paragraph_count_app, IH, section_blocks_count.
  - unfold total_sentences. rewrite fmap_cons. simpl. lia.
  - apply Hsub. by left.
  - intros x Hx. apply Hsub. by right.
Qed.

Lemma build_content_count cycles repetitions sections content :
  expanded_paragraph_count sections (build_content cycles repetitions sections content)
  = (expanded_paragraph_count sections content
     + Z.to_nat cycles * (total_sentences sections * Z.to_nat repetitions))%nat.
Proof.
  rewrite build_content_blocks, expanded_paragraph_count_app. f_equal.
  rewrite <-range_length.
  induction (Py.range cycles) as [|c l IH]; [done|].
  rewrite bind_cons, expanded_paragraph_count_app, IH, sections_count by done.
  simpl. lia.
Qed.
End count_facts.

Section generator_claims.
Import Generator.

Lemma string_app_assoc (a b c : string) : (a +:+ b) +:+ c = a +:+ b +:+ c.
Proof. induction a as [|x a IH]; [done|]. exact (f_equal (String x) IH). Qed.

Lemma detailed_paragraph_suffix (s : string) (i : Z) :
  detailed_paragraph s i = s +:+ suffix_clauses s.
Proof.
  unfold detailed_paragraph, suffix_clauses.
  by rewrite !string_app_assoc.
Qed.

Lemma create_detailed_paragraphs_single (s : string) (N : Z) :
  create_detailed_paragraphs [s] N
  = replicate (Z.to_nat N) (detailed_paragraph s 0).
Proof.
  rewrite create_detailed_paragraphs_bind, bind_singleton. done.
Qed.

(** C1: for every list of base sentences and every repetition count
    [R >= 0], [create_detailed_paragraphs] returns [len(S) * R] paragraphs;
    a document built with [C >= 0] cycles over the sections contains
    [C * (sum of the sentences per section) * R] expanded paragraphs, which
    is zero when [C = 0] or [R = 0]. *)
Theorem paragraph_count (S : list string) (sections : list (string * list string))
    (C R : Z) :
  0 ≤ C → 0 ≤ R →
  Z.of_nat (length (create_detailed_paragraphs S R)) = Z.of_nat (length S) * R
  ∧ Z.of_nat (expanded_paragraph_count sections
                (build_content C R sections title_page))
    = C * Z.of_nat (total_sentences sections) * R
  ∧ (C = 0 ∨ R = 0 →
     expanded_paragraph_count sections
       (build_content C R sections title_page) = 0%nat).
Proof.
  intros HC HR.
  rewrite create_detailed_paragraphs_length, build_content_count, title_page_count.
  split_and!; [lia|lia|].
  intros [-> | ->]; simpl; lia.
Qed.

Lemma paragraph_count_witness :
  let sections := [("T", ["a"; "b"]); ("U", ["c"])] in
  Z.of_nat (length (create_detailed_paragraphs ["a"; "b"] 3)) = 6
  ∧ Z.of_nat (expanded_paragraph_count sections
                (build_content 2 3 sections title_page)) = 18
  ∧ (2 = 0 ∨ 3 = 0 →
     expanded_paragraph_count sections
       (build_content 2 3 sections title_page) = 0%nat).
Proof.
  exact (paragraph_count ["a"; "b"] [("T", ["a"; "b"]); ("U", ["c"])] 2 3
           ltac:(lia) ltac:(lia)).
Defined.

(** The document of [generate_pdf]: 20 cycles over 8 sections of 5
    sentences, each expanded 200 times. *)
Lemma total_sentences_massive :
  total_sentences generate_massive_research_sections = 40%nat.
Proof. reflexivity. Qed.

Lemma generate_pdf_paragraph_count :
  Z.of_nat (expanded_paragraph_count generate_massive_research_sections
              generate_pdf_content) = 160000.
Proof.
  unfold generate_pdf_content.
  rewrite build_content_count, title_page_count, total_sentences_massive.
  unfold generate_pdf_cycles, generate_pdf_repetitions. lia.
Qed.

(** C6: the [N] paragraphs expanded from one base sentence are pairwise
    identical: the expansion does not depend on the repetition index, and
    each paragraph is the base sentence followed by the same suffix
    clauses. *)
Theorem expanded_paragraphs_identical (s : string) (N : Z) :
  create_detailed_paragraphs [s] N
  = replicate (Z.to_nat N) (s +:+ suffix_clauses s)
  ∧ (∀ i j : Z, detailed_paragraph s i = detailed_paragraph s j)
  ∧ (∀ (i j : nat) (p q : string),
       create_detailed_paragraphs [s] N !! i = Some p →
       create_detailed_paragraphs [s] N !! j = Some q → p = q).
Proof.
  rewrite create_detailed_paragraphs_single, detailed_paragraph_suffix.
  split_and!; [done|done|].
  intros i j p q [-> _]%lookup_replicate [-> _]%lookup_replicate. done.
Qed.

(** C7, as the claim states it, fails: a call of
    [create_detailed_paragraphs] that leaves [repetitions] out expands each
    sentence 300 times, not 200. *)
Lemma default_repetitions_counterexample :
  ¬ (generate_pdf_cycles = 20 ∧ generate_pdf_repetitions = 200
     ∧ length (create_detailed_paragraphs_call ["s"] None) = 200%nat).
Proof.
  intros (_ & _ & Hlen). unfold create_detailed_paragraphs_call in Hlen.
  rewrite create_detailed_paragraphs_length in Hlen. simpl in Hlen.
  unfold default_repetitions in Hlen. lia.
Qed.

(** C7, amended: [generate_pdf] runs 20 cycles and passes
    [repetitions=200] explicitly, so that its document holds
    [20 * 40 * 200] expanded paragraphs; the default of [repetitions],
    used when the argument is left out, is 300. *)
Theorem builder_constants (content_list : list string) :
  generate_pdf_content
  = build_content 20 200 generate_massive_research_sections title_page
  ∧ Z.of_nat (expanded_paragraph_count generate_massive_research_sections
                generate_pdf_content) = 20 * 40 * 200
  ∧ create_detailed_paragraphs_call content_list (Some 200)
    = create_detailed_paragraphs content_list 200
  ∧ create_detailed_paragraphs_call content_list None
    = create_detailed_paragraphs content_list 300
  ∧ length (create_detailed_paragraphs_call content_list None)
    = (length content_list * 300)%nat.
Proof.
  split_and!; [done| |done|done|].
  - by rewrite generate_pdf_paragraph_count.
  - unfold create_detailed_paragraphs_call.
    by rewrite create_detailed_paragraphs_length.
Qed.
End generator_claims.

(** * Facts about binary64 rounding *)

Section float_facts.
Import SpecFloat PyFloat.

Lemma digits2_pos_size (p : positive) : digits2_pos p = Pos.size p.
Proof. induction p as [p IH|p IH|]; simpl; by rewrite ?IH. Qed.

Lemma Zdigits2_log2 (z : Z) : 0 < z → Zdigits2 z = Z.log2 z + 1.
Proof.
  destruct z as [|p|p]; [lia| |lia]. intros _. simpl.
  rewrite digits2_pos_size. destruct p; simpl; lia.
Qed.

Lemma Zdigits2_bounds (z : Z) :
  0 < z → 2 ^ (Zdigits2 z - 1) ≤ z < 2 ^ Zdigits2 z.
Proof.
  intros Hz. rewrite Zdigits2_log2 by done.
  replace (Z.log2 z + 1 - 1) with (Z.log2 z) by lia.
  replace (Z.log2 z + 1) with (Z.succ (Z.log2 z)) by lia.
  by apply Z.log2_spec.
Qed.

Lemma Zdigits2_unique (z d : Z) : 2 ^ (d - 1) ≤ z < 2 ^ d → 1 ≤ d → Zdigits2 z = d.
Proof.
  intros Hz Hd. assert (0 < z) by (pose proof (Z.pow_pos_nonneg 2 (d - 1)); lia).
  rewrite Zdigits2_log2 by done.
  rewrite (Z.log2_unique z (d - 1)); [lia|lia|].
  replace (Z.succ (d - 1)) with d by lia. done.
Qed.

Lemma shr_m_shr_1 (r : shr_record) :
  0 ≤ shr_m r → shr_m (shr_1 r) = shr_m r / 2.
Proof.
  destruct r as [m b s]. simpl. intros Hm.
  destruct m as [|[p|p|]|p]; simpl; try done; try lia.
  - rewrite Pos2Z.inj_xI. apply (Z.div_unique _ _ _ 1); lia.
  - rewrite Pos2Z.inj_xO. apply (Z.div_unique _ _ _ 0); lia.
Qed.

Lemma shr_m_iter_pos (p : positive) (r : shr_record) :
  0 ≤ shr_m r → shr_m (iter_pos shr_1 p r) = shr_m r / 2 ^ Z.pos p.
Proof.
  assert (Hnn : ∀ q r, 0 ≤ shr_m r →
            shr_m (iter_pos shr_1 q r) = shr_m r / 2 ^ Z.pos q
            ∧ 0 ≤ shr_m (iter_pos shr_1 q r)).
  { intros q. induction q as [q IH|q IH|]; intros r' Hr'; simpl.
    - assert (0 ≤ shr_m (shr_1 r')) as H1
        by (rewrite shr_m_shr_1 by done; apply Z.div_pos; lia).
      destruct (IH _ H1) as [E1 P1]. destruct (IH _ P1) as [E2 P2].
      split; [|done]. rewrite E2, E1, shr_m_shr_1 by done.
      rewrite !Z.div_div by (try apply Z.pow_pos_nonneg; lia).
      f_equal. replace (Z.pos q~1) with (Z.pos q + Z.pos q + 1) by lia.
      rewrite !Z.pow_add_r, Z.pow_1_r by lia. lia.
    - destruct (IH _ Hr') as [E1 P1]. destruct (IH _ P1) as [E2 P2].
      split; [|done]. rewrite E2, E1.
      rewrite !Z.div_div by (try apply Z.pow_pos_nonneg; lia).
      f_equal. replace (Z.pos q~0) with (Z.pos q + Z.pos q) by lia.
      rewrite Z.pow_add_r by lia. done.
    - rewrite shr_m_shr_1 by done. split; [done|]. apply Z.div_pos; lia. }
  intros Hr. by apply Hnn.
Qed.

(** Shifting right by [n] places divides the mantissa by [2^n]. *)
Lemma shr_spec (r : shr_record) (e n : Z) :
  0 ≤ shr_m r →
  shr_m (shr r e n).1 = shr_m r / 2 ^ Z.max 0 n
  ∧ (shr r e n).2 = e + Z.max 0 n.
Proof.
  intros Hr. destruct n as [|p|p]; simpl.
  - rewrite Z.div_1_r. split; [done|lia].
  - rewrite shr_m_iter_pos by done. split; [done|lia].
  - rewrite Z.div_1_r. split; [done|lia].
Qed.

Lemma shr_m_of_loc (m : Z) (l : location) : shr_m (shr_record_of_loc m l) = m.
Proof. by destruct l as [|[]]. Qed.

Lemma shr_fexp_spec (m e : Z) (l : location) :
  0 ≤ m →
  let t := Z.max 0 (fexp prec emax (Zdigits2 m + e) - e) in
  shr_m (shr_fexp prec emax m e l).1 = m / 2 ^ t
  ∧ (shr_fexp prec emax m e l).2 = e + t.
Proof.
  intros Hm t. unfold shr_fexp.
  pose proof (shr_spec (shr_record_of_loc m l) e
                (fexp prec emax (Zdigits2 m + e) - e)) as Hs.
  rewrite shr_m_of_loc in Hs. by apply Hs.
Qed.

Lemma round_nearest_even_bounds (m : Z) (l : location) :
  m ≤ round_nearest_even m l ≤ m + 1.
Proof. destruct l as [|[]]; simpl; try lia. destruct (Z.even m); lia. Qed.
End float_facts.

Section rounding_facts.
Import SpecFloat PyFloat.

Lemma fexp_normal (e : Z) : -1021 ≤ e → fexp prec emax e = e - 53.
Proof. unfold fexp, emin, prec, emax. lia. Qed.

Lemma div_add_one_le (a b : Z) : 0 < b → (a + 1) / b ≤ a / b + 1.
Proof.
  intros Hb. apply Z.lt_succ_r, Z.div_lt_upper_bound; [done|].
  pose proof (Z.mul_succ_div_gt a b Hb). nia.
Qed.

(** Rounding a mantissa of at least 53 bits, in the range of the normal
    numbers: the result is a normal number, and its mantissa is the
    truncated mantissa or its successor. *)
Lemma binary_round_aux_normal (s : bool) (mz ez : Z) (lz : location) :
  2 ^ 52 ≤ mz → -1074 ≤ ez → ez + Zdigits2 mz ≤ 1023 →
  ∃ (m : positive) (e : Z),
    binary_round_aux prec emax s mz ez lz = S754_finite s m e
    ∧ 2 ^ 52 ≤ Z.pos m < 2 ^ 53
    ∧ ez + (Zdigits2 mz - 53) ≤ e ≤ ez + (Zdigits2 mz - 53) + 1
    ∧ mz / 2 ^ (e - ez) ≤ Z.pos m ≤ mz / 2 ^ (e - ez) + 1.
Proof.
  intros Hmz Hez Hmax.
  assert (0 < mz) as Hpos by lia.
  pose proof (Zdigits2_bounds mz Hpos) as Hd.
  set (dz := Zdigits2 mz) in *.
  assert (53 ≤ dz) as Hdz.
  { destruct (decide (53 ≤ dz)) as [|Hn]; [done|].
    assert (2 ^ dz ≤ 2 ^ 52) by (apply Z.pow_le_mono_r; lia). lia. }
  unfold binary_round_aux.
  pose proof (shr_fexp_spec mz ez lz ltac:(lia)) as [Em1 Ee1].
  fold dz in Em1, Ee1.
  rewrite fexp_normal in Em1, Ee1 by lia.
  replace (Z.max 0 (dz + ez - 53 - ez)) with (dz - 53) in Em1, Ee1 by lia.
  destruct (shr_fexp prec emax mz ez lz) as [mrs1 e1]. simpl in Em1, Ee1.
  set (m1 := shr_m mrs1) in *.
  assert (2 ^ 52 ≤ m1 < 2 ^ 53) as Hm1.
  { rewrite Em1. split.
    - apply Z.div_le_lower_bound; [apply Z.pow_pos_nonneg; lia|].
      rewrite <-Z.pow_add_r by lia. replace (dz - 53 + 52) with (dz - 1) by lia. lia.
    - apply Z.div_lt_upper_bound; [apply Z.pow_pos_nonneg; lia|].
      rewrite <-Z.pow_add_r by lia. replace (dz - 53 + 53) with dz by lia. lia. }
  pose proof (round_nearest_even_bounds m1 (loc_of_shr_record mrs1)) as Hr.
  set (mr := round_nearest_even m1 (loc_of_shr_record mrs1)) in *.
  pose proof (shr_fexp_spec mr e1 loc_Exact ltac:(lia)) as [Em2 Ee2].
  assert (Zdigits2 mr = 53 ∧ mr < 2 ^ 53 ∨ Zdigits2 mr = 54 ∧ mr = 2 ^ 53) as Hdr.
  { destruct (decide (mr < 2 ^ 53)).
    - left. split; [|done]. apply Zdigits2_unique; lia.
    - right. split; [|lia]. apply Zdigits2_unique; lia. }
  assert (∃ t2, (t2 = 0 ∧ mr < 2 ^ 53 ∨ t2 = 1 ∧ mr = 2 ^ 53)
                ∧ Z.max 0 (fexp prec emax (Zdigits2 mr + e1) - e1) = t2)
    as (t2 & Ht2 & Et2).
  { destruct Hdr as [[-> ?]|[-> ?]]; rewrite fexp_normal by lia.
    - exists 0. split; [auto|lia].
    - exists 1. split; [auto|lia]. }
  rewrite Et2 in Em2, Ee2.
  destruct (shr_fexp prec emax mr e1 loc_Exact) as [mrs2 e2]. simpl in Em2, Ee2.
  assert (2 ^ 52 ≤ shr_m mrs2 < 2 ^ 53) as Hm2.
  { rewrite Em2. destruct Ht2 as [[-> ?]|[-> ->]].
    - rewrite Z.div_1_r. lia.
    - done. }
  destruct (shr_m mrs2) as [|m2|] eqn:Eshr; [lia| |lia].
  assert ((e2 <=? emax - prec) = true) as ->
    by (apply Z.leb_le; unfold emax, prec; lia).
  exists m2, e2. split; [done|]. split; [done|]. split; [lia|].
  replace (e2 - ez) with ((dz - 53) + t2) by lia.
  assert (0 ≤ t2) by lia.
  rewrite Z.pow_add_r, <-Z.div_div by (try apply Z.pow_pos_nonneg; lia).
  rewrite <-Em1, Em2.
  assert (0 < 2 ^ t2) by (apply Z.pow_pos_nonneg; lia).
  split.
  - apply Z.div_le_mono; lia.
  - etrans; [apply (Z.div_le_mono _ (m1 + 1)); lia|]. by apply div_add_one_le.
Qed.
End rounding_facts.

Section conversion_facts.
Import SpecFloat PyFloat.

Lemma pos_iter_xO (p d : positive) : Z.pos (Pos.iter xO p d) = Z.pos p * 2 ^ Z.pos d.
Proof.
  induction d as [|d IH] using Pos.peano_ind.
  - simpl. lia.
  - rewrite Pos.iter_succ, Pos2Z.inj_xO, IH, Pos2Z.inj_succ, Z.pow_succ_r by lia. lia.
Qed.

Lemma scale_to_53_bits (n d : Z) :
  1 ≤ d ≤ 53 → 2 ^ (d - 1) ≤ n < 2 ^ d →
  2 ^ 52 ≤ n * 2 ^ (53 - d) < 2 ^ 53.
Proof.
  intros Hd Hn.
  assert (2 ^ 52 = 2 ^ (d - 1) * 2 ^ (53 - d)) as H1
    by (rewrite <-Z.pow_add_r by lia; f_equal; lia).
  assert (2 ^ 53 = 2 ^ d * 2 ^ (53 - d)) as H2
    by (rewrite <-Z.pow_add_r by lia; f_equal; lia).
  assert (0 < 2 ^ (53 - d)) by (apply Z.pow_pos_nonneg; lia).
  rewrite H1 at 1. rewrite H2. nia.
Qed.

(** A 53-bit mantissa with an exact location is not changed by rounding. *)
Lemma binary_round_aux_exact (s : bool) (m : positive) (e : Z) :
  2 ^ 52 ≤ Z.pos m < 2 ^ 53 → -1074 ≤ e ≤ 971 →
  binary_round_aux prec emax s (Z.pos m) e loc_Exact = S754_finite s m e.
Proof.
  intros Hm He.
  assert (Zdigits2 (Z.pos m) = 53) as Hd by (apply Zdigits2_unique; lia).
  assert (shr_fexp prec emax (Z.pos m) e loc_Exact
          = ({| shr_m := Z.pos m; shr_r := false; shr_s := false |}, e)) as Hs.
  { unfold shr_fexp. rewrite Hd, fexp_normal by lia.
    replace (53 + e - 53 - e) with 0 by lia. done. }
  unfold binary_round_aux. rewrite Hs. simpl. rewrite Hs. simpl.
  assert ((e <=? emax - prec) = true) as -> by (apply Z.leb_le; unfold emax, prec; lia).
  done.
Qed.

(** [float(n)] is exact below [2^53]. *)
Lemma of_int_exact (n : Z) :
  0 < n < 2 ^ 53 →
  of_int n = Some (S754_finite false (Z.to_pos (n * 2 ^ (53 - Zdigits2 n)))
                     (Zdigits2 n - 53)).
Proof.
  intros Hn. pose proof (Zdigits2_bounds n ltac:(lia)) as Hd.
  destruct n as [|p|p]; [lia| |lia].
  set (d := Zdigits2 (Z.pos p)) in *.
  assert (1 ≤ d ≤ 53) as Hdr.
  { split.
    - unfold d. simpl. lia.
    - destruct (decide (d ≤ 53)) as [|Hgt]; [done|].
      assert (2 ^ 53 ≤ 2 ^ (d - 1)) by (apply Z.pow_le_mono_r; lia). lia. }
  unfold of_int, binary_normalize, binary_round, shl_align.
  change (Z.pos (digits2_pos p)) with d.
  rewrite fexp_normal by lia.
  destruct (d + 0 - 53 - 0) as [|k|k] eqn:Ek; [|lia|].
  - assert (d = 53) as Hd53 by lia. rewrite Hd53 in *.
    rewrite binary_round_aux_exact by lia.
    replace (53 - 53) with 0 by lia. rewrite Z.mul_1_r. done.
  - assert (Z.pos k = 53 - d) as Hk by lia.
    assert (2 ^ 52 ≤ Z.pos (Pos.iter xO p k) < 2 ^ 53) as Hb.
    { rewrite pos_iter_xO, Hk. by apply scale_to_53_bits. }
    rewrite binary_round_aux_exact by lia.
    replace (d + 0 - 53) with (d - 53) by lia.
    rewrite <-Hk, <-pos_iter_xO. done.
Qed.

(** [float(n)] is a normal number for every positive [n] that a double
    can hold. *)
Lemma of_int_normal (n : Z) :
  0 < n < 2 ^ 1023 →
  ∃ (m : positive) (e : Z),
    of_int n = Some (S754_finite false m e)
    ∧ 2 ^ 52 ≤ Z.pos m < 2 ^ 53 ∧ -52 ≤ e ≤ 971.
Proof.
  intros Hn. pose proof (Zdigits2_bounds n ltac:(lia)) as Hd.
  destruct (decide (n < 2 ^ 53)) as [Hlt|Hge].
  - rewrite of_int_exact by lia. eexists _, _. split; [done|].
    assert (1 ≤ Zdigits2 n ≤ 53) as Hdr.
    { split.
      - destruct n; simpl; lia.
      - destruct (decide (Zdigits2 n ≤ 53)) as [|Hgt]; [done|].
        assert (2 ^ 53 ≤ 2 ^ (Zdigits2 n - 1)) by (apply Z.pow_le_mono_r; lia). lia. }
    split; [|lia].
    pose proof (scale_to_53_bits n (Zdigits2 n) Hdr Hd).
    rewrite Z2Pos.id by lia. done.
  - destruct n as [|p|p]; [lia| |lia].
    set (d := Zdigits2 (Z.pos p)) in *.
    assert (54 ≤ d ≤ 1023) as Hdr.
    { split.
      - destruct (decide (54 ≤ d)) as [|Hlt]; [done|].
        assert (2 ^ d ≤ 2 ^ 53) by (apply Z.pow_le_mono_r; lia). lia.
      - destruct (decide (d ≤ 1023)) as [|Hgt]; [done|].
        assert (2 ^ 1023 ≤ 2 ^ (d - 1)) by (apply Z.pow_le_mono_r; lia). lia. }
    unfold of_int, binary_normalize, binary_round, shl_align.
    change (Z.pos (digits2_pos p)) with d.
    rewrite fexp_normal by lia.
    destruct (binary_round_aux_normal false (Z.pos p) 0 loc_Exact)
      as (m & e & Hr & Hm & He & _); [lia|lia|fold d; lia|].
    fold d in He.
    destruct (d + 0 - 53 - 0) as [|k|k] eqn:Ek; [lia| |lia].
    rewrite Hr. exists m, e. split; [done|]. split; [done|lia].
Qed.
End conversion_facts.

Section division_facts.
Import SpecFloat PyFloat.

(** Dividing a normal number by [3.8]: the quotient of the mantissas is
    taken with 53 more bits and then rounded. *)
Lemma truediv_3_8_round (mx : positive) (ex : Z) :
  2 ^ 52 ≤ Z.pos mx < 2 ^ 53 → -1000 ≤ ex ≤ 971 →
  SFdiv prec emax (S754_finite false mx ex) float_3_8
  = binary_round_aux prec emax false (Z.pos mx * 2 ^ 53 / D38) (ex - 2)
      (new_location D38 ((Z.pos mx * 2 ^ 53) `mod` D38)).
Proof.
  intros Hm He. unfold float_3_8, SFdiv, SFdiv_core_binary.
  assert (Zdigits2 (Z.pos mx) = 53) as -> by (apply Zdigits2_unique; lia).
  assert (Zdigits2 8556839292003942 = 53) as -> by done.
  replace (53 + ex - (53 + -51)) with (ex + 51) by lia.
  rewrite fexp_normal by lia.
  replace (Z.min (ex + 51 - 53) (ex - -51)) with (ex - 2) by lia.
  replace (ex - -51 - (ex - 2)) with 53 by lia.
  cbv beta iota zeta.
  rewrite Z.shiftl_mul_pow2 by lia.
  unfold Z.div, Z.modulo, D38.
  by destruct (Z.div_eucl (Z.pos mx * 2 ^ 53) 8556839292003942).
Qed.

Lemma truediv_3_8_normal (mx : positive) (ex : Z) :
  2 ^ 52 ≤ Z.pos mx < 2 ^ 53 → -1000 ≤ ex ≤ 971 →
  ∃ (m : positive) (e : Z),
    SFdiv prec emax (S754_finite false mx ex) float_3_8 = S754_finite false m e
    ∧ ex - 2 ≤ e ≤ ex
    ∧ Z.pos mx * 2 ^ 53 / D38 / 2 ^ (e - (ex - 2)) ≤ Z.pos m
      ≤ Z.pos mx * 2 ^ 53 / D38 / 2 ^ (e - (ex - 2)) + 1.
Proof.
  intros Hm He. rewrite truediv_3_8_round by done.
  set (q := Z.pos mx * 2 ^ 53 / D38).
  assert (2 ^ 52 ≤ q < 2 ^ 54) as Hq.
  { unfold q, D38. split.
    - apply Z.div_le_lower_bound; lia.
    - apply Z.div_lt_upper_bound; lia. }
  assert (53 ≤ Zdigits2 q ≤ 54) as Hdq.
  { destruct (decide (q < 2 ^ 53)).
    - rewrite (Zdigits2_unique q 53); lia.
    - rewrite (Zdigits2_unique q 54); lia. }
  destruct (binary_round_aux_normal false q (ex - 2)
              (new_location D38 ((Z.pos mx * 2 ^ 53) `mod` D38)))
    as (m & e & Hr & _ & Hexp & Hb); [lia|lia|lia|].
  exists m, e. split; [done|]. split; [lia|done].
Qed.
End division_facts.

Section token_estimate_facts.
Import SpecFloat PyFloat Splitter.

Lemma token_estimate_exact_div (n : Z) :
  token_estimate_exact n = Z.max 1 (n * 10 / 38).
Proof. reflexivity. Qed.

Lemma to_int_finite (m : positive) (e : Z) :
  e < 0 → to_int (S754_finite false m e) = Some (Z.pos m / 2 ^ (- e)).
Proof. intros He. destruct e as [|p|p]; [lia|lia|done]. Qed.

Lemma to_int_finite_nonneg (m : positive) (e : Z) :
  ∃ t, to_int (S754_finite false m e) = Some t ∧ 0 ≤ t.
Proof.
  destruct e as [|p|p]; simpl; eexists; (split; [done|]).
  - lia.
  - assert (0 < 2 ^ Z.pos p) by (apply Z.pow_pos_nonneg; lia). lia.
  - apply Z.div_pos; [lia|]. apply Z.pow_pos_nonneg; lia.
Qed.

Lemma token_estimate_unfold (n : Z) (x : spec_float) (t : Z) :
  of_int n = Some x → to_int (SFdiv prec emax x float_3_8) = Some t →
  token_estimate n = Some (Z.max 1 t).
Proof.
  intros Hx Ht. unfold token_estimate, truediv_int.
  rewrite Hx. cbn [mbind option_bind]. rewrite Ht. done.
Qed.

(** The estimate is defined, and at least 1, for every length that a
    double can hold; in particular for every length of a Python string
    (below [2^63]). *)
Lemma token_estimate_defined (n : Z) :
  0 ≤ n < 2 ^ 1023 → ∃ t, token_estimate n = Some t ∧ 1 ≤ t.
Proof.
  intros Hn. destruct (decide (n = 0)) as [->|Hne].
  - exists 1. done.
  - destruct (of_int_normal n) as (mx & ex & Hx & Hmx & Hex); [lia|].
    destruct (truediv_3_8_normal mx ex) as (m & e & Hq & _); [done|lia|].
    destruct (to_int_finite_nonneg m e) as (t & Ht & Htn).
    exists (Z.max 1 t). split; [|lia].
    apply (token_estimate_unfold n _ t Hx). by rewrite Hq.
Qed.

(** The arithmetic behind the exactness of the estimate: [M] is the
    quotient scaled by [A = 2^E]; an error of one unit in [M] does not move
    the integer part as long as [A >= 64] and [n < 2^47]. *)
Lemma quotient_window (n A m : Z) :
  0 ≤ n < 2 ^ 47 → 64 ≤ A →
  n * 2 ^ 51 * A / D38 ≤ m ≤ n * 2 ^ 51 * A / D38 + 1 →
  m / A = n * 10 / 38.
Proof.
  intros Hn HA Hm.
  set (k := n * 10 / 38).
  assert (38 * k ≤ n * 10 < 38 * k + 38) as Hk.
  { unfold k. pose proof (Z.mul_div_le (n * 10) 38 ltac:(lia)).
    pose proof (Z.mul_succ_div_gt (n * 10) 38 ltac:(lia)). lia. }
  assert (0 ≤ k) as Hk0 by (apply Z.div_pos; lia).
  assert (k * A ≤ n * 2 ^ 51 * A / D38) as Hlow.
  { apply Z.div_le_lower_bound; [done|]. unfold D38. nia. }
  assert (n * 2 ^ 51 * A / D38 < (k + 1) * A - 1) as Hup.
  { apply Z.div_lt_upper_bound; [done|]. unfold D38. nia. }
  symmetry. apply (Z.div_unique_pos m A k (m - k * A)); lia.
Qed.
End token_estimate_facts.

Section token_estimate_claim.
Import SpecFloat PyFloat Splitter.

Lemma token_estimate_pos (n : Z) :
  0 < n < 2 ^ 47 → token_estimate n = Some (Z.max 1 (n * 10 / 38)).
Proof.
  intros Hn.
  pose proof (Zdigits2_bounds n ltac:(lia)) as Hd.
  set (dn := Zdigits2 n) in *.
  assert (1 ≤ dn ≤ 47) as Hdn.
  { split.
    - unfold dn. destruct n; simpl; lia.
    - destruct (decide (dn ≤ 47)) as [|Hgt]; [done|].
      assert (2 ^ 47 ≤ 2 ^ (dn - 1)) by (apply Z.pow_le_mono_r; lia). lia. }
  pose proof (scale_to_53_bits n dn ltac:(lia) Hd) as Hmx.
  assert (of_int n = Some (S754_finite false (Z.to_pos (n * 2 ^ (53 - dn))) (dn - 53)))
    as Hx by (apply of_int_exact; lia).
  set (mx := Z.to_pos (n * 2 ^ (53 - dn))) in *.
  assert (Z.pos mx = n * 2 ^ (53 - dn)) as Emx by (unfold mx; rewrite Z2Pos.id; lia).
  destruct (truediv_3_8_normal mx (dn - 53)) as (m & e & Hq & He & Hb); [lia|lia|].
  apply (token_estimate_unfold n _ _ Hx).
  rewrite Hq, to_int_finite by lia.
  enough (Z.pos m / 2 ^ (- e) = n * 10 / 38) as -> by done.
  set (T := e - (dn - 53 - 2)) in *.
  assert (0 ≤ T ≤ 2) as HT by (unfold T; lia).
  assert (0 < 2 ^ T) by (apply Z.pow_pos_nonneg; lia).
  assert (64 ≤ 2 ^ (- e)) as HA.
  { change 64 with (2 ^ 6). apply Z.pow_le_mono_r; lia. }
  apply quotient_window; [lia|done|].
  assert (Z.pos mx * 2 ^ 53 / D38 / 2 ^ T = n * 2 ^ 51 * 2 ^ (- e) / D38) as <-; [|done].
  rewrite Z.div_div by (unfold D38; lia).
  rewrite <-(Z.div_mul_cancel_r (n * 2 ^ 51 * 2 ^ (- e)) D38 (2 ^ T))
    by (unfold D38; lia).
  f_equal. rewrite Emx, <-!Z.mul_assoc, <-!Z.pow_add_r by lia.
  do 2 f_equal. unfold T. lia.
Qed.

(** C2: for a page text of [n] characters the extractor computes
    [max(1, floor(n / 3.8))]; the estimate of a non-empty text is at least
    1 and the estimate of the empty text is 1.  The float division of
    the script agrees with the exact quotient for every length below
    [2^47], which no text held in memory exceeds. *)
Theorem token_estimate_floor (n : Z) :
  0 ≤ n < 2 ^ 47 →
  token_estimate n = Some (token_estimate_exact n)
  ∧ 1 ≤ token_estimate_exact n
  ∧ (n = 0 → token_estimate n = Some 1).
Proof.
  intros Hn. rewrite token_estimate_exact_div. split_and!.
  - destruct (decide (n = 0)) as [->|Hne]; [done|].
    apply token_estimate_pos. lia.
  - lia.
  - by intros ->.
Qed.

Lemma token_estimate_floor_witness :
  token_estimate 1000000 = Some 263157
  ∧ 1 ≤ token_estimate_exact 1000000
  ∧ (1000000 = 0 → token_estimate 1000000 = Some 1).
Proof. exact (token_estimate_floor 1000000 ltac:(lia)). Defined.

(** Why the range matters: at a length of about [2^50.9] the rounding of
    the float quotient reaches the next integer, one above the exact
    floor. *)
Remark token_estimate_beyond_range :
  token_estimate 2117071540188916 = Some 557124089523399
  ∧ token_estimate_exact 2117071540188916 = 557124089523398.
Proof. split; vm_compute; reflexivity. Qed.
End token_estimate_claim.

(** * Facts about the file system operations *)

Section os_facts.
Import OS.

Lemma only_dirs_added_refl (d : path) (σ : gmap path node) : only_dirs_added d σ σ.
Proof. intros p. by left. Qed.

Lemma only_dirs_added_trans (d : path) (σ1 σ2 σ3 : gmap path node) :
  only_dirs_added d σ1 σ2 → only_dirs_added d σ2 σ3 → only_dirs_added d σ1 σ3.
Proof.
  intros H12 H23 p.
  destruct (H12 p) as [E1|(E1 & E1' & Hp1)], (H23 p) as [E2|(E2 & E2' & Hp2)].
  - left. congruence.
  - right. split_and!; [congruence|done|done].
  - right. split_and!; [done|congruence|done].
  - congruence.
Qed.

Lemma only_dirs_added_file (d : path) (σ σ' : gmap path node) (p : path) (c : string) :
  only_dirs_added d σ σ' → σ !! p = Some (File c) → σ' !! p = Some (File c).
Proof. intros H Hp. destruct (H p) as [E|(E & _)]; congruence. Qed.

Lemma only_dirs_added_file_inv (d : path) (σ σ' : gmap path node) (p : path) (c : string) :
  only_dirs_added d σ σ' → σ' !! p = Some (File c) → σ !! p = Some (File c).
Proof. intros H Hp. destruct (H p) as [E|(_ & E & _)]; congruence. Qed.

Lemma only_dirs_added_dir (d : path) (σ σ' : gmap path node) (p : path) :
  only_dirs_added d σ σ' → is_dir σ p = true → is_dir σ' p = true.
Proof.
  intros H. unfold is_dir. destruct p as [|c p]; [done|].
  destruct (H (c :: p)) as [->|(-> & -> & _)]; done.
Qed.

(** Outside the paths leading to [d] nothing changes. *)
Lemma only_dirs_added_other (d : path) (σ σ' : gmap path node) (p : path) :
  only_dirs_added d σ σ' → ¬ p `prefix_of` d → σ' !! p = σ !! p.
Proof. intros H Hp. by destruct (H p) as [E|(_ & _ & ?)]. Qed.

Lemma makedirs_go_frame (pre rest : path) (σ : gmap path node) :
  only_dirs_added (pre ++ rest) σ (makedirs_go pre rest σ).2.
Proof.
  revert pre σ. induction rest as [|c rest IH]; intros pre σ; simpl.
  - apply only_dirs_added_refl.
  - assert (pre ++ c :: rest = (pre ++ [c]) ++ rest) as Eapp
      by (by rewrite <-app_assoc).
    destruct (σ !! (pre ++ [c])) as [[content|]|] eqn:E.
    + apply only_dirs_added_refl.
    + rewrite Eapp. apply IH.
    + eapply only_dirs_added_trans; [|rewrite Eapp; apply IH].
      intros p. destruct (decide (p = pre ++ [c])) as [->|Hne].
      * right. rewrite lookup_insert_eq. split_and!; [done|done|].
        apply prefix_app, prefix_cons, prefix_nil.
      * left. by rewrite lookup_insert_ne.
Qed.

Lemma dir_available_prefix (σ : gmap path node) (d pre : path) (c : string) :
  dir_available σ d = true → pre `prefix_of` d → σ !! pre ≠ Some (File c).
Proof.
  unfold dir_available. rewrite forallb_forall. intros Hall Hpre E.
  specialize (Hall (length pre)).
  assert (take (length pre) d = pre) as Et.
  { destruct Hpre as [k ->]. by rewrite take_app_length. }
  unfold is_file in Hall. rewrite Et, E in Hall.
  apply prefix_length in Hpre.
  discriminate Hall. apply in_seq. lia.
Qed.

Lemma makedirs_go_ok (pre rest : path) (σ : gmap path node) :
  (∀ pre' c, pre' `prefix_of` pre ++ rest → σ !! pre' ≠ Some (File c)) →
  ∃ σ', makedirs_go pre rest σ = (inr tt, σ')
        ∧ (rest ≠ [] → σ' !! (pre ++ rest) = Some Dir).
Proof.
  revert pre σ. induction rest as [|c rest IH]; intros pre σ Hav; simpl.
  - by exists σ.
  - assert (pre ++ c :: rest = (pre ++ [c]) ++ rest) as Eapp
      by (by rewrite <-app_assoc).
    destruct (σ !! (pre ++ [c])) as [[content|]|] eqn:E.
    + exfalso. apply (Hav (pre ++ [c]) content); [|done].
      rewrite Eapp. by apply prefix_app_r.
    + destruct (IH (pre ++ [c]) σ) as (σ' & Hgo & Hdir).
      { intros pre' c'. rewrite <-Eapp. apply Hav. }
      exists σ'. split; [done|]. intros _. rewrite Eapp.
      destruct rest as [|c2 rest]; [|by apply Hdir].
      simpl in Hgo. injection Hgo as <-. by rewrite app_nil_r.
    + destruct (IH (pre ++ [c]) (<[pre ++ [c]:=Dir]> σ)) as (σ' & Hgo & Hdir).
      { intros pre' c' Hpre. destruct (decide (pre' = pre ++ [c])) as [->|Hne].
        - by rewrite lookup_insert_eq.
        - rewrite lookup_insert_ne by done. apply Hav. by rewrite Eapp. }
      exists σ'. split; [done|]. intros _. rewrite Eapp.
      destruct rest as [|c2 rest]; [|by apply Hdir].
      simpl in Hgo. injection Hgo as <-. by rewrite app_nil_r, lookup_insert_eq.
Qed.
End os_facts.

Section ensure_dir_facts.
Import OS Splitter.

Lemma ensure_dir_frame (d : path) (σ : gmap path node) : only_dirs_added d σ (ensure_dir d σ).2.
Proof.
  unfold ensure_dir, bind, os_path_exists, os_makedirs.
  destruct (exists_at σ d) eqn:E; simpl.
  - apply only_dirs_added_refl.
  - rewrite E. apply (makedirs_go_frame [] d).
Qed.

(** When no file is in the way, the directory exists after [ensure_dir]. *)
Lemma ensure_dir_available (d : path) (σ : gmap path node) :
  dir_available σ d = true →
  ∃ σ0, ensure_dir d σ = (inr tt, σ0) ∧ is_dir σ0 d = true
        ∧ only_dirs_added d σ σ0.
Proof.
  intros Hav.
  pose proof (ensure_dir_frame d σ) as Hframe.
  unfold ensure_dir, bind, os_path_exists, os_makedirs in *.
  destruct (exists_at σ d) eqn:E; simpl in *.
  - exists σ. split_and!; [done| |done].
    destruct d as [|c d]; [done|]. unfold exists_at in E. unfold is_dir.
    apply bool_decide_eq_true in E as [[content|] E]; rewrite E; [|done].
    by destruct (dir_available_prefix σ (c :: d) (c :: d) content Hav).
  - rewrite E in *. destruct (makedirs_go_ok [] d σ) as (σ0 & Hgo & Hdir).
    { intros pre c. by apply dir_available_prefix. }
    rewrite Hgo in *. exists σ0. split_and!; [done| |done].
    destruct d as [|c d]; [done|]. unfold is_dir.
    specialize (Hdir ltac:(done)). simpl in Hdir. by rewrite Hdir.
Qed.

(** If the directory is there, [ensure_dir] does nothing. *)
Lemma ensure_dir_present (d : path) (σ : gmap path node) :
  is_dir σ d = true → ensure_dir d σ = (inr tt, σ).
Proof.
  intros Hd. unfold ensure_dir, bind, os_path_exists.
  assert (exists_at σ d = true) as ->; [|done].
  destruct d as [|c d]; [done|]. unfold is_dir in Hd. unfold exists_at.
  apply bool_decide_eq_true. destruct (σ !! (c :: d)) as [[|]|]; naive_solver.
Qed.

Lemma read_file_state (p : path) (σ : gmap path node) : (read_file p σ).2 = σ.
Proof. unfold read_file. destruct p; [done|]. by destruct (σ !! _) as [[|]|]. Qed.

Lemma read_file_ok (p : path) (σ : gmap path node) (content : string) :
  σ !! p = Some (File content) → p ≠ [] → read_file p σ = (inr content, σ).
Proof. intros E Hp. unfold read_file. destruct p; [done|]. by rewrite E. Qed.

Lemma read_file_inv (p : path) (σ : gmap path node) (content : string) :
  (read_file p σ).1 = inr content → σ !! p = Some (File content) ∧ p ≠ [].
Proof.
  unfold read_file. destruct p as [|c p]; [done|].
  destruct (σ !! (c :: p)) as [[content'|]|]; simpl; [|done..].
  by intros [= ->].
Qed.

Lemma write_file_ok (d : path) (name content : string) (σ : gmap path node) :
  is_dir σ d = true → σ !! (d ++ [name]) ≠ Some Dir →
  write_file (os_path_join d name) content σ
  = (inr tt, <[d ++ [name] := File content]> σ).
Proof.
  intros Hd Hn. unfold write_file, os_path_join, parent.
  rewrite removelast_last, Hd.
  destruct (d ++ [name]) as [|c p] eqn:E; [by destruct d|].
  by destruct (σ !! (c :: p)) as [[|]|].
Qed.

(** Whatever its outcome, [write_file] changes at most the file it is
    asked to write. *)
Lemma write_file_frame (p : path) (content : string) (σ : gmap path node) (q : path) :
  q ≠ p → (write_file p content σ).2 !! q = σ !! q.
Proof.
  intros Hq. unfold write_file. destruct p as [|c p]; [done|].
  destruct (is_dir σ (parent (c :: p))); [|done].
  destruct (σ !! (c :: p)) as [[|]|]; simpl; by rewrite ?lookup_insert_ne.
Qed.

Lemma entry_name_Some (d p : path) (name : string) :
  entry_name d p = Some name ↔ p = d ++ [name].
Proof.
  revert p. induction d as [|c d IH]; intros p; simpl.
  - destruct p as [|x [|y p]]; split; intros; simplify_eq; done.
  - destruct p as [|x p]; [split; intros; simplify_eq|].
    destruct (decide (c = x)) as [->|Hne].
    + rewrite IH. split; intros; simplify_eq; done.
    + split; intros; simplify_eq.
Qed.

(** The entries of a directory, as [os.listdir] returns them. *)
Lemma elem_of_entries (d : path) (σ : gmap path node) (name : string) :
  name ∈ entries σ d ↔ is_Some (σ !! (d ++ [name])).
Proof.
  unfold entries. rewrite list_elem_of_omap. split.
  - intros (p & Hp & ->%entry_name_Some).
    by apply elem_of_elements, elem_of_dom in Hp.
  - intros Hs. exists (d ++ [name]). split.
    + by apply elem_of_elements, elem_of_dom.
    + by apply entry_name_Some.
Qed.

Lemma NoDup_entries (d : path) (σ : gmap path node) : NoDup (entries σ d).
Proof.
  unfold entries. pose proof (NoDup_elements (dom σ)) as Hnd.
  induction (elements (dom σ)) as [|p l IH]; [constructor|].
  apply NoDup_cons in Hnd as [Hp Hl]. simpl.
  destruct (entry_name d p) as [name|] eqn:E; [|by apply IH].
  constructor; [|by apply IH].
  rewrite list_elem_of_omap. intros (q & Hq & Eq).
  apply entry_name_Some in E, Eq. congruence.
Qed.

Lemma os_listdir_ok (d : path) (σ : gmap path node) :
  is_dir σ d = true →
  os_listdir d σ = (inr (entries σ d), σ).
Proof. intros Hd. unfold os_listdir. by rewrite Hd. Qed.

Lemma os_listdir_state (d : path) (σ : gmap path node) : (os_listdir d σ).2 = σ.
Proof.
  unfold os_listdir. destruct (is_dir σ d); [done|].
  destruct d; [done|]. by destruct (σ !! _).
Qed.
End ensure_dir_facts.

(** * Facts about the page file names *)

Section page_name_facts.
Import OS Splitter.

(** The decimal text of a positive number does not start with a zero. *)
Lemma pretty_N_go_head (x : N) (s : string) :
  (0 < x)%N → ∃ c rest, pretty_N_go x s = String c rest ∧ c ≠ "0"%char.
Proof.
  revert s. induction (N.lt_wf_0 x) as [x _ IH]. intros s Hx.
  rewrite pretty_N_go_step by done.
  destruct (decide (x `div` 10 = 0)%N) as [E|E].
  - rewrite E, pretty_N_go_0. eexists _, _. split; [done|].
    assert (x < 10)%N by (by apply N.div_small_iff in E).
    assert (x `mod` 10 = x)%N as -> by (by apply N.mod_small).
    assert (x = 1 ∨ x = 2 ∨ x = 3 ∨ x = 4 ∨ x = 5 ∨ x = 6
            ∨ x = 7 ∨ x = 8 ∨ x = 9)%N as Hcases by lia.
    repeat (destruct Hcases as [->|Hcases]; [done|]). by subst.
  - apply IH; [by apply N.div_lt|by apply N.neq_0_lt_0].
Qed.

Lemma pretty_nat_head (n : nat) :
  (0 < n)%nat → ∃ c rest, pretty n = String c rest ∧ c ≠ "0"%char.
Proof.
  intros Hn. unfold pretty, pretty_nat, pretty, pretty_N.
  rewrite decide_False by lia. apply pretty_N_go_head. lia.
Qed.

Lemma zeros_S (k : nat) : zeros (S k) = String "0" (zeros k).
Proof.
  unfold zeros. simpl. destruct (replicate k "0") eqn:E; [|done].
  by destruct k.
Qed.

Lemma zeros_app_inj (k1 k2 : nat) (s1 s2 : string) (c1 c2 : ascii) (r1 r2 : string) :
  s1 = String c1 r1 → c1 ≠ "0"%char → s2 = String c2 r2 → c2 ≠ "0"%char →
  zeros k1 +:+ s1 = zeros k2 +:+ s2 → s1 = s2.
Proof.
  intros -> H1 -> H2. revert k2.
  induction k1 as [|k1 IH]; intros [|k2]; rewrite ?zeros_S; simpl; intros E.
  - done.
  - by injection E as -> _.
  - by injection E as <- _.
  - injection E as E. by apply (IH k2).
Qed.

Lemma format_03d_inj (n1 n2 : nat) :
  (0 < n1)%nat → (0 < n2)%nat → format_03d n1 = format_03d n2 → n1 = n2.
Proof.
  intros H1 H2 E. unfold format_03d in E.
  destruct (pretty_nat_head n1 H1) as (c1 & r1 & E1 & Hc1).
  destruct (pretty_nat_head n2 H2) as (c2 & r2 & E2 & Hc2).
  apply (inj pretty). eapply zeros_app_inj; eauto.
Qed.

Lemma string_app_length (a b : string) :
  String.length (a +:+ b) = (String.length a + String.length b)%nat.
Proof. induction a as [|x a IH]; [done|]. simpl. by rewrite <-IH. Qed.

Lemma string_app_inj_r (a b c : string) : a +:+ c = b +:+ c → a = b.
Proof.
  intros E.
  assert (String.length a = String.length b) as Hlen.
  { apply (f_equal String.length) in E. rewrite !string_app_length in E. lia. }
  revert b Hlen E. induction a as [|x a IH]; intros [|y b] Hlen E;
    simpl in Hlen; try discriminate; [done|].
  injection E as -> E. f_equal. apply IH; [lia|done].
Qed.

Lemma page_filename_inj (i j : nat) : page_filename i = page_filename j → i = j.
Proof.
  unfold page_filename. intros E. apply (inj (String.app "page_")) in E.
  apply string_app_inj_r, format_03d_inj in E; lia.
Qed.

(** Up to page 999 the number takes exactly three characters. *)
Lemma format_03d_length (n : nat) :
  (n ≤ 999)%nat → String.length (format_03d n) = 3%nat.
Proof.
  intros Hn.
  assert (forallb (λ n, Nat.eqb (String.length (format_03d n)) 3) (seq 0 1000) = true)
    as Hall by (vm_compute; reflexivity).
  rewrite forallb_forall in Hall.
  apply Nat.eqb_eq, Hall, in_seq. lia.
Qed.
End page_name_facts.

(** * Facts about [split_pdf] *)

Section split_facts.
Import OS Splitter.
Context `{PyPDF2}.

Lemma bind_inr {A B} (m : M A) (k : A → M B) (σ σ' : gmap path node) (a : A) :
  m σ = (inr a, σ') → bind m k σ = k a σ'.
Proof. intros E. unfold bind. by rewrite E. Qed.

Lemma bind_inl {A B} (m : M A) (k : A → M B) (σ σ' : gmap path node) (e : PyError) :
  m σ = (inl e, σ') → bind m k σ = (inl e, σ').
Proof. intros E. unfold bind. by rewrite E. Qed.

Lemma read_pdf_state (p : path) (σ : gmap path node) : (read_pdf p σ).2 = σ.
Proof.
  unfold read_pdf, bind. pose proof (read_file_state p σ) as Hs.
  destruct (read_file p σ) as [[e|data] σ']; simpl in *; [done|].
  by destruct (PdfReader data).
Qed.

Lemma read_pdf_ok (p : path) (σ : gmap path node) (data : string) (pages : list Page) :
  σ !! p = Some (File data) → p ≠ [] → PdfReader data = Some pages →
  read_pdf p σ = (inr pages, σ).
Proof.
  intros E Hp Hr. unfold read_pdf.
  rewrite (bind_inr _ _ σ σ data) by (by apply read_file_ok). by rewrite Hr.
Qed.

Lemma read_pdf_inv (p : path) (σ : gmap path node) (pages : list Page) :
  (read_pdf p σ).1 = inr pages →
  ∃ data, σ !! p = Some (File data) ∧ p ≠ [] ∧ PdfReader data = Some pages.
Proof.
  unfold read_pdf, bind. pose proof (read_file_inv p σ) as Hinv.
  destruct (read_file p σ) as [[e|data] σ']; simpl in *; [done|].
  destruct (Hinv data eq_refl) as [E Hp].
  destruct (PdfReader data) as [pages'|] eqn:Hr; simpl; [|done].
  intros [= ->]. by exists data.
Qed.

(** The errors of reading the source: the file is missing, lies below a
    regular file, is a directory, or is rejected by the reader. *)
Lemma read_pdf_error (p : path) (σ : gmap path node) (e : PyError) :
  (read_pdf p σ).1 = inl e →
  e = FileNotFoundError ∨ e = NotADirectoryError
  ∨ e = IsADirectoryError ∨ e = PdfReadError.
Proof.
  unfold read_pdf, bind, read_file, missing_error.
  destruct p as [|c p]; simpl; [intros [= <-]; auto|].
  destruct (σ !! (c :: p)) as [[data|]|]; simpl.
  - destruct (PdfReader data); simpl; [done|]. intros [= <-]; auto.
  - intros [= <-]; auto.
  - destruct (below_file σ (c :: p)); intros [= <-]; auto.
Qed.

(** Which error it is, read off the file system. *)
Lemma read_pdf_error_cases (p : path) (σ : gmap path node) (e : PyError) :
  p ≠ [] → (read_pdf p σ).1 = inl e →
  match σ !! p with
  | None => e = if below_file σ p then NotADirectoryError else FileNotFoundError
  | Some Dir => e = IsADirectoryError
  | Some (File data) => e = PdfReadError ∧ PdfReader data = None
  end.
Proof.
  intros Hp. unfold read_pdf, bind, read_file, missing_error.
  destruct p as [|c p]; [done|].
  destruct (σ !! (c :: p)) as [[data|]|]; simpl.
  - destruct (PdfReader data); simpl; [done|]. by intros [= <-].
  - by intros [= <-].
  - by intros [= <-].
Qed.

Lemma page_path_inj (out : path) (i j : nat) : page_path out i = page_path out j → i = j.
Proof.
  unfold page_path, os_path_join. intros E.
  apply app_inj_1 in E as [_ E]; [|done].
  apply page_filename_inj. congruence.
Qed.

Lemma page_path_ne_dir (out : path) (i : nat) : page_path out i ≠ out.
Proof.
  unfold page_path, os_path_join. intros E.
  apply (f_equal length) in E. rewrite length_app in E. simpl in E. lia.
Qed.

Lemma page_path_not_prefix (out : path) (i : nat) : ¬ page_path out i `prefix_of` out.
Proof.
  intros Hp%prefix_length. unfold page_path, os_path_join in Hp.
  rewrite length_app in Hp. simpl in Hp. lia.
Qed.

Lemma is_dir_insert_file (σ : gmap path node) (d p : path) (content : string) :
  p ≠ d → is_dir (<[p := File content]> σ) d = is_dir σ d.
Proof. intros Hp. unfold is_dir. destruct d; [done|]. by rewrite lookup_insert_ne. Qed.

Lemma split_page_frame (pages : list Page) (out : path) (i : nat)
    (σ : gmap path node) (p : path) :
  p ≠ page_path out i → (split_page pages out i σ).2 !! p = σ !! p.
Proof.
  intros Hp. unfold split_page, bind, from_option.
  destruct (pages !! i) as [page|]; simpl; [|done].
  pose proof (write_file_frame (os_path_join out (page_filename i))
                (PdfWriter_write [page]) σ p Hp) as Hw.
  by destruct (write_file _ _ σ) as [[e|[]] σ'].
Qed.

Lemma split_page_ok (pages : list Page) (out : path) (i : nat)
    (σ : gmap path node) (page : Page) :
  pages !! i = Some page → is_dir σ out = true →
  σ !! page_path out i ≠ Some Dir →
  split_page pages out i σ
  = (inr tt, <[page_path out i := File (PdfWriter_write [page])]> σ).
Proof.
  intros Hi Hd Hn. unfold split_page, bind, from_option. rewrite Hi. simpl.
  by rewrite write_file_ok.
Qed.

(** Whatever its outcome, the page loop touches page files only. *)
Lemma split_loop_frame (pages : list Page) (out : path) (indices : list nat)
    (σ : gmap path node) (p : path) :
  (∀ i, p ≠ page_path out i) →
  (for_each indices (split_page pages out) σ).2 !! p = σ !! p.
Proof.
  intros Hp. revert σ. induction indices as [|i l IH]; intros σ; simpl; [done|].
  unfold bind. pose proof (split_page_frame pages out i σ p (Hp i)) as Hf.
  destruct (split_page pages out i σ) as [[e|[]] σ1]; simpl in *; [done|].
  by rewrite IH.
Qed.

Lemma split_loop_ok (pages : list Page) (out : path) (indices : list nat)
    (σ : gmap path node) :
  (∀ i, i ∈ indices → (i < length pages)%nat) →
  is_dir σ out = true →
  (∀ i, i ∈ indices → σ !! page_path out i ≠ Some Dir) →
  ∃ σ', for_each indices (split_page pages out) σ = (inr tt, σ')
        ∧ (∀ i page, i ∈ indices → pages !! i = Some page →
             σ' !! page_path out i = Some (File (PdfWriter_write [page])))
        ∧ (∀ p, (∀ i, i ∈ indices → p ≠ page_path out i) → σ' !! p = σ !! p)
        ∧ is_dir σ' out = true.
Proof.
  revert σ. induction indices as [|i l IH]; intros σ Hlt Hd Hn; simpl.
  - exists σ. split_and!; [done| |done|done]. intros i page Hi. by apply elem_of_nil in Hi.
  - destruct (lookup_lt_is_Some_2 pages i) as [page Hpage];
      [apply Hlt; by left|].
    rewrite (bind_inr _ _ σ _ tt (split_page_ok pages out i σ page Hpage Hd
                                    (Hn i ltac:(by left)))).
    set (σ1 := <[page_path out i := File (PdfWriter_write [page])]> σ).
    destruct (IH σ1) as (σ' & Hrun & Hwritten & Hframe & Hd').
    { intros j Hj. apply Hlt. by right. }
    { unfold σ1. rewrite is_dir_insert_file; [done|apply page_path_ne_dir]. }
    { intros j Hj. unfold σ1.
      destruct (decide (page_path out j = page_path out i)) as [->|Hne].
      - by rewrite lookup_insert_eq.
      - rewrite lookup_insert_ne by done. apply Hn. by right. }
    exists σ'. split_and!; [done| | |done].
    + intros j page' Hj Hpage'.
      destruct (decide (j ∈ l)) as [Hjl|Hjl]; [by apply Hwritten|].
      apply elem_of_cons in Hj as [->|Hj]; [|done].
      rewrite Hframe.
      * unfold σ1. rewrite lookup_insert_eq. congruence.
      * intros k Hk E. apply page_path_inj in E. congruence.
    + intros p Hp. rewrite Hframe.
      * unfold σ1. rewrite lookup_insert_ne; [done|]. intros E. apply (Hp i); [by left|done].
      * intros k Hk. apply Hp. by right.
Qed.
End split_facts.

Section split_pdf_facts.
Import OS Splitter.
Context `{PyPDF2}.

(** A run of [split_pdf] on a readable source, with an output directory
    that is there or can be created and in which no directory has the name
    of a page file. *)
Lemma split_pdf_ok (σ : gmap path node) (input_path output_dir : path)
    (data : string) (pages : list Page) :
  dir_available σ output_dir = true →
  σ !! input_path = Some (File data) → input_path ≠ [] →
  PdfReader data = Some pages →
  (∀ i, (i < length pages)%nat → σ !! page_path output_dir i ≠ Some Dir) →
  ∃ σ0 σ',
    ensure_dir output_dir σ = (inr tt, σ0)
    ∧ only_dirs_added output_dir σ σ0
    ∧ split_pdf input_path output_dir σ
      = (inr (pdf_names (sort_names (entries σ' output_dir))), σ')
    ∧ is_dir σ' output_dir = true
    ∧ (∀ i page, pages !! i = Some page →
         σ' !! page_path output_dir i = Some (File (PdfWriter_write [page])))
    ∧ (∀ p, (∀ i, (i < length pages)%nat → p ≠ page_path output_dir i) →
         σ' !! p = σ0 !! p).
Proof.
  intros Hav Hsrc Hne Hread Hnodir.
  destruct (ensure_dir_available output_dir σ Hav) as (σ0 & Hens & Hd0 & Hadd).
  destruct (split_loop_ok pages output_dir (seq 0 (length pages)) σ0)
    as (σ' & Hloop & Hwritten & Hframe & Hd').
  { intros i Hi%elem_of_seq. lia. }
  { done. }
  { intros i Hi%elem_of_seq Hdir.
    rewrite (only_dirs_added_other output_dir σ σ0) in Hdir;
      [by apply (Hnodir i); [lia|]|done|apply page_path_not_prefix]. }
  exists σ0, σ'. split_and!; [done|done| |done| |].
  - unfold split_pdf.
    rewrite (bind_inr _ _ σ σ0 tt Hens).
    rewrite (bind_inr _ _ σ0 σ0 pages)
      by (apply (read_pdf_ok _ _ data); [by eapply only_dirs_added_file|done..]).
    rewrite (bind_inr _ _ σ0 σ' tt Hloop).
    by rewrite (bind_inr _ _ σ' σ' _ (os_listdir_ok _ _ Hd')).
  - intros i page Hi. apply Hwritten; [|done].
    apply elem_of_seq. apply lookup_lt_Some in Hi. lia.
  - intros p Hp. apply Hframe. intros i Hi%elem_of_seq. apply Hp. lia.
Qed.
End split_pdf_facts.

Section split_pdf_frame_facts.
Import OS Splitter.
Context `{PyPDF2}.

(** Whatever its outcome, a run of [split_pdf] creates directories on the
    way to the output directory and writes page files, nothing else. *)
Lemma split_pdf_frame (σ : gmap path node) (input_path output_dir p : path) :
  (∀ i, p ≠ page_path output_dir i) →
  only_dirs_added output_dir σ (ensure_dir output_dir σ).2
  ∧ (split_pdf input_path output_dir σ).2 !! p = (ensure_dir output_dir σ).2 !! p.
Proof.
  intros Hp. split; [apply ensure_dir_frame|].
  unfold split_pdf, bind.
  destruct (ensure_dir output_dir σ) as [[e|[]] σ0]; simpl; [done|].
  pose proof (read_pdf_state input_path σ0) as Hr.
  destruct (read_pdf input_path σ0) as [[e|pages] σ0']; simpl in *; subst σ0'; [done|].
  pose proof (split_loop_frame pages output_dir (seq 0 (length pages)) σ0 p Hp) as Hl.
  destruct (for_each _ _ σ0) as [[e|[]] σ1]; simpl in *; [done|].
  pose proof (os_listdir_state output_dir σ1) as Hls.
  destruct (os_listdir output_dir σ1) as [[e|names] σ1']; simpl in *; by subst σ1'.
Qed.

(** A source that cannot be read: the run stops with the error of the
    read, after the output directory was looked after. *)
Lemma split_pdf_unreadable (σ σ0 : gmap path node) (input_path output_dir : path) :
  (∀ data pages, σ !! input_path = Some (File data) → PdfReader data ≠ Some pages) →
  ensure_dir output_dir σ = (inr tt, σ0) →
  ∃ e, split_pdf input_path output_dir σ = (inl e, σ0)
       ∧ read_pdf input_path σ0 = (inl e, σ0).
Proof.
  intros Hbad Hens.
  pose proof (ensure_dir_frame output_dir σ) as Hadd. rewrite Hens in Hadd. simpl in Hadd.
  pose proof (read_pdf_state input_path σ0) as Hst.
  destruct (read_pdf input_path σ0) as [[e|pages] σ0'] eqn:Hr; simpl in Hst; subst σ0'.
  - exists e. split; [|done]. unfold split_pdf.
    rewrite (bind_inr _ _ σ σ0 tt Hens). by rewrite (bind_inl _ _ σ0 σ0 e Hr).
  - destruct (read_pdf_inv input_path σ0 pages) as (data & Hd & _ & Hp);
      [by rewrite Hr|].
    destruct (Hbad data pages); [|done].
    by eapply only_dirs_added_file_inv.
Qed.
End split_pdf_frame_facts.

(** * The claims about [split_pdf] *)

Section split_claims.
Import OS Splitter.
Context `{PyPDF2}.

(** C3: for a readable source of [N <= 999] pages the splitter creates the
    output directory if it is absent and writes exactly [N] single-page
    files, named [page_001] to [page_N] with three digits, the file of
    index [i] holding page [i] and nothing else; with no page, no file is
    written and the directory exists all the same.  The source is a
    document of its own, not one of the page files that the run writes:
    the reader keeps it open while the pages are written. *)
Theorem split_one_file_per_page (σ : gmap path node) (input_path output_dir : path)
    (data : string) (pages : list Page) :
  σ !! input_path = Some (File data) → input_path ≠ [] →
  PdfReader data = Some pages →
  (length pages ≤ 999)%nat →
  dir_available σ output_dir = true →
  (∀ i, (i < length pages)%nat → σ !! page_path output_dir i ≠ Some Dir) →
  (∀ i, (i < length pages)%nat → input_path ≠ page_path output_dir i) →
  ∃ listing σ',
    split_pdf input_path output_dir σ = (inr listing, σ')
    ∧ is_dir σ' output_dir = true
    ∧ (∀ i page, pages !! i = Some page →
         σ' !! (output_dir ++ ["page_" +:+ format_03d (i + 1) +:+ ".pdf"])
         = Some (File (PdfWriter_write [page]))
         ∧ String.length (format_03d (i + 1)) = 3%nat)
    ∧ NoDup (page_path output_dir <$> seq 0 (length pages))
    ∧ (∀ p, p ∉ page_path output_dir <$> seq 0 (length pages) →
         σ' !! p = σ !! p ∨ (σ !! p = None ∧ σ' !! p = Some Dir))
    ∧ (pages = [] → ∀ p content,
         σ' !! p = Some (File content) → σ !! p = Some (File content)).
Proof.
  intros Hsrc Hne Hread Hmax Hav Hnodir _.
  destruct (split_pdf_ok σ input_path output_dir data pages)
    as (σ0 & σ' & Hens & Hadd & Hrun & Hd & Hwritten & Hframe); [done..|].
  assert (∀ p, p ∉ page_path output_dir <$> seq 0 (length pages) →
            σ' !! p = σ !! p ∨ (σ !! p = None ∧ σ' !! p = Some Dir)) as Hother.
  { intros p Hp. rewrite Hframe.
    - destruct (Hadd p) as [E|(E1 & E2 & _)]; auto.
    - intros i Hi ->. apply Hp, list_elem_of_fmap. exists i. split; [done|].
      apply elem_of_seq. lia. }
  eexists _, σ'. split_and!; [done|done| |  |done|].
  - intros i page Hi. split; [by apply Hwritten|].
    apply format_03d_length. apply lookup_lt_Some in Hi. lia.
  - apply NoDup_fmap_2; [|apply NoDup_seq]. intros i j. apply page_path_inj.
  - intros -> p content Hp.
    destruct (Hother p) as [E|[_ E]]; [apply not_elem_of_nil|congruence..].
Qed.

(** C5: a second run on the same source, into the output directory that
    the first run left, writes the same page files byte for byte (and
    leaves the file system as the first run left it). *)
Theorem split_twice_same_files (σ : gmap path node)
    (input_path output_dir : path) (data : string) (pages : list Page) :
  σ !! input_path = Some (File data) → input_path ≠ [] →
  PdfReader data = Some pages →
  dir_available σ output_dir = true →
  (∀ i, (i < length pages)%nat → σ !! page_path output_dir i ≠ Some Dir) →
  (∀ i, (i < length pages)%nat → input_path ≠ page_path output_dir i) →
  ∃ listing1 σ1 listing2 σ2,
    split_pdf input_path output_dir σ = (inr listing1, σ1)
    ∧ split_pdf input_path output_dir σ1 = (inr listing2, σ2)
    ∧ (∀ i page, pages !! i = Some page →
         σ1 !! page_path output_dir i = Some (File (PdfWriter_write [page]))
         ∧ σ2 !! page_path output_dir i = σ1 !! page_path output_dir i)
    ∧ σ2 = σ1.
Proof.
  intros Hsrc Hne Hread Hav Hnodir Halias.
  destruct (split_pdf_ok σ input_path output_dir data pages)
    as (σ0 & σ1 & Hens & Hadd & Hrun & Hd & Hwritten & Hframe); [done..|].
  assert (σ1 !! input_path = Some (File data)) as Hsrc1.
  { rewrite Hframe by done. by eapply only_dirs_added_file. }
  assert (∀ i, (i < length pages)%nat → σ1 !! page_path output_dir i ≠ Some Dir) as Hnodir1.
  { intros i Hi. destruct (lookup_lt_is_Some_2 pages i Hi) as [page Hpage].
    by rewrite (Hwritten i page Hpage). }
  assert (dir_available σ1 output_dir = true) as Hav1.
  { unfold dir_available. apply forallb_forall. intros k _.
    unfold is_file. rewrite Hframe.
    - destruct (Hadd (take k output_dir)) as [->|(_ & -> & _)]; [|done].
      destruct (σ !! take k output_dir) as [[c|]|] eqn:E; [|done..].
      by destruct (dir_available_prefix σ output_dir (take k output_dir) c Hav
                     (prefix_take output_dir k)).
    - intros i _ E.
      apply (page_path_not_prefix output_dir i). rewrite <-E. apply prefix_take. }
  destruct (split_pdf_ok σ1 input_path output_dir data pages)
    as (σ10 & σ2 & Hens2 & Hadd2 & Hrun2 & Hd2 & Hwritten2 & Hframe2); [done..|].
  rewrite ensure_dir_present in Hens2 by done. injection Hens2 as <-.
  eexists _, σ1, _, σ2. split_and!; [done|done| |].
  - intros i page Hi. split; [by apply Hwritten|].
    by rewrite (Hwritten i page Hi), (Hwritten2 i page Hi).
  - apply map_eq. intros p.
    destruct (decide (p ∈ page_path output_dir <$> seq 0 (length pages)))
      as [(i & -> & Hi%elem_of_seq)%list_elem_of_fmap|Hnot].
    + destruct (lookup_lt_is_Some_2 pages i) as [page Hpage]; [lia|].
      by rewrite (Hwritten i page Hpage), (Hwritten2 i page Hpage).
    + apply Hframe2. intros i Hi ->. apply Hnot, list_elem_of_fmap.
      exists i. split; [done|]. apply elem_of_seq. lia.
Qed.

(** C8: when the source is missing or is not a readable document, the run
    stops with the error of the read ([FileNotFoundError] for a missing
    file, [NotADirectoryError] for a path below a regular file,
    [IsADirectoryError] for a directory, the reader's error for a file it
    rejects); nothing is retried or cleaned up: the output directory stays
    as it was put in place, and no page file is written. *)
Theorem split_unreadable_source (σ : gmap path node)
    (input_path output_dir : path) :
  (∀ data pages, σ !! input_path = Some (File data) → PdfReader data ≠ Some pages) →
  (ensure_dir output_dir σ).1 = inr tt →
  let σ0 := (ensure_dir output_dir σ).2 in
  ∃ e, split_pdf input_path output_dir σ = (inl e, σ0)
       ∧ read_pdf input_path σ0 = (inl e, σ0)
       ∧ (e = FileNotFoundError ∨ e = NotADirectoryError
          ∨ e = IsADirectoryError ∨ e = PdfReadError)
       ∧ (input_path ≠ [] →
          match σ0 !! input_path with
          | None => e = if below_file σ0 input_path
                        then NotADirectoryError else FileNotFoundError
          | Some Dir => e = IsADirectoryError
          | Some (File data) => e = PdfReadError ∧ PdfReader data = None
          end)
       ∧ (∀ p content, σ0 !! p = Some (File content) ↔ σ !! p = Some (File content)).
Proof.
  intros Hbad Hens σ0.
  assert (ensure_dir output_dir σ = (inr tt, σ0)) as Hens'.
  { unfold σ0. destruct (ensure_dir output_dir σ) as [r σ']. simpl in *. by subst r. }
  destruct (split_pdf_unreadable σ σ0 input_path output_dir Hbad Hens') as (e & Hrun & Hr).
  exists e. split_and!; [done|done| | |].
  - apply (read_pdf_error input_path σ0). by rewrite Hr.
  - intros Hne. apply read_pdf_error_cases; [done|]. by rewrite Hr.
  - pose proof (ensure_dir_frame output_dir σ) as Hadd. fold σ0 in Hadd.
    intros p content. split.
    + by apply (only_dirs_added_file_inv output_dir).
    + by apply (only_dirs_added_file output_dir).
Qed.

(** C10, amended: in every run whose source is not stored under the name
    of a page file of the output directory, the source keeps its bytes,
    and outside the page files the run changes nothing but the directories
    it creates on the way to the output directory. *)
Theorem split_source_untouched (σ : gmap path node) (input_path output_dir : path) :
  (∀ i, input_path ≠ page_path output_dir i) →
  (∀ content, σ !! input_path = Some (File content) →
     (split_pdf input_path output_dir σ).2 !! input_path = Some (File content))
  ∧ (∀ p, (∀ i, p ≠ page_path output_dir i) →
       (split_pdf input_path output_dir σ).2 !! p = σ !! p
       ∨ (σ !! p = None
          ∧ (split_pdf input_path output_dir σ).2 !! p = Some Dir
          ∧ p `prefix_of` output_dir)).
Proof.
  intros Halias. split.
  - intros content Hsrc.
    destruct (split_pdf_frame σ input_path output_dir input_path Halias) as [Hadd ->].
    by eapply only_dirs_added_file.
  - intros p Hp.
    destruct (split_pdf_frame σ input_path output_dir p Hp) as [Hadd ->].
    apply Hadd.
Qed.
End split_claims.

Section split_examples.
Import OS Splitter Example.

Lemma split_one_file_per_page_witness :
  ∃ listing σ',
    split_pdf (H := example_library)
      ["large_ai_research_document.pdf"] ["pdf_pages"] three_pages
    = (inr listing, σ')
    ∧ σ' !! ["pdf_pages"; "page_002.pdf"] = Some (File "%PDF:b").
Proof.
  destruct (split_one_file_per_page (H := example_library) three_pages
              ["large_ai_research_document.pdf"] ["pdf_pages"] "%PDF:abc"
              ["a"; "b"; "c"]%char)
    as (listing & σ' & Hrun & _ & Hfiles & _).
  - vm_compute. reflexivity.
  - discriminate.
  - vm_compute. reflexivity.
  - simpl. lia.
  - vm_compute. reflexivity.
  - intros i Hi. destruct i as [|[|[|i]]]; [vm_compute; discriminate..|simpl in Hi; lia].
  - intros i _. discriminate.
  - exists listing, σ'. split; [exact Hrun|].
    exact (proj1 (Hfiles 1%nat "b"%char eq_refl)).
Defined.

Lemma split_twice_same_files_witness :
  ∃ listing1 σ1 listing2 σ2,
    split_pdf (H := example_library)
      ["large_ai_research_document.pdf"] ["pdf_pages"] three_pages
    = (inr listing1, σ1)
    ∧ split_pdf (H := example_library)
        ["large_ai_research_document.pdf"] ["pdf_pages"] σ1
      = (inr listing2, σ2)
    ∧ σ2 = σ1.
Proof.
  destruct (split_twice_same_files (H := example_library) three_pages
              ["large_ai_research_document.pdf"] ["pdf_pages"] "%PDF:abc"
              ["a"; "b"; "c"]%char)
    as (listing1 & σ1 & listing2 & σ2 & Hrun1 & Hrun2 & _ & Heq).
  - vm_compute. reflexivity.
  - discriminate.
  - vm_compute. reflexivity.
  - vm_compute. reflexivity.
  - intros i Hi. destruct i as [|[|[|i]]]; [vm_compute; discriminate..|simpl in Hi; lia].
  - intros i _. discriminate.
  - exists listing1, σ1, listing2, σ2. split; [exact Hrun1|]. split; [exact Hrun2|exact Heq].
Defined.

Lemma split_unreadable_source_witness :
  ∃ e σ0, split_pdf (H := example_library) ["missing.pdf"] ["pdf_pages"] three_pages
          = (inl e, σ0).
Proof.
  destruct (split_unreadable_source (H := example_library) three_pages
              ["missing.pdf"] ["pdf_pages"])
    as (e & Hrun & _).
  - intros data pages Hsrc. vm_compute in Hsrc. discriminate Hsrc.
  - vm_compute. reflexivity.
  - exists e, (ensure_dir ["pdf_pages"] three_pages).2. exact Hrun.
Defined.

(** C10, as the claim states it, fails: when the source is stored under
    the name of the first page file, the run overwrites it with its first
    page. *)
Lemma split_source_overwritten_counterexample :
  source_among_pages !! ["pdf_pages"; "page_001.pdf"] = Some (File "%PDF:ab")
  ∧ (split_pdf (H := example_library)
       ["pdf_pages"; "page_001.pdf"] ["pdf_pages"] source_among_pages).2
      !! ["pdf_pages"; "page_001.pdf"] = Some (File "%PDF:a").
Proof. split; vm_compute; reflexivity. Qed.

Lemma split_source_untouched_witness :
  (split_pdf (H := example_library)
     ["large_ai_research_document.pdf"] ["pdf_pages"] three_pages).2
    !! ["large_ai_research_document.pdf"] = Some (File "%PDF:abc").
Proof.
  apply (split_source_untouched (H := example_library) three_pages
           ["large_ai_research_document.pdf"] ["pdf_pages"]).
  - intros i. discriminate.
  - vm_compute. reflexivity.
Defined.
End split_examples.

(** * Facts about [extract_text_from_pages] *)

Section text_name_facts.
Import OS Splitter.

Lemma startswith_pdf_app (c1 : ascii) (s : string) :
  Py.startswith ".pdf" (String c1 s) = false →
  Py.startswith ".pdf" (String c1 s +:+ ".pdf") = false.
Proof.
  destruct s as [|c2 [|c3 [|c4 s]]]; simpl; try done;
    repeat (match goal with
            | |- context [Ascii.eqb ?a ?b] => destruct (Ascii.eqb a b)
            end; try done).
Qed.

(** When [.pdf] occurs only at the end of the name, [replace] changes the
    extension and nothing else. *)
Lemma replace_extension (stem : string) :
  Py.contains ".pdf" stem = false →
  Py.replace ".pdf" ".txt" (stem +:+ ".pdf") = stem +:+ ".txt".
Proof.
  unfold Py.replace. induction stem as [|c stem IH]; [done|].
  intros Hc. cbn [Py.contains] in Hc. apply orb_false_iff in Hc as [Hs Hc].
  change (String c stem +:+ ".pdf") with (String c (stem +:+ ".pdf")).
  cbn [Py.replace_go].
  change (String c (stem +:+ ".pdf")) with (String c stem +:+ ".pdf").
  rewrite (startswith_pdf_app _ _ Hs).
  change (String c stem +:+ ".txt") with (String c (stem +:+ ".txt")).
  f_equal. by apply IH.
Qed.

Lemma plain_page_name_eq (f : string) :
  plain_page_name f = true →
  f = base_name f +:+ ".pdf" ∧ Py.contains ".pdf" (base_name f) = false.
Proof.
  unfold plain_page_name. intros [Hf Hc]%andb_true_iff.
  apply String.eqb_eq in Hf. by apply negb_true_iff in Hc.
Qed.

Lemma plain_page_name_replace (f : string) :
  plain_page_name f = true →
  Py.replace ".pdf" ".txt" f = base_name f +:+ ".txt".
Proof.
  intros [Hf Hc]%plain_page_name_eq. rewrite Hf at 1. by apply replace_extension.
Qed.

Lemma base_name_inj (f g : string) :
  plain_page_name f = true → plain_page_name g = true →
  base_name f = base_name g → f = g.
Proof. intros [Hf _]%plain_page_name_eq [Hg _]%plain_page_name_eq E. congruence. Qed.

(** A text file never takes the place of a page file. *)
Lemma text_name_not_page (f g : string) :
  plain_page_name g = true → base_name f +:+ ".txt" ≠ g.
Proof.
  intros [Hg _]%plain_page_name_eq E. rewrite Hg in E.
  apply (f_equal Py.last_char) in E. by rewrite !last_char_app in E.
Qed.
End text_name_facts.

Section extract_facts.
Import OS Splitter.
Context `{PyPDF2}.

Lemma text_path_ne_page (output_dir text_dir : path) (f g : string) :
  plain_page_name g = true → text_path text_dir f ≠ os_path_join output_dir g.
Proof.
  intros Hg E. unfold text_path, os_path_join in E.
  apply app_inj_2 in E as [_ E]; [|done].
  apply (text_name_not_page f g Hg). congruence.
Qed.

Lemma text_path_inj (text_dir : path) (f g : string) :
  plain_page_name f = true → plain_page_name g = true →
  text_path text_dir f = text_path text_dir g → f = g.
Proof.
  intros Hf Hg E. unfold text_path, os_path_join in E.
  apply app_inj_2 in E as [_ E]; [|done].
  apply base_name_inj; [done..|].
  assert (base_name f +:+ ".txt" = base_name g +:+ ".txt") as E' by congruence.
  by apply string_app_inj_r in E'.
Qed.

Lemma text_path_ne_dir (text_dir : path) (f : string) : text_path text_dir f ≠ text_dir.
Proof.
  unfold text_path, os_path_join. intros E.
  apply (f_equal length) in E. rewrite length_app in E. simpl in E. lia.
Qed.

Lemma page_text_insert (σ : gmap path node) (output_dir p : path)
    (f content : string) :
  p ≠ os_path_join output_dir f →
  page_text (<[p := File content]> σ) output_dir f = page_text σ output_dir f.
Proof. intros Hp. unfold page_text. by rewrite lookup_insert_ne. Qed.

(** One pass of the loop on a page file that is ready. *)
Lemma extract_page_ok (σ : gmap path node) (output_dir text_dir : path)
    (acc : totals) (f text : string) :
  is_dir σ text_dir = true →
  plain_page_name f = true →
  page_text σ output_dir f = Some text →
  Z.of_nat (String.length text) < 2 ^ 63 →
  σ !! text_path text_dir f ≠ Some Dir →
  ∃ tokens,
    token_estimate (Z.of_nat (String.length text)) = Some tokens
    ∧ extract_page output_dir text_dir acc f σ
      = (inr {| total_chars := total_chars acc + Z.of_nat (String.length text);
                total_tokens := total_tokens acc + tokens;
                printed := printed acc
                           ++ [(base_name f +:+ ".txt",
                                Z.of_nat (String.length text), tokens)] |},
         <[text_path text_dir f := File text]> σ).
Proof.
  intros Hd Hplain Htext Hlen Hnodir.
  destruct (token_estimate_defined (Z.of_nat (String.length text)))
    as (tokens & Htok & _); [lia|].
  exists tokens. split; [done|].
  unfold page_text in Htext.
  destruct (σ !! os_path_join output_dir f) as [[data|]|] eqn:Hfile; [|done..].
  destruct (PdfReader data) as [[|page rest]|] eqn:Hread; [done| |done].
  injection Htext as <-.
  unfold extract_page.
  rewrite (bind_inr _ _ σ σ (page :: rest))
    by (apply (read_pdf_ok _ _ data); [done|by destruct output_dir|done]).
  simpl from_option. unfold bind at 1. unfold ret at 1.
  rewrite plain_page_name_replace by done.
  rewrite (bind_inr _ _ σ _ tt (write_file_ok text_dir _ _ σ Hd Hnodir)).
  rewrite Htok. done.
Qed.

Lemma extract_loop_ok (output_dir text_dir : path) (l : list string)
    (σ : gmap path node) (acc : totals) :
  is_dir σ text_dir = true →
  (∀ f, f ∈ l → page_file_ready σ output_dir text_dir f) →
  ∃ acc' σ',
    for_fold l (extract_page output_dir text_dir) acc σ = (inr acc', σ')
    ∧ (λ x, x.1.1) <$> printed acc'
      = ((λ x, x.1.1) <$> printed acc) ++ ((λ f, base_name f +:+ ".txt") <$> l)
    ∧ (∀ f text, f ∈ l → page_text σ output_dir f = Some text →
         σ' !! text_path text_dir f = Some (File text))
    ∧ (∀ p, (∀ f, f ∈ l → p ≠ text_path text_dir f) → σ' !! p = σ !! p).
Proof.
  revert σ acc. induction l as [|f l IH]; intros σ acc Hd Hready; simpl.
  - exists acc, σ. split_and!; [done|by rewrite app_nil_r| |done].
    intros f text Hf. by apply elem_of_nil in Hf.
  - destruct (Hready f ltac:(by left)) as (Hplain & text & Htext & Hlen & Hnodir).
    destruct (extract_page_ok σ output_dir text_dir acc f text)
      as (tokens & _ & Hstep); [done..|].
    rewrite (bind_inr _ _ σ _ _ Hstep).
    set (σ1 := <[text_path text_dir f := File text]> σ).
    assert (∀ g, g ∈ l → page_text σ1 output_dir g = page_text σ output_dir g) as Hkeep.
    { intros g Hg. apply page_text_insert, text_path_ne_page.
      apply (Hready g). by right. }
    destruct (IH σ1 {| total_chars := total_chars acc + Z.of_nat (String.length text);
                       total_tokens := total_tokens acc + tokens;
                       printed := printed acc
                                  ++ [(base_name f +:+ ".txt",
                                       Z.of_nat (String.length text), tokens)] |})
      as (acc' & σ' & Hrun & Hprinted & Hwritten & Hframe).
    { unfold σ1. rewrite is_dir_insert_file; [done|apply text_path_ne_dir]. }
    { intros g Hg.
      destruct (Hready g ltac:(by right)) as (Hpg & textg & Htg & Hlg & Hng).
      split; [done|]. exists textg. rewrite Hkeep by done. split_and!; [done..|].
      unfold σ1. destruct (decide (text_path text_dir g = text_path text_dir f)) as [->|Hne].
      - by rewrite lookup_insert_eq.
      - by rewrite lookup_insert_ne. }
    exists acc', σ'. split_and!; [done| | |].
    + rewrite Hprinted. simpl. rewrite fmap_app. simpl. by rewrite <-app_assoc.
    + intros g textg Hg Htg.
      destruct (decide (g ∈ l)) as [Hgl|Hgl].
      * apply Hwritten; [done|]. by rewrite Hkeep.
      * apply elem_of_cons in Hg as [->|Hg]; [|done].
        rewrite Hframe.
        -- unfold σ1. rewrite lookup_insert_eq. congruence.
        -- intros k Hk E. apply text_path_inj in E; [congruence|done|].
           apply (Hready k). by right.
    + intros p Hp. rewrite Hframe.
      * unfold σ1. rewrite lookup_insert_ne; [done|]. intros E. apply (Hp f); [by left|done].
      * intros k Hk. apply Hp. by right.
Qed.
End extract_facts.

(** * Theorems about [extract_text_from_pages] *)

Section extract_claims.
Import OS Splitter.
Context `{PyPDF2}.

Lemma sort_names_perm (names : list string) : sort_names names ≡ₚ names.
Proof. apply merge_sort_Permutation. Qed.

Lemma NoDup_pdf_files (σ : gmap path node) (d : path) :
  NoDup (sort_names (pdf_names (entries σ d))).
Proof. rewrite sort_names_perm. apply NoDup_filter, NoDup_entries. Qed.

(** The steps of [extract_text_from_pages] before the loop. *)
Lemma extract_prologue (σ : gmap path node) (output_dir text_dir : path) :
  dir_available σ text_dir = true → is_dir σ output_dir = true →
  let σ0 := (ensure_dir text_dir σ).2 in
  ensure_dir text_dir σ = (inr tt, σ0)
  ∧ is_dir σ0 text_dir = true
  ∧ os_listdir output_dir σ0 = (inr (entries σ0 output_dir), σ0)
  ∧ only_dirs_added text_dir σ σ0.
Proof.
  intros Hav Hout σ0.
  destruct (ensure_dir_available text_dir σ Hav) as (σ0' & Hens & Hd & Hadd).
  unfold σ0. rewrite Hens. simpl. split_and!; [done..| |done].
  apply os_listdir_ok. by eapply only_dirs_added_dir.
Qed.

(** X20: when every page file of the pages directory bears a
    plain page name ([.pdf] at the end and nowhere else) and can be read,
    the extractor processes the page files in lexicographic order of their
    names and writes for each one the text file of the same base name,
    holding the text of the page as it is; the text files are as many as
    the page files, and nothing else is written. *)
Theorem extract_one_text_per_page (σ : gmap path node) (output_dir text_dir : path) :
  dir_available σ text_dir = true → is_dir σ output_dir = true →
  (∀ f, f ∈ pdf_names (entries (ensure_dir text_dir σ).2 output_dir) →
     page_file_ready (ensure_dir text_dir σ).2 output_dir text_dir f) →
  let σ0 := (ensure_dir text_dir σ).2 in
  let pdf_files := sort_names (pdf_names (entries σ0 output_dir)) in
  let outcome := extract_text_from_pages output_dir text_dir σ in
  Sorted String.le pdf_files
  ∧ pdf_files ≡ₚ pdf_names (entries σ0 output_dir)
  ∧ (outcome.1 = inl ZeroDivisionError ∧ pdf_files = []
     ∨ ∃ s, outcome.1 = inr s ∧ pdf_files ≠ []
            ∧ (λ x, x.1.1) <$> lines s = (λ f, base_name f +:+ ".txt") <$> pdf_files)
  ∧ (∀ f text, f ∈ pdf_files → page_text σ0 output_dir f = Some text →
       Py.replace ".pdf" ".txt" f = base_name f +:+ ".txt"
       ∧ outcome.2 !! os_path_join text_dir (base_name f +:+ ".txt") = Some (File text))
  ∧ NoDup (text_path text_dir <$> pdf_files)
  ∧ length (text_path text_dir <$> pdf_files) = length pdf_files
  ∧ (∀ p, p ∉ text_path text_dir <$> pdf_files → outcome.2 !! p = σ0 !! p).
Proof.
  intros Hav Hout Hready σ0 pdf_files outcome.
  destruct (extract_prologue σ output_dir text_dir Hav Hout)
    as (Hens & Hd0 & Hls & Hadd). fold σ0 in Hens, Hd0, Hls, Hadd.
  assert (∀ f, f ∈ pdf_files → page_file_ready σ0 output_dir text_dir f) as Hready'.
  { intros f Hf. apply Hready. unfold pdf_files in Hf. by rewrite sort_names_perm in Hf. }
  destruct (extract_loop_ok output_dir text_dir pdf_files σ0
              {| total_chars := 0; total_tokens := 0; printed := [] |} Hd0 Hready')
    as (acc & σ' & Hloop & Hprinted & Hwritten & Hframe).
  assert (outcome
          = bind (floordiv (total_tokens acc) (Z.of_nat (length pdf_files)))
              (λ average, ret {| lines := printed acc;
                                 sum_chars := total_chars acc;
                                 sum_tokens := total_tokens acc;
                                 average_tokens := average |}) σ') as Hout'.
  { unfold outcome, extract_text_from_pages.
    rewrite (bind_inr _ _ σ σ0 tt Hens), (bind_inr _ _ σ0 σ0 _ Hls).
    fold pdf_files. by rewrite (bind_inr _ _ σ0 σ' acc Hloop). }
  assert (outcome.2 = σ') as Hstate.
  { rewrite Hout'. unfold bind, floordiv. by destruct (decide _). }
  split_and!.
  - apply (Sorted_merge_sort String.le).
  - apply sort_names_perm.
  - rewrite Hout'. unfold bind, floordiv.
    destruct (decide (Z.of_nat (length pdf_files) = 0)) as [E|E]; simpl.
    + left. split; [done|]. destruct pdf_files; [done|simpl in E; lia].
    + right. eexists. split; [done|]. split; [by intros ->|done].
  - intros f text Hf Htext. split.
    + apply plain_page_name_replace, (Hready' f Hf).
    + rewrite Hstate. by apply Hwritten.
  - apply NoDup_fmap_2_strong; [|apply NoDup_pdf_files].
    intros f g Hf Hg. apply text_path_inj; [apply (Hready' f Hf)|apply (Hready' g Hg)].
  - apply length_fmap.
  - intros p Hp. rewrite Hstate. apply Hframe. intros f Hf ->.
    apply Hp, list_elem_of_fmap. by exists f.
Qed.

Lemma extract_success_needs_page (σ σ' : gmap path node)
    (output_dir text_dir : path) (s : summary) :
  extract_text_from_pages output_dir text_dir σ = (inr s, σ') →
  pdf_names (entries (ensure_dir text_dir σ).2 output_dir) ≠ [].
Proof.
  unfold extract_text_from_pages, bind.
  destruct (ensure_dir text_dir σ) as [[e|[]] σ0]; simpl; [done|].
  unfold os_listdir.
  destruct (is_dir σ0 output_dir); simpl.
  - intros Hrun Hnil. rewrite Hnil in Hrun. by vm_compute in Hrun.
  - destruct output_dir; [|by destruct (σ0 !! _)].
    intros Hrun Hnil. by vm_compute in Hrun.
Qed.

(** C9: with no page file in the pages directory the extractor writes no
    text file and stops with a division by zero when it computes the
    average; a run that prints its totals had at least one page file. *)
Theorem extract_no_pages_division_by_zero (σ : gmap path node)
    (output_dir text_dir : path) :
  dir_available σ text_dir = true → is_dir σ output_dir = true →
  pdf_names (entries (ensure_dir text_dir σ).2 output_dir) = [] →
  extract_text_from_pages output_dir text_dir σ
  = (inl ZeroDivisionError, (ensure_dir text_dir σ).2)
  ∧ (∀ p content, (ensure_dir text_dir σ).2 !! p = Some (File content)
                  ↔ σ !! p = Some (File content))
  ∧ (∀ σa σb (out txt : path) (s : summary),
       extract_text_from_pages out txt σa = (inr s, σb) →
       pdf_names (entries (ensure_dir txt σa).2 out) ≠ []).
Proof.
  intros Hav Hout Hnil.
  destruct (extract_prologue σ output_dir text_dir Hav Hout)
    as (Hens & Hd0 & Hls & Hadd).
  split_and!.
  - unfold extract_text_from_pages.
    rewrite (bind_inr _ _ σ _ tt Hens), (bind_inr _ _ _ _ _ Hls), Hnil. done.
  - intros p content. split.
    + by apply (only_dirs_added_file_inv text_dir).
    + by apply (only_dirs_added_file text_dir).
  - intros σa σb out txt s. apply extract_success_needs_page.
Qed.
End extract_claims.

Section extract_examples.
Import OS Splitter Example.

(** C4: the claim asks for one text file per page file, named after the
    page file with [.txt] as its extension.  The code takes the names that
    end with [.pdf] and then rewrites every [.pdf] in them, not the
    extension alone: the page files [a.pdf.pdf] and [a.txt.pdf] are both
    written to [a.txt.txt].  Two page files, a run that returns, one text
    file holding the text of the second page file only, and no
    [a.pdf.txt]. *)
Lemma extract_double_extension_collision :
  length (pdf_names (entries double_extension ["pdf_pages"])) = 2%nat
  ∧ (∃ s, (extract_text_from_pages (H := example_library)
             ["pdf_pages"] ["pdf_text"] double_extension).1 = inr s)
  ∧ entries (extract_text_from_pages (H := example_library)
               ["pdf_pages"] ["pdf_text"] double_extension).2 ["pdf_text"]
    = ["a.txt.txt"]
  ∧ (extract_text_from_pages (H := example_library)
       ["pdf_pages"] ["pdf_text"] double_extension).2
      !! ["pdf_text"; "a.txt.txt"] = Some (File "page y")
  ∧ (extract_text_from_pages (H := example_library)
       ["pdf_pages"] ["pdf_text"] double_extension).2
      !! ["pdf_text"; "a.pdf.txt"] = None.
Proof.
  split_and!.
  - vm_compute. reflexivity.
  - eexists. vm_compute. reflexivity.
  - vm_compute. reflexivity.
  - vm_compute. reflexivity.
  - vm_compute. reflexivity.
Qed.

Lemma extract_one_text_per_page_witness :
  (extract_text_from_pages (H := example_library)
     ["pdf_pages"] ["pdf_text"] two_page_files).2
    !! ["pdf_text"; "page_001.txt"] = Some (File "page a").
Proof.
  destruct (extract_one_text_per_page (H := example_library) two_page_files
              ["pdf_pages"] ["pdf_text"])
    as (_ & _ & _ & Hfiles & _).
  - vm_compute. reflexivity.
  - vm_compute. reflexivity.
  - intros f Hf.
    assert (f = "page_001.pdf" ∨ f = "page_002.pdf") as [->| ->].
    { vm_compute in Hf.
      apply elem_of_cons in Hf as [->|Hf]; [by right|].
      apply elem_of_cons in Hf as [->|Hf]; [by left|].
      by apply elem_of_nil in Hf. }
    + split; [vm_compute; reflexivity|]. exists "page a".
      split; [vm_compute; reflexivity|].
      split; [vm_compute; reflexivity|]. vm_compute. discriminate.
    + split; [vm_compute; reflexivity|]. exists "page b".
      split; [vm_compute; reflexivity|].
      split; [vm_compute; reflexivity|]. vm_compute. discriminate.
  - refine (proj2 (Hfiles "page_001.pdf" "page a" _ _)).
    + vm_compute. constructor.
    + vm_compute. reflexivity.
Defined.

Lemma extract_no_pages_division_by_zero_witness :
  (extract_text_from_pages (H := example_library)
     ["pdf_pages"] ["pdf_text"] no_pages).1 = inl ZeroDivisionError.
Proof.
  destruct (extract_no_pages_division_by_zero (H := example_library) no_pages
              ["pdf_pages"] ["pdf_text"])
    as (Hrun & _).
  - vm_compute. reflexivity.
  - vm_compute. reflexivity.
  - vm_compute. reflexivity.
  - exact (f_equal fst Hrun).
Defined.
End extract_examples.

(** * Further properties of [generate_large_pdf.py] *)

Section paragraph_extras.
Import Generator.

Lemma lookup_bind_replicate {A B} (f : A → B) (n : nat) (l : list A) (k : nat) :
  (0 < n)%nat →
  (l ≫= λ x, replicate n (f x)) !! k = f <$> l !! (k / n)%nat.
Proof.
  intros Hn. revert k. induction l as [|x l IH]; intros k; [done|].
  rewrite bind_cons. destruct (decide (k < n)%nat) as [Hlt|Hge].
  - rewrite lookup_app_l by (by rewrite length_replicate).
    rewrite lookup_replicate_2 by done. by rewrite Nat.div_small.
  - rewrite lookup_app_r by (rewrite length_replicate; lia).
    rewrite length_replicate, IH.
    replace (k / n)%nat with (S ((k - n) / n)); [done|].
    replace k with ((k - n) + 1 * n)%nat at 2 by lia.
    rewrite Nat.div_add by lia. lia.
Qed.

(** X1: the paragraphs come grouped by sentence, in the order of the
    sentences: with [R > 0] repetitions, the paragraph of index [k] is the
    expansion of the sentence of index [k // R]. *)
Theorem paragraph_at_index (content_list : list string) (R : Z) (k : nat) :
  0 < R →
  create_detailed_paragraphs content_list R !! k
  = (λ s, detailed_paragraph s 0) <$> content_list !! (k / Z.to_nat R)%nat.
Proof.
  intros HR. rewrite create_detailed_paragraphs_bind.
  apply (lookup_bind_replicate (λ s, detailed_paragraph s 0)). lia.
Qed.

Lemma paragraph_at_index_witness :
  create_detailed_paragraphs ["a"; "b"] 2 !! 3%nat
  = Some (detailed_paragraph "b" 0).
Proof. exact (paragraph_at_index ["a"; "b"] 2 3 ltac:(lia)). Defined.

(** X2: expanding a concatenation of two lists of sentences gives the
    concatenation of the two expansions. *)
Theorem paragraphs_of_concatenation (l1 l2 : list string) (R : Z) :
  create_detailed_paragraphs (l1 ++ l2) R
  = create_detailed_paragraphs l1 R ++ create_detailed_paragraphs l2 R.
Proof. rewrite !create_detailed_paragraphs_bind. apply bind_app. Qed.

(** X3: a repetition count that is zero or negative is not an error: the
    result is the empty list, whatever the sentences. *)
Theorem paragraphs_nonpositive_repetitions (content_list : list string) (R : Z) :
  R ≤ 0 → create_detailed_paragraphs content_list R = [].
Proof.
  intros HR. apply length_zero_iff_nil.
  rewrite create_detailed_paragraphs_length. lia.
Qed.

Lemma paragraphs_nonpositive_repetitions_witness :
  create_detailed_paragraphs ["a"; "b"] (-3) = [].
Proof. exact (paragraphs_nonpositive_repetitions ["a"; "b"] (-3) ltac:(lia)). Defined.

Lemma lower_length (s : string) : String.length (Py.lower s) = String.length s.
Proof. induction s as [|c s IH]; [done|]. simpl. by rewrite IH. Qed.

(** X4: for a base sentence of ASCII characters, on which lower-casing
    keeps the length, an expanded paragraph holds the base sentence three
    times (once as it is, twice in lower case) and 1864 characters of
    fixed text: its length is [3 * len(base) + 1864]. *)
Theorem expanded_paragraph_length (base_content : string) (i : Z) :
  Chars.all_chars Chars.is_ascii base_content = true →
  String.length (detailed_paragraph base_content i)
  = (3 * String.length base_content + 1864)%nat.
Proof.
  intros _. rewrite detailed_paragraph_suffix. unfold suffix_clauses.
  rewrite !string_app_length, !lower_length. simpl. lia.
Qed.

Lemma expanded_paragraph_length_witness :
  String.length (detailed_paragraph "Deep Learning" 0) = 1903%nat.
Proof.
  apply (expanded_paragraph_length "Deep Learning" 0). vm_compute. reflexivity.
Defined.
End paragraph_extras.

Section document_extras.
Import Generator Document.

Lemma count_blocks_app (kind : Flowable → bool) (l1 l2 : list Flowable) :
  count_blocks kind (l1 ++ l2) = (count_blocks kind l1 + count_blocks kind l2)%nat.
Proof. unfold count_blocks. by rewrite filter_app, length_app. Qed.

(** Counting blocks of a kind that is neither a body paragraph nor the
    spacer that follows it. *)
Lemma count_blocks_paragraphs (kind : Flowable → bool) (paras : list string) :
  (∀ text, kind (Paragraph text StyleNormal) = false) →
  kind (Spacer 1 6) = false →
  count_blocks kind (paras ≫= λ para, [Paragraph para StyleNormal; Spacer 1 6]) = 0%nat.
Proof.
  intros Hp Hs. induction paras as [|p l IH]; [done|].
  rewrite bind_cons, count_blocks_app, IH. unfold count_blocks.
  rewrite !filter_cons, filter_nil, Hp, Hs. done.
Qed.

Lemma count_blocks_cycles (kind : Flowable → bool) (n : nat)
    (cycles repetitions : Z) (sections : list (string * list string)) :
  (∀ repeat_cycle item,
     count_blocks kind (section_blocks repetitions repeat_cycle item) = n) →
  count_blocks kind
    (Py.range cycles ≫= λ repeat_cycle,
       sections ≫= section_blocks repetitions repeat_cycle)
  = (Z.to_nat cycles * (length sections * n))%nat.
Proof.
  intros Hn. rewrite <-range_length.
  induction (Py.range cycles) as [|c l IH]; [done|].
  rewrite bind_cons, count_blocks_app, IH. simpl. f_equal.
  clear IH. induction sections as [|item secs IH]; [done|].
  rewrite bind_cons, count_blocks_app, IH, Hn. simpl. lia.
Qed.

Lemma section_blocks_kind (kind : Flowable → bool)
    (repetitions repeat_cycle : Z) (item : string * list string) :
  (∀ text, kind (Paragraph text StyleNormal) = false) →
  (∀ w h, kind (Spacer w h) = false) →
  count_blocks kind (section_blocks repetitions repeat_cycle item)
  = count_blocks kind
      [ Paragraph (item.1 +:+ " - Volume " +:+ Py.str_of_int (repeat_cycle + 1))
          CustomHeading
      ; Table table_data; PageBreak ].
Proof.
  intros Hp Hs. unfold section_blocks.
  rewrite !count_blocks_app, count_blocks_paragraphs by done.
  unfold count_blocks. rewrite !filter_cons, !filter_nil, !Hp, !Hs. simpl.
  repeat case_decide; simpl; lia.
Qed.

(** X5: a document built with [C >= 0] cycles holds one heading, one table
    and one page break for every section of every cycle, and one more page
    break after the title page. *)
Theorem document_block_counts (C R : Z) (sections : list (string * list string)) :
  0 ≤ C →
  let content := build_content C R sections title_page in
  Z.of_nat (count_blocks is_heading content) = C * Z.of_nat (length sections)
  ∧ Z.of_nat (count_blocks is_table content) = C * Z.of_nat (length sections)
  ∧ Z.of_nat (count_blocks is_page_break content) = 1 + C * Z.of_nat (length sections).
Proof.
  intros HC content. unfold content.
  rewrite build_content_blocks, !count_blocks_app.
  rewrite (count_blocks_cycles is_heading 1), (count_blocks_cycles is_table 1),
    (count_blocks_cycles is_page_break 1).
  - split_and!; [| |]; (replace (count_blocks _ title_page) with 0%nat
                          + replace (count_blocks _ title_page) with 1%nat);
      first [done|lia].
  - intros c item. by rewrite section_blocks_kind.
  - intros c item. by rewrite section_blocks_kind.
  - intros c item. by rewrite section_blocks_kind.
Qed.

Lemma document_block_counts_witness :
  let content := build_content 2 3 [("T", ["a"; "b"]); ("U", ["c"])] title_page in
  Z.of_nat (count_blocks is_heading content) = 4
  ∧ Z.of_nat (count_blocks is_table content) = 4
  ∧ Z.of_nat (count_blocks is_page_break content) = 5.
Proof.
  exact (document_block_counts 2 3 [("T", ["a"; "b"]); ("U", ["c"])] ltac:(lia)).
Defined.
End document_extras.

Section heading_extras.
Import Generator Document.

Lemma heading_texts_app (l1 l2 : list Flowable) :
  heading_texts (l1 ++ l2) = heading_texts l1 ++ heading_texts l2.
Proof. apply omap_app. Qed.

Lemma heading_texts_paragraphs (paras : list string) :
  heading_texts (paras ≫= λ para, [Paragraph para StyleNormal; Spacer 1 6]) = [].
Proof.
  induction paras as [|p l IH]; [done|].
  by rewrite bind_cons, heading_texts_app, IH.
Qed.

Lemma heading_texts_section (repetitions repeat_cycle : Z) (item : string * list string) :
  heading_texts (section_blocks repetitions repeat_cycle item)
  = [item.1 +:+ " - Volume " +:+ Py.str_of_int (repeat_cycle + 1)].
Proof.
  unfold section_blocks.
  by rewrite !heading_texts_app, heading_texts_paragraphs.
Qed.

(** X6: the headings of the document are, in order, the section titles of
    the table once per cycle, each followed by [ - Volume ] and the number
    of the cycle counted from 1. *)
Theorem document_headings (C R : Z) (sections : list (string * list string)) :
  heading_texts (build_content C R sections title_page)
  = Py.range C ≫= λ repeat_cycle,
      (λ item : string * list string,
         item.1 +:+ " - Volume " +:+ Py.str_of_int (repeat_cycle + 1)) <$> sections.
Proof.
  rewrite build_content_blocks, heading_texts_app.
  change (heading_texts title_page) with (@nil string). simpl.
  induction (Py.range C) as [|c l IH]; [done|].
  rewrite !bind_cons, heading_texts_app, IH. f_equal.
  clear IH. induction sections as [|item secs IH]; [done|].
  by rewrite bind_cons, heading_texts_app, heading_texts_section, IH.
Qed.
End heading_extras.

(** * Further facts about strings and page names *)

Section string_extras.
Import OS Splitter Chars.

Lemma all_chars_app (P : ascii → bool) (a b : string) :
  all_chars P (a +:+ b) = all_chars P a && all_chars P b.
Proof.
  induction a as [|c a IH]; [done|].
  change (String c a +:+ b) with (String c (a +:+ b)). simpl.
  by rewrite IH, andb_assoc.
Qed.

Lemma all_chars_impl (P Q : ascii → bool) (s : string) :
  (∀ c, P c = true → Q c = true) → all_chars P s = true → all_chars Q s = true.
Proof.
  intros HPQ. induction s as [|c s IH]; [done|]. simpl.
  intros [Hc Hs]%andb_true_iff. by rewrite (HPQ c Hc), IH.
Qed.

Lemma pretty_N_char_digit (x : N) : is_digit (pretty_N_char x) = true.
Proof. unfold pretty_N_char. by repeat case_match. Qed.

Lemma pretty_N_go_digits (x : N) (s : string) :
  all_chars is_digit s = true → all_chars is_digit (pretty_N_go x s) = true.
Proof.
  revert s. induction (N.lt_wf_0 x) as [x _ IH]. intros s Hs.
  destruct (decide (0 < x)%N) as [Hx|Hx].
  - rewrite pretty_N_go_step by done. apply IH; [by apply N.div_lt|].
    simpl. by rewrite pretty_N_char_digit, Hs.
  - assert (x = 0%N) as -> by lia. by rewrite pretty_N_go_0.
Qed.

Lemma pretty_nat_digits (n : nat) : all_chars is_digit (pretty n) = true.
Proof.
  unfold pretty, pretty_nat, pretty, pretty_N.
  case_decide; [done|]. by apply pretty_N_go_digits.
Qed.

Lemma zeros_digits (k : nat) : all_chars is_digit (zeros k) = true.
Proof. induction k as [|k IH]; [done|]. rewrite zeros_S. simpl. by rewrite IH. Qed.

Lemma format_03d_digits (n : nat) : all_chars is_digit (format_03d n) = true.
Proof.
  unfold format_03d. by rewrite all_chars_app, zeros_digits, pretty_nat_digits.
Qed.

Lemma is_digit_not_dot (c : ascii) : is_digit c = true → not_dot c = true.
Proof.
  unfold is_digit, not_dot. intros [H1 H2]%andb_true_iff.
  destruct (Ascii.eqb_spec c ".") as [->|]; [|done]. by vm_compute in H1.
Qed.

Lemma contains_pdf_no_dot (s : string) :
  all_chars not_dot s = true → Py.contains ".pdf" s = false.
Proof.
  induction s as [|c s IH]; [done|]. cbn [all_chars Py.contains Py.startswith].
  intros [Hc Hs]%andb_true_iff. rewrite (IH Hs), orb_false_r.
  unfold not_dot in Hc. apply negb_true_iff in Hc.
  rewrite Ascii.eqb_sym in Hc. by rewrite Hc.
Qed.

Lemma substring_prefix (a b : string) :
  String.substring 0 (String.length a) (a +:+ b) = a.
Proof.
  induction a as [|c a IH]; [by destruct b|].
  change (String c a +:+ b) with (String c (a +:+ b)). simpl. by rewrite IH.
Qed.

Lemma base_name_pdf (a : string) : base_name (a +:+ ".pdf") = a.
Proof.
  unfold base_name. rewrite string_app_length. simpl.
  replace (String.length a + 4 - 4)%nat with (String.length a) by lia.
  apply substring_prefix.
Qed.

Lemma page_filename_plain (i : nat) : plain_page_name (page_filename i) = true.
Proof.
  unfold plain_page_name, page_filename.
  rewrite <-string_app_assoc, base_name_pdf, String.eqb_refl. simpl.
  apply negb_true_iff, contains_pdf_no_dot.
  rewrite all_chars_app. simpl.
  apply (all_chars_impl is_digit), format_03d_digits. apply is_digit_not_dot.
Qed.

Lemma page_filename_base (i : nat) :
  base_name (page_filename i) = "page_" +:+ format_03d (i + 1).
Proof. unfold page_filename. by rewrite <-string_app_assoc, base_name_pdf. Qed.
End string_extras.

Section order_extras.
Import OS Splitter.

(** X7: two different pages never get the same file name, whatever the
    number of pages: the number is padded to three digits but never cut,
    so that the names stay distinct beyond page 999. *)
Theorem page_names_distinct (output_dir : path) (i j : nat) :
  (page_filename i = page_filename j ↔ i = j)
  ∧ (page_path output_dir i = page_path output_dir j ↔ i = j)
  ∧ (3 ≤ String.length (format_03d (i + 1)))%nat.
Proof.
  split_and!.
  - split; [apply page_filename_inj|by intros ->].
  - split; [apply page_path_inj|by intros ->].
  - unfold format_03d. rewrite string_app_length.
    assert (String.length (zeros (3 - String.length (pretty (i + 1)%nat)))
            = (3 - String.length (pretty (i + 1)%nat))%nat) as ->; [|lia].
    generalize (3 - String.length (pretty (i + 1)%nat))%nat. intros k.
    induction k as [|k IH]; [done|]. rewrite zeros_S. simpl. by rewrite IH.
Qed.

Lemma Sorted_fmap_seq {A} (R : relation A) (f : nat → A) (k n : nat) :
  (∀ i, (k ≤ i)%nat → (i + 1 < k + n)%nat → R (f i) (f (i + 1)%nat)) →
  Sorted R (f <$> seq k n).
Proof.
  revert k. induction n as [|n IH]; intros k Hadj; [constructor|].
  simpl. constructor.
  - apply IH. intros i Hi1 Hi2. apply Hadj; lia.
  - destruct n as [|n]; [constructor|]. simpl. constructor.
    replace (S k) with (k + 1)%nat by lia. apply Hadj; lia.
Qed.

Lemma page_names_adjacent (i : nat) :
  (i + 1 < 999)%nat → String.le (page_filename i) (page_filename (i + 1)).
Proof.
  intros Hi.
  assert (forallb (λ i, String.leb (page_filename i) (page_filename (i + 1)))
            (seq 0 998) = true) as Hall by (vm_compute; reflexivity).
  rewrite forallb_forall in Hall. unfold String.le.
  apply Is_true_true, Hall, in_seq. lia.
Qed.

Lemma sort_names_sorted (names : list string) :
  Sorted String.le names → sort_names names = names.
Proof.
  intros Hs. apply (Sorted_unique String.le); [|done|].
  - apply (Sorted_merge_sort String.le).
  - apply merge_sort_Permutation.
Qed.

Lemma page_names_sorted (N : nat) :
  (N ≤ 999)%nat → Sorted String.le (page_filename <$> seq 0 N).
Proof.
  intros HN. apply Sorted_fmap_seq. intros i _ Hi.
  apply page_names_adjacent. lia.
Qed.

(** X8: up to 999 pages the lexicographic order of the page file names
    is the order of the pages, so that sorting the names, as the extractor
    does, lists the pages in order.  With 1000 pages it no longer is:
    [page_1000.pdf] sorts right after [page_100.pdf]. *)
Theorem sorted_names_page_order (N : nat) :
  (N ≤ 999)%nat →
  sort_names (page_filename <$> seq 0 N) = page_filename <$> seq 0 N
  ∧ sort_names (page_filename <$> seq 0 1000) !! 100%nat = Some "page_1000.pdf".
Proof.
  intros HN. split.
  - by apply sort_names_sorted, page_names_sorted.
  - vm_compute. reflexivity.
Qed.

Lemma sorted_names_page_order_witness :
  sort_names (page_filename <$> seq 0 3)
  = ["page_001.pdf"; "page_002.pdf"; "page_003.pdf"]
  ∧ sort_names (page_filename <$> seq 0 1000) !! 100%nat = Some "page_1000.pdf".
Proof. exact (sorted_names_page_order 3 ltac:(lia)). Defined.
End order_extras.

Section suffix_extras.
Import OS Splitter.

Lemma string_app_nil_r (s : string) : s +:+ "" = s.
Proof. induction s as [|c s IH]; [done|]. exact (f_equal (String c) IH). Qed.

Lemma rev_app_append (s t : string) : String.rev_app s t = String.rev s +:+ t.
Proof.
  revert t. induction s as [|c s IH]; intros t; [done|].
  unfold String.rev. simpl. rewrite (IH (String c t)), (IH (String c "")).
  by rewrite string_app_assoc.
Qed.

Lemma rev_cons (c : ascii) (s : string) :
  String.rev (String c s) = String.rev s +:+ String c "".
Proof. unfold String.rev at 1. simpl. apply rev_app_append. Qed.

Lemma rev_append (a b : string) : String.rev (a +:+ b) = String.rev b +:+ String.rev a.
Proof.
  induction a as [|c a IH]; [by rewrite string_app_nil_r|].
  change (String c a +:+ b) with (String c (a +:+ b)).
  by rewrite !rev_cons, IH, string_app_assoc.
Qed.

Lemma rev_involutive (s : string) : String.rev (String.rev s) = s.
Proof.
  induction s as [|c s IH]; [done|].
  by rewrite rev_cons, rev_append, IH.
Qed.

Lemma startswith_append (p x : string) : Py.startswith p (p +:+ x) = true.
Proof.
  induction p as [|c p IH]; [done|].
  change (String c p +:+ x) with (String c (p +:+ x)). simpl.
  by rewrite Ascii.eqb_refl.
Qed.

Lemma endswith_append (a p : string) : Py.endswith p (a +:+ p) = true.
Proof. unfold Py.endswith. rewrite rev_append. apply startswith_append. Qed.

Lemma page_filename_endswith (i : nat) : Py.endswith ".pdf" (page_filename i) = true.
Proof. unfold page_filename. rewrite <-string_app_assoc. apply endswith_append. Qed.

(** A name that ends with [.pdf] ends with the letter [f]. *)
Lemma endswith_pdf_last_char (f : string) :
  Py.endswith ".pdf" f = true → Py.last_char f = Some "f"%char.
Proof.
  unfold Py.endswith. intros Hs.
  destruct (String.rev f) as [|c r] eqn:Hrev; [done|].
  change (String.rev ".pdf") with "fdp." in Hs. cbn [Py.startswith] in Hs.
  destruct (Ascii.eqb_spec "f" c) as [<-|]; [|done].
  rewrite <-(rev_involutive f), Hrev, rev_cons. by rewrite last_char_app.
Qed.
End suffix_extras.

(** * Further properties of [split_pdf] *)

Section split_extras.
Import OS Splitter.
Context `{PyPDF2}.

Lemma for_each_app {A} (l1 l2 : list A) (body : A → M unit) (σ : gmap path node) :
  for_each (l1 ++ l2) body σ
  = bind (for_each l1 body) (λ _, for_each l2 body) σ.
Proof.
  revert σ. induction l1 as [|x l1 IH]; intros σ; simpl.
  - done.
  - unfold bind. destruct (body x σ) as [[e|[]] σ1]; [done|]. apply IH.
Qed.

Lemma write_file_directory (d : path) (name content : string) (σ : gmap path node) :
  is_dir σ d = true → σ !! (d ++ [name]) = Some Dir →
  write_file (os_path_join d name) content σ = (inl IsADirectoryError, σ).
Proof.
  intros Hd Hn. unfold write_file, os_path_join, parent.
  rewrite removelast_last, Hd.
  destruct (d ++ [name]) as [|c p] eqn:E; [by destruct d|]. by rewrite Hn.
Qed.

(** X9: when a directory has the name of the page file of index [k], and
    the source is none of the page files written before, the run stops
    there with [IsADirectoryError]; the page files before [k] are written
    and stay, the later ones are not touched. *)
Theorem split_stops_at_directory (σ : gmap path node) (input_path output_dir : path)
    (data : string) (pages : list Page) (k : nat) :
  σ !! input_path = Some (File data) → input_path ≠ [] →
  PdfReader data = Some pages →
  dir_available σ output_dir = true →
  (k < length pages)%nat →
  σ !! page_path output_dir k = Some Dir →
  (∀ i, (i < k)%nat → σ !! page_path output_dir i ≠ Some Dir) →
  (∀ i, (i < k)%nat → input_path ≠ page_path output_dir i) →
  (split_pdf input_path output_dir σ).1 = inl IsADirectoryError
  ∧ (∀ i page, (i < k)%nat → pages !! i = Some page →
       (split_pdf input_path output_dir σ).2 !! page_path output_dir i
       = Some (File (PdfWriter_write [page])))
  ∧ (∀ i, (k ≤ i)%nat →
       (split_pdf input_path output_dir σ).2 !! page_path output_dir i
       = σ !! page_path output_dir i).
Proof.
  intros Hsrc Hne Hread Hav Hk Hdir Hnodir _.
  destruct (ensure_dir_available output_dir σ Hav) as (σ0 & Hens & Hd0 & Hadd).
  assert (∀ i, σ0 !! page_path output_dir i = σ !! page_path output_dir i) as Hsame.
  { intros i. apply (only_dirs_added_other output_dir); [done|].
    apply page_path_not_prefix. }
  destruct (split_loop_ok pages output_dir (seq 0 k) σ0)
    as (σk & Hloop & Hwritten & Hframe & Hdk).
  { intros i Hi%elem_of_seq. lia. }
  { done. }
  { intros i Hi%elem_of_seq. rewrite Hsame. apply Hnodir. lia. }
  destruct (lookup_lt_is_Some_2 pages k Hk) as [page Hpage].
  assert (∀ i, (k ≤ i)%nat → σk !! page_path output_dir i = σ !! page_path output_dir i)
    as Hlater.
  { intros i Hi. rewrite Hframe, Hsame; [done|].
    intros j Hj%elem_of_seq E. apply page_path_inj in E. lia. }
  assert (split_pdf input_path output_dir σ = (inl IsADirectoryError, σk)) as Hrun.
  { unfold split_pdf.
    rewrite (bind_inr _ _ σ σ0 tt Hens).
    rewrite (bind_inr _ _ σ0 σ0 pages)
      by (apply (read_pdf_ok _ _ data);
          [by eapply (only_dirs_added_file output_dir)|done..]).
    replace (seq 0 (length pages)) with (seq 0 k ++ seq k (length pages - k))
      by (rewrite <-seq_app; f_equal; lia).
    apply bind_inl. rewrite for_each_app, (bind_inr _ _ σ0 σk tt Hloop).
    destruct (length pages - k)%nat as [|n] eqn:En; [lia|]. simpl.
    apply bind_inl. unfold split_page. rewrite Hpage. simpl.
    unfold bind at 1, ret at 1. apply write_file_directory; [done|].
    rewrite <-Hdir. apply (Hlater k). lia. }
  rewrite Hrun. simpl. split_and!; [done| |done].
  intros i page' Hi Hpage'. apply Hwritten; [|done]. apply elem_of_seq. lia.
Qed.
End split_extras.

Section listing_extras.
Import OS Splitter.
Context `{PyPDF2}.

Lemma StronglySorted_filter {A} (R : relation A) (P : A → Prop)
    `{∀ x, Decision (P x)} (l : list A) :
  StronglySorted R l → StronglySorted R (filter P l).
Proof.
  induction 1 as [|x l Hs IH Hall]; [constructor|].
  rewrite filter_cons. case_decide; [|done].
  constructor; [done|].
  apply Forall_forall. intros y [_ Hy]%list_elem_of_filter.
  rewrite Forall_forall in Hall. by apply Hall.
Qed.

Lemma Sorted_pdf_names (names : list string) :
  Sorted String.le names → Sorted String.le (pdf_names names).
Proof.
  intros Hs. apply StronglySorted_Sorted, StronglySorted_filter.
  by apply Sorted_StronglySorted; [apply _|].
Qed.

Lemma NoDup_page_names (N : nat) : NoDup (page_filename <$> seq 0 N).
Proof.
  apply NoDup_fmap_2_strong; [|apply NoDup_seq].
  intros i j _ _. apply page_filename_inj.
Qed.

Lemma elem_of_page_names (N : nat) (f : string) :
  f ∈ page_filename <$> seq 0 N ↔ ∃ i, (i < N)%nat ∧ f = page_filename i.
Proof.
  rewrite list_elem_of_fmap. split.
  - intros (i & -> & Hi%elem_of_seq). exists i. split; [lia|done].
  - intros (i & Hi & ->). exists i. split; [done|]. apply elem_of_seq. lia.
Qed.

(** A sorted list without repetition that holds the page names and nothing
    else is the list of the page names in page order. *)
Lemma sorted_page_names (N : nat) (l : list string) :
  (N ≤ 999)%nat → Sorted String.le l → NoDup l →
  (∀ f, f ∈ l ↔ ∃ i, (i < N)%nat ∧ f = page_filename i) →
  l = page_filename <$> seq 0 N.
Proof.
  intros HN Hs Hnd Hel. apply (Sorted_unique String.le); [done| |].
  - by apply page_names_sorted.
  - apply NoDup_Permutation; [done|apply NoDup_page_names|].
    intros f. by rewrite Hel, elem_of_page_names.
Qed.

(** The names ending in [.pdf] of the output directory after a run into a
    directory that held no other such name. *)
Lemma split_pdf_names (σ σ0 σ' : gmap path node) (output_dir : path)
    (pages : list Page) :
  only_dirs_added output_dir σ σ0 →
  (∀ i page, pages !! i = Some page →
     σ' !! page_path output_dir i = Some (File (PdfWriter_write [page]))) →
  (∀ p, (∀ i, (i < length pages)%nat → p ≠ page_path output_dir i) →
     σ' !! p = σ0 !! p) →
  (∀ f, f ∈ pdf_names (entries σ output_dir) →
     ∃ i, (i < length pages)%nat ∧ f = page_filename i) →
  ∀ f, f ∈ pdf_names (entries σ' output_dir)
       ↔ ∃ i, (i < length pages)%nat ∧ f = page_filename i.
Proof.
  intros Hadd Hwritten Hframe Hclean f. unfold pdf_names.
  rewrite list_elem_of_filter, elem_of_entries. split.
  - intros [Hpdf Hsome].
    destruct (decide (f ∈ page_filename <$> seq 0 (length pages))) as [Hin|Hnot].
    { by apply elem_of_page_names. }
    apply Hclean. unfold pdf_names.
    rewrite list_elem_of_filter, elem_of_entries. split; [done|].
    rewrite Hframe in Hsome.
    + rewrite (only_dirs_added_other output_dir σ σ0) in Hsome; [done..|].
      intros Hp%prefix_length. rewrite length_app in Hp. simpl in Hp. lia.
    + intros i Hi E. apply Hnot, elem_of_page_names. exists i. split; [done|].
      unfold page_path, os_path_join in E.
      apply app_inj_2 in E as [_ E]; [congruence|done].
  - intros (i & Hi & ->). split; [apply page_filename_endswith|].
    destruct (lookup_lt_is_Some_2 pages i Hi) as [page Hpage].
    pose proof (Hwritten i page Hpage) as Hw.
    unfold page_path, os_path_join in Hw. by rewrite Hw.
Qed.

(** X10: after a run on a readable source of [N <= 999] pages, itself
    none of the page files, into a directory that held no other [.pdf]
    entry, the directory listing that [split_pdf] reports is the list of
    the [N] page file names in page order. *)
Theorem split_listing_page_order (σ : gmap path node) (input_path output_dir : path)
    (data : string) (pages : list Page) :
  σ !! input_path = Some (File data) → input_path ≠ [] →
  PdfReader data = Some pages →
  (length pages ≤ 999)%nat →
  dir_available σ output_dir = true →
  (∀ i, (i < length pages)%nat → σ !! page_path output_dir i ≠ Some Dir) →
  (∀ i, (i < length pages)%nat → input_path ≠ page_path output_dir i) →
  (∀ f, f ∈ pdf_names (entries σ output_dir) →
     ∃ i, (i < length pages)%nat ∧ f = page_filename i) →
  (split_pdf input_path output_dir σ).1
  = inr (page_filename <$> seq 0 (length pages)).
Proof.
  intros Hsrc Hne Hread Hmax Hav Hnodir _ Hclean.
  destruct (split_pdf_ok σ input_path output_dir data pages)
    as (σ0 & σ' & Hens & Hadd & Hrun & Hd & Hwritten & Hframe); [done..|].
  rewrite Hrun. simpl. f_equal.
  apply sorted_page_names; [done| | |].
  - apply Sorted_pdf_names, (Sorted_merge_sort String.le).
  - apply NoDup_filter. unfold sort_names.
    rewrite merge_sort_Permutation. apply NoDup_entries.
  - intros f.
    rewrite <-(split_pdf_names σ σ0 σ' output_dir pages Hadd Hwritten Hframe Hclean f).
    unfold pdf_names. rewrite !list_elem_of_filter. unfold sort_names.
    by rewrite merge_sort_Permutation.
Qed.
End listing_extras.

(** * Further properties of [extract_text_from_pages] *)

Section totals_extras.
Import OS Splitter.
Context `{PyPDF2}.

Lemma token_estimate_ge_1 (n t : Z) : token_estimate n = Some t → 1 ≤ t.
Proof.
  unfold token_estimate.
  destruct (PyFloat.truediv_int n PyFloat.float_3_8) as [q|]; [|done].
  cbn [mbind option_bind]. destruct (PyFloat.to_int q) as [z|]; [|done].
  cbn [mbind option_bind]. intros [= <-]. unfold Py.max. lia.
Qed.

(** What one successful pass of the loop adds to the totals. *)
Lemma extract_page_inv (output_dir text_dir : path) (acc acc' : totals)
    (f : string) (σ σ' : gmap path node) :
  extract_page output_dir text_dir acc f σ = (inr acc', σ') →
  ∃ chars tokens,
    0 ≤ chars ∧ token_estimate chars = Some tokens ∧ 1 ≤ tokens
    ∧ total_chars acc' = total_chars acc + chars
    ∧ total_tokens acc' = total_tokens acc + tokens
    ∧ printed acc' = printed acc ++ [(Py.replace ".pdf" ".txt" f, chars, tokens)].
Proof.
  unfold extract_page, bind.
  destruct (read_pdf (os_path_join output_dir f) σ) as [[e|pages] σ1]; [done|].
  destruct (pages !! 0%nat) as [page|]; simpl; [|done].
  destruct (write_file _ _ σ1) as [[e|[]] σ2]; [done|].
  destruct (token_estimate _) as [tokens|] eqn:Htok; simpl; [|done].
  intros [= <- <-].
  exists (Z.of_nat (String.length (extract_text page))), tokens. simpl.
  split_and!; [lia|done|by eapply token_estimate_ge_1|done..].
Qed.

Lemma extract_loop_inv (output_dir text_dir : path) (l : list string)
    (acc acc' : totals) (σ σ' : gmap path node) :
  for_fold l (extract_page output_dir text_dir) acc σ = (inr acc', σ') →
  ∃ new : list (string * Z * Z),
    printed acc' = printed acc ++ new
    ∧ (λ x, x.1.1) <$> new = Py.replace ".pdf" ".txt" <$> l
    ∧ total_chars acc' = total_chars acc + foldr Z.add 0 ((λ x, x.1.2) <$> new)
    ∧ total_tokens acc' = total_tokens acc + foldr Z.add 0 ((λ x, x.2) <$> new)
    ∧ Forall (λ x, 0 ≤ x.1.2 ∧ token_estimate x.1.2 = Some x.2 ∧ 1 ≤ x.2) new.
Proof.
  revert acc σ. induction l as [|f l IH]; intros acc σ; simpl.
  - intros [= <- <-]. exists []. rewrite app_nil_r. simpl.
    split_and!; [done|done|lia|lia|constructor].
  - unfold bind.
    destruct (extract_page output_dir text_dir acc f σ) as [[e|acc1] σ1] eqn:Hstep;
      [done|].
    intros Hrest.
    destruct (extract_page_inv _ _ _ _ _ _ _ Hstep)
      as (chars & tokens & Hc & He & Ht & Ec & Et & Ep).
    destruct (IH _ _ Hrest) as (new & Ep' & En & Ec' & Et' & Hall).
    exists ((Py.replace ".pdf" ".txt" f, chars, tokens) :: new).
    split_and!.
    + rewrite Ep', Ep. by rewrite <-app_assoc.
    + rewrite !fmap_cons. by rewrite En.
    + rewrite fmap_cons. simpl foldr. simpl fst. simpl snd. lia.
    + rewrite fmap_cons. simpl foldr. simpl snd. lia.
    + constructor; [done|done].
Qed.

Lemma sum_tokens_ge_length (new : list (string * Z * Z)) :
  Forall (λ x, 0 ≤ x.1.2 ∧ token_estimate x.1.2 = Some x.2 ∧ 1 ≤ x.2) new →
  Z.of_nat (length new) ≤ foldr Z.add 0 ((λ x, x.2) <$> new).
Proof.
  induction 1 as [|x l (_ & _ & Hx) _ IH]; [done|].
  rewrite fmap_cons. simpl foldr. simpl length. lia.
Qed.

(** X11: when the extraction returns, it has printed one line per page
    file, in the sorted order of the names; the totals are the sums over
    these lines, every line carries the estimate of its character count,
    which is at least 1, and the average, the total
    of the estimates divided by the number of files, lies between 1 and
    that total. *)
Theorem extract_totals (σ : gmap path node) (output_dir text_dir : path) (s : summary) :
  (extract_text_from_pages output_dir text_dir σ).1 = inr s →
  (λ x, x.1.1) <$> lines s
  = Py.replace ".pdf" ".txt"
      <$> sort_names (pdf_names (entries (ensure_dir text_dir σ).2 output_dir))
  ∧ sum_chars s = foldr Z.add 0 ((λ x, x.1.2) <$> lines s)
  ∧ sum_tokens s = foldr Z.add 0 ((λ x, x.2) <$> lines s)
  ∧ Forall (λ x, 0 ≤ x.1.2 ∧ token_estimate x.1.2 = Some x.2 ∧ 1 ≤ x.2) (lines s)
  ∧ average_tokens s = sum_tokens s / Z.of_nat (length (lines s))
  ∧ 1 ≤ average_tokens s ≤ sum_tokens s.
Proof.
  unfold extract_text_from_pages, bind.
  destruct (ensure_dir text_dir σ) as [[e|[]] σ0]; [done|]. simpl.
  unfold os_listdir. destruct (is_dir σ0 output_dir) eqn:Hd; cycle 1.
  { destruct output_dir as [|c d]; [done|]. by destruct (σ0 !! (c :: d)). }
  set (pdf_files := sort_names (pdf_names (entries σ0 output_dir))).
  destruct (for_fold pdf_files _ _ σ0) as [[e|acc] σ1] eqn:Hloop; [done|].
  unfold floordiv. case_decide as Hn; [done|]. simpl. intros [= <-]. simpl.
  destruct (extract_loop_inv _ _ _ _ _ _ _ Hloop) as (new & Ep & En & Ec & Et & Hall).
  simpl in Ep, Ec, Et. subst new.
  assert (length (printed acc) = length pdf_files) as Hlen.
  { by rewrite <-(length_fmap (λ x, x.1.1)), En, length_fmap. }
  pose proof (sum_tokens_ge_length _ Hall) as Hsum.
  rewrite Hlen in *.
  split_and!; [done|lia|lia|done|done| |].
  - apply Z.div_le_lower_bound; lia.
  - apply Z.div_le_upper_bound; nia.
Qed.
End totals_extras.

Section abort_extras.
Import OS Splitter.
Context `{PyPDF2}.

Lemma for_fold_app {A S} (l1 l2 : list A) (body : S → A → M S) (acc : S)
    (σ : gmap path node) :
  for_fold (l1 ++ l2) body acc σ
  = bind (for_fold l1 body acc) (for_fold l2 body) σ.
Proof.
  revert acc σ. induction l1 as [|x l1 IH]; intros acc σ; simpl.
  - done.
  - unfold bind. destruct (body acc x σ) as [[e|acc1] σ1]; [done|]. apply IH.
Qed.

(** The pass of the loop on a page file whose first page cannot be
    read: nothing is written. *)
Lemma extract_page_unreadable (σ : gmap path node) (output_dir text_dir : path)
    (acc : totals) (f : string) :
  page_text σ output_dir f = None →
  extract_page output_dir text_dir acc f σ
  = (inl match σ !! os_path_join output_dir f with
         | None => missing_error σ (os_path_join output_dir f)
         | Some Dir => IsADirectoryError
         | Some (File data) =>
             match PdfReader data with
             | None => PdfReadError
             | Some _ => IndexError
             end
         end, σ).
Proof.
  unfold page_text, extract_page, read_pdf, read_file, bind, os_path_join.
  destruct (output_dir ++ [f]) as [|c p] eqn:E; [by destruct output_dir|].
  destruct (σ !! (c :: p)) as [[data|]|]; [|done..].
  destruct (PdfReader data) as [[|page rest]|]; done.
Qed.

(** X12: the extraction stops at the first page file, in sorted order,
    whose first page cannot be read: it raises the error of that file (the
    entry is a directory, the reader rejects it, or it has no page), the
    text files of the page files before it are written and stay, nothing
    else is changed, and no totals are printed. *)
Theorem extract_stops_at_unreadable (σ : gmap path node) (output_dir text_dir : path)
    (done_files : list string) (f : string) (rest : list string) :
  dir_available σ text_dir = true → is_dir σ output_dir = true →
  sort_names (pdf_names (entries (ensure_dir text_dir σ).2 output_dir))
  = done_files ++ f :: rest →
  (∀ g, g ∈ done_files → page_file_ready (ensure_dir text_dir σ).2 output_dir text_dir g) →
  page_text (ensure_dir text_dir σ).2 output_dir f = None →
  let σ0 := (ensure_dir text_dir σ).2 in
  let outcome := extract_text_from_pages output_dir text_dir σ in
  outcome.1 = inl match σ0 !! os_path_join output_dir f with
                  | Some (File data) =>
                      match PdfReader data with
                      | None => PdfReadError
                      | Some _ => IndexError
                      end
                  | _ => IsADirectoryError
                  end
  ∧ (∀ g text, g ∈ done_files → page_text σ0 output_dir g = Some text →
       outcome.2 !! os_path_join text_dir (Py.replace ".pdf" ".txt" g)
       = Some (File text))
  ∧ (∀ p, (∀ g, g ∈ done_files → p ≠ text_path text_dir g) →
       outcome.2 !! p = σ0 !! p).
Proof.
  intros Hav Hout Hfiles Hready Hbad σ0 outcome.
  destruct (extract_prologue σ output_dir text_dir Hav Hout)
    as (Hens & Hd0 & Hls & Hadd). fold σ0 in Hens, Hd0, Hls, Hadd, Hfiles, Hready, Hbad.
  destruct (extract_loop_ok output_dir text_dir done_files σ0
              {| total_chars := 0; total_tokens := 0; printed := [] |} Hd0 Hready)
    as (acc & σ1 & Hloop & _ & Hwritten & Hframe).
  assert (f ∈ pdf_names (entries σ0 output_dir)) as Hf.
  { rewrite <-(sort_names_perm (pdf_names _)), Hfiles.
    apply elem_of_app. right. by left. }
  apply list_elem_of_filter in Hf as [Hpdf Hentry].
  assert (σ1 !! os_path_join output_dir f = σ0 !! os_path_join output_dir f) as Hsame.
  { apply Hframe. intros g Hg E. unfold text_path, os_path_join in E.
    apply app_inj_2 in E as [_ [= E]]; [|done].
    apply (f_equal Py.last_char) in E.
    rewrite (endswith_pdf_last_char f Hpdf), last_char_app in E by done.
    discriminate E. }
  assert (page_text σ1 output_dir f = None) as Hbad1.
  { unfold page_text. rewrite Hsame. exact Hbad. }
  assert (is_Some (σ0 !! os_path_join output_dir f)) as [n Hn].
  { apply elem_of_entries in Hentry. unfold os_path_join.
    destruct (σ0 !! (output_dir ++ [f])); [by eexists|done]. }
  assert (outcome
          = (inl match σ0 !! os_path_join output_dir f with
                 | Some (File data) =>
                     match PdfReader data with
                     | None => PdfReadError
                     | Some _ => IndexError
                     end
                 | _ => IsADirectoryError
                 end, σ1)) as ->.
  { unfold outcome, extract_text_from_pages.
    rewrite (bind_inr _ _ σ σ0 tt Hens), (bind_inr _ _ σ0 σ0 _ Hls).
    cbv zeta. rewrite Hfiles. unfold bind at 1.
    rewrite for_fold_app. rewrite (bind_inr _ _ σ0 σ1 acc Hloop).
    simpl for_fold. unfold bind at 1.
    rewrite (extract_page_unreadable σ1 output_dir text_dir acc f Hbad1).
    rewrite Hsame, Hn. by destruct n. }
  simpl. split_and!; [done| |done].
  intros g text Hg Htext.
  rewrite plain_page_name_replace by apply (Hready g Hg).
  by apply Hwritten.
Qed.
End abort_extras.

(** * The script as a whole: splitting, then extracting *)

Section pipeline_extras.
Import OS Splitter.
Context `{PyPDF2}.

Lemma dir_available_intro (σ : gmap path node) (d : path) :
  (∀ k content, σ !! take k d ≠ Some (File content)) → dir_available σ d = true.
Proof.
  intros Hno. unfold dir_available. apply forallb_forall. intros k _.
  apply negb_true_iff. unfold is_file.
  destruct (σ !! take k d) as [[content|]|] eqn:E; [|done..].
  by destruct (Hno k content).
Qed.

Lemma dir_available_elim (σ : gmap path node) (d : path) (k : nat) (content : string) :
  dir_available σ d = true → σ !! take k d ≠ Some (File content).
Proof.
  intros Hav E. unfold dir_available in Hav.
  destruct (decide (k ≤ length d)%nat) as [Hk|Hk].
  - rewrite forallb_forall in Hav. specialize (Hav k).
    rewrite in_seq in Hav. specialize (Hav ltac:(lia)).
    unfold is_file in Hav. by rewrite E in Hav.
  - rewrite forallb_forall in Hav. specialize (Hav (length d)).
    rewrite in_seq in Hav. specialize (Hav ltac:(lia)).
    rewrite take_ge in E by lia. rewrite firstn_all in Hav.
    unfold is_file in Hav. by rewrite E in Hav.
Qed.

Lemma prefix_of_take {A} (k : nat) (l : list A) : take k l `prefix_of` l.
Proof. exists (drop k l). by rewrite take_drop. Qed.

Lemma prefix_of_snoc_l {A} (d1 d2 : list A) (x : A) :
  (d1 ++ [x]) `prefix_of` d2 → d1 `prefix_of` d2.
Proof. intros [r ->]. exists (x :: r). by rewrite <-app_assoc. Qed.

(** The state in which the extraction starts its loop, after a run of the
    splitter into a directory that held no [.pdf] entry but page files of
    the document. *)
Lemma pipeline_state (σ : gmap path node) (input_path output_dir text_dir : path)
    (data : string) (pages : list Page) :
  σ !! input_path = Some (File data) → input_path ≠ [] →
  PdfReader data = Some pages → (length pages ≤ 999)%nat →
  dir_available σ output_dir = true → dir_available σ text_dir = true →
  ¬ output_dir `prefix_of` text_dir → ¬ text_dir `prefix_of` output_dir →
  (∀ i, (i < length pages)%nat → σ !! page_path output_dir i ≠ Some Dir) →
  (∀ f, f ∈ pdf_names (entries σ output_dir) →
     ∃ i, (i < length pages)%nat ∧ f = page_filename i) →
  (∀ i, (i < length pages)%nat →
     σ !! text_path text_dir (page_filename i) ≠ Some Dir) →
  ∃ σ1 σ2,
    split_pdf input_path output_dir σ
    = (inr (page_filename <$> seq 0 (length pages)), σ1)
    ∧ ensure_dir text_dir σ1 = (inr tt, σ2)
    ∧ is_dir σ2 text_dir = true
    ∧ os_listdir output_dir σ2 = (inr (entries σ2 output_dir), σ2)
    ∧ sort_names (pdf_names (entries σ2 output_dir))
      = page_filename <$> seq 0 (length pages)
    ∧ (∀ i page, pages !! i = Some page →
         σ2 !! page_path output_dir i = Some (File (PdfWriter_write [page])))
    ∧ (∀ i, (i < length pages)%nat →
         σ2 !! text_path text_dir (page_filename i) ≠ Some Dir)
    ∧ (∀ p, (∀ i, (i < length pages)%nat → p ≠ page_path output_dir i) →
         σ2 !! p = σ !! p
         ∨ (σ !! p = None ∧ σ2 !! p = Some Dir
            ∧ (p `prefix_of` output_dir ∧ is_dir σ output_dir = false
               ∨ p `prefix_of` text_dir ∧ is_dir σ text_dir = false))).
Proof.
  intros Hsrc Hne Hread Hmax Hav_out Hav_txt Hsep1 Hsep2 Hnodir Hclean Htxt.
  destruct (split_pdf_ok σ input_path output_dir data pages)
    as (σ0 & σ1 & Hens & Hadd & Hrun & Hd1 & Hwritten & Hframe); [done..|].
  pose proof (split_pdf_names σ σ0 σ1 output_dir pages Hadd Hwritten Hframe Hclean)
    as Hnames1.
  assert (dir_available σ1 text_dir = true) as Hav1.
  { apply dir_available_intro. intros k content E.
    destruct (decide (take k text_dir
                      ∈ page_path output_dir <$> seq 0 (length pages)))
      as [(i & Ei & Hi)%list_elem_of_fmap|Hnot].
    - apply Hsep1, (prefix_of_snoc_l _ _ (page_filename i)).
      unfold page_path, os_path_join in Ei. rewrite <-Ei. apply prefix_of_take.
    - rewrite Hframe in E.
      2:{ intros i Hi Ei. apply Hnot, list_elem_of_fmap. exists i.
          split; [done|]. apply elem_of_seq. lia. }
      apply (only_dirs_added_file_inv output_dir σ σ0) in E; [|done].
      by apply (dir_available_elim σ text_dir k content). }
  destruct (ensure_dir_available text_dir σ1 Hav1) as (σ2 & Hens2 & Hd2 & Hadd2).
  assert (∀ name, σ2 !! (output_dir ++ [name]) = σ1 !! (output_dir ++ [name])) as Hsame.
  { intros name. apply (only_dirs_added_other text_dir); [done|].
    intros Hp. by apply Hsep1, (prefix_of_snoc_l _ _ name). }
  exists σ1, σ2. split_and!.
  - rewrite Hrun. do 2 f_equal.
    apply sorted_page_names; [done| | |].
    + apply Sorted_pdf_names, (Sorted_merge_sort String.le).
    + apply NoDup_filter. unfold sort_names.
      rewrite merge_sort_Permutation. apply NoDup_entries.
    + intros f. rewrite <-(Hnames1 f).
      unfold pdf_names. rewrite !list_elem_of_filter. unfold sort_names.
      by rewrite merge_sort_Permutation.
  - done.
  - done.
  - apply os_listdir_ok. by apply (only_dirs_added_dir text_dir σ1).
  - apply sorted_page_names; [done| | |].
    + apply (Sorted_merge_sort String.le).
    + apply NoDup_pdf_files.
    + intros f. rewrite <-(Hnames1 f), sort_names_perm.
      unfold pdf_names. rewrite !list_elem_of_filter, !elem_of_entries.
      by rewrite Hsame.
  - intros i page Hpage. apply (only_dirs_added_file text_dir σ1); [done|].
    by apply Hwritten.
  - intros i Hi.
    rewrite (only_dirs_added_other text_dir σ1 σ2); [|done|].
    2:{ unfold text_path, os_path_join. intros Hp%prefix_length.
        rewrite length_app in Hp. simpl in Hp. lia. }
    rewrite Hframe.
    + rewrite (only_dirs_added_other output_dir σ σ0); [by apply Htxt|done|].
      unfold text_path, os_path_join. intros Hp.
      by apply Hsep2, (prefix_of_snoc_l _ _ _ Hp).
    + intros j _. apply text_path_ne_page, page_filename_plain.
  - intros p Hp.
    assert (σ0 !! p = σ !! p
            ∨ (σ !! p = None ∧ σ0 !! p = Some Dir
               ∧ p `prefix_of` output_dir ∧ is_dir σ output_dir = false)) as HA.
    { destruct (is_dir σ output_dir) eqn:Hd.
      - rewrite (ensure_dir_present output_dir σ Hd) in Hens.
        injection Hens as <-. by left.
      - destruct (Hadd p) as [E|(E1 & E2 & E3)]; [by left|by right]. }
    assert (σ2 !! p = σ1 !! p
            ∨ (σ1 !! p = None ∧ σ2 !! p = Some Dir
               ∧ p `prefix_of` text_dir ∧ is_dir σ text_dir = false)) as HC.
    { destruct (is_dir σ text_dir) eqn:Hd.
      - assert (is_dir σ1 text_dir = true) as Hd1'.
        { apply (only_dirs_added_dir output_dir σ σ0) in Hd; [|done].
          unfold is_dir in *. destruct text_dir as [|c d]; [done|].
          rewrite Hframe; [done|]. intros i _ E.
          apply Hsep1. rewrite E. unfold page_path, os_path_join.
          by apply prefix_app_r. }
        rewrite (ensure_dir_present text_dir σ1 Hd1') in Hens2.
        injection Hens2 as <-. by left.
      - destruct (Hadd2 p) as [E|(E1 & E2 & E3)]; [by left|by right]. }
    rewrite <-(Hframe p Hp) in HA.
    destruct HA as [EA|(EA1 & EA2 & EA3 & EA4)], HC as [EC|(EC1 & EC2 & EC3 & EC4)].
    + left. congruence.
    + right. split_and!; [congruence|done|by right].
    + right. split_and!; [done|congruence|by left].
    + congruence.
Qed.

Lemma page_file_ready_insert (σ : gmap path node) (output_dir text_dir : path)
    (f g text : string) :
  page_file_ready σ output_dir text_dir g →
  page_file_ready (<[text_path text_dir f := File text]> σ) output_dir text_dir g.
Proof.
  intros (Hplain & t & Ht & Hlen & Hnodir). split; [done|]. exists t.
  split_and!; [|done|].
  - rewrite page_text_insert; [done|]. by apply text_path_ne_page.
  - destruct (decide (text_path text_dir g = text_path text_dir f)) as [->|Hne].
    + by rewrite lookup_insert_eq.
    + by rewrite lookup_insert_ne.
Qed.

(** The lines printed by the loop: the name of the text file and the
    length of the text of the page, file by file. *)
Lemma extract_loop_lines (output_dir text_dir : path) (l : list string)
    (σ σ' : gmap path node) (acc acc' : totals) :
  is_dir σ text_dir = true →
  (∀ f, f ∈ l → page_file_ready σ output_dir text_dir f) →
  for_fold l (extract_page output_dir text_dir) acc σ = (inr acc', σ') →
  (λ x, (x.1.1, x.1.2)) <$> printed acc'
  = ((λ x, (x.1.1, x.1.2)) <$> printed acc)
    ++ ((λ f, (base_name f +:+ ".txt",
               Z.of_nat (String.length (default "" (page_text σ output_dir f)))))
          <$> l).
Proof.
  revert σ acc. induction l as [|f l IH]; intros σ acc Hd Hready; simpl.
  - intros [= <- <-]. by rewrite app_nil_r.
  - destruct (Hready f ltac:(by left)) as (Hplain & text & Htext & Hlen & Hnodir).
    destruct (extract_page_ok σ output_dir text_dir acc f text)
      as (tokens & _ & Hstep); [done..|].
    rewrite (bind_inr _ _ σ _ _ Hstep). intros Hrun.
    apply IH in Hrun.
    + rewrite Hrun. simpl. rewrite fmap_app, <-app_assoc. simpl.
      rewrite Htext. simpl. do 2 f_equal.
      apply Forall_fmap_ext_1, Forall_forall. intros g Hg.
      rewrite page_text_insert; [done|].
      apply text_path_ne_page, (Hready g). by right.
    + rewrite is_dir_insert_file; [done|apply text_path_ne_dir].
    + intros g Hg. apply page_file_ready_insert, Hready. by right.
Qed.
End pipeline_extras.

Section main_extras.
Import OS Splitter Script.
Context `{PyPDF2}.

(** X13: run in a directory that holds a readable source of
    [1 <= N <= 999] pages, where nothing bars the directories [pdf_pages]
    and [pdf_text], [pdf_pages] holds no [.pdf] entry but page files of the
    first [N] pages and no directory bears the name of a page or text
    file, with a library whose writer and reader round-trip single pages,
    the script succeeds: [pdf_pages/page_00k.pdf] holds page [k] alone,
    [pdf_text/page_00k.txt] holds the text of page [k], and the summary
    lists the text files in page order with the lengths of the page
    texts. *)
Theorem main_round_trip (σ : gmap path node) (data : string) (pages : list Page) :
  σ !! default_input_pdf = Some (File data) →
  PdfReader data = Some pages →
  (0 < length pages ≤ 999)%nat →
  (∀ page, page ∈ pages → PdfReader (PdfWriter_write [page]) = Some [page]) →
  (∀ page, page ∈ pages → Z.of_nat (String.length (extract_text page)) < 2 ^ 63) →
  dir_available σ default_output_dir = true →
  dir_available σ default_text_dir = true →
  (∀ i, (i < length pages)%nat → σ !! page_path default_output_dir i ≠ Some Dir) →
  (∀ f, f ∈ pdf_names (entries σ default_output_dir) →
     ∃ i, (i < length pages)%nat ∧ f = page_filename i) →
  (∀ i, (i < length pages)%nat →
     σ !! os_path_join default_text_dir ("page_" +:+ format_03d (i + 1) +:+ ".txt")
     ≠ Some Dir) →
  ∃ s,
    (main σ).1 = inr (Some s)
    ∧ (λ x, x.1.1) <$> lines s
      = (λ i, "page_" +:+ format_03d (i + 1) +:+ ".txt") <$> seq 0 (length pages)
    ∧ (λ x, x.1.2) <$> lines s
      = (λ page, Z.of_nat (String.length (extract_text page))) <$> pages
    ∧ (∀ i page, pages !! i = Some page →
         (main σ).2 !! page_path default_output_dir i
         = Some (File (PdfWriter_write [page]))
         ∧ (main σ).2
             !! os_path_join default_text_dir
                  ("page_" +:+ format_03d (i + 1) +:+ ".txt")
           = Some (File (extract_text page))).
Proof.
  intros Hsrc Hread [Hpos Hmax] Hround Hlen Hav_out Hav_txt Hnodir Hclean Htxt.
  destruct (pipeline_state σ default_input_pdf default_output_dir default_text_dir
              data pages)
    as (σ1 & σ2 & Hrun & Hens2 & Hd2 & Hls & Hsort & Hpages2 & Hfresh2 & _);
    [done|done|done|done|done|done| | |done|done| |].
  { intros [r E]. discriminate E. }
  { intros [r E]. discriminate E. }
  { intros i Hi. unfold text_path.
    rewrite page_filename_base, string_app_assoc. by apply Htxt. }
  set (files := page_filename <$> seq 0 (length pages)) in *.
  assert (∀ i page, pages !! i = Some page →
            page_text σ2 default_output_dir (page_filename i)
            = Some (extract_text page)) as Htexts.
  { intros i page Hpage. unfold page_text.
    pose proof (Hpages2 i page Hpage) as Hfile. unfold page_path in Hfile.
    rewrite Hfile, Hround; [done|]. by eapply list_elem_of_lookup_2. }
  assert (∀ f, f ∈ files → page_file_ready σ2 default_output_dir default_text_dir f)
    as Hready.
  { intros f (i & Hi & ->)%elem_of_page_names.
    destruct (lookup_lt_is_Some_2 pages i Hi) as [page Hpage].
    split; [apply page_filename_plain|]. exists (extract_text page).
    split_and!.
    - by apply Htexts.
    - apply Hlen. by eapply list_elem_of_lookup_2.
    - by apply Hfresh2. }
  destruct (extract_loop_ok default_output_dir default_text_dir files σ2
              {| total_chars := 0; total_tokens := 0; printed := [] |} Hd2 Hready)
    as (acc & σ3 & Hloop & Hprinted & Hwritten & Hframe).
  pose proof (extract_loop_lines _ _ _ _ _ _ _ Hd2 Hready Hloop) as Hlines.
  simpl in Hprinted, Hlines.
  set (s := {| lines := printed acc;
               sum_chars := total_chars acc;
               sum_tokens := total_tokens acc;
               average_tokens := total_tokens acc / Z.of_nat (length files) |}).
  assert (main σ = (inr (Some s), σ3)) as Hmain.
  { unfold main, bind at 1, os_path_exists.
    assert (exists_at σ default_input_pdf = true) as ->.
    { unfold exists_at, default_input_pdf.
      apply bool_decide_eq_true. by eexists. }
    rewrite (bind_inr _ _ σ σ1 _ Hrun).
    unfold extract_text_from_pages.
    unfold bind at 1.
    rewrite (bind_inr _ _ σ1 σ2 tt Hens2), (bind_inr _ _ σ2 σ2 _ Hls).
    cbv zeta. rewrite Hsort. fold files.
    rewrite (bind_inr _ _ σ2 σ3 acc Hloop).
    unfold bind, floordiv. case_decide as Hn; [|done].
    unfold files in Hn. rewrite length_fmap, length_seq in Hn. lia. }
  exists s. rewrite Hmain. simpl. split_and!; [done| | |].
  - rewrite Hprinted. unfold files. rewrite <-list_fmap_compose.
    apply Forall_fmap_ext_1, Forall_forall. intros i _. simpl.
    by rewrite page_filename_base, <-string_app_assoc.
  - apply (f_equal (fmap snd)) in Hlines.
    rewrite <-!list_fmap_compose in Hlines.
    etrans; [exact Hlines|]. unfold files. rewrite <-list_fmap_compose.
    apply list_eq. intros i. rewrite !list_lookup_fmap.
    destruct (pages !! i) as [page|] eqn:Hpage.
    + rewrite lookup_seq_lt by (by eapply lookup_lt_Some). simpl.
      by rewrite (Htexts i page Hpage).
    + apply lookup_ge_None in Hpage. by rewrite lookup_seq_ge.
  - intros i page Hpage.
    assert (page_filename i ∈ files) as Hin.
    { apply elem_of_page_names. exists i. split; [|done]. by eapply lookup_lt_Some. }
    split.
    + rewrite Hframe; [by apply Hpages2|].
      intros g _. apply not_eq_sym, text_path_ne_page, page_filename_plain.
    + pose proof (Hwritten _ _ Hin (Htexts i page Hpage)) as Hw.
      unfold text_path in Hw.
      by rewrite page_filename_base, string_app_assoc in Hw.
Qed.

Lemma prefix_of_singleton (p : path) (c : string) :
  p `prefix_of` [c] → p = [] ∨ p = [c].
Proof.
  intros [r E]. destruct p as [|x [|y p]]; [by left| |discriminate E].
  right. by injection E as <- _.
Qed.

(** X14: on a source that the reader accepts and that has no page, with
    no [.pdf] entry in [pdf_pages], the script creates the two directories,
    writes no file and stops with [ZeroDivisionError] when the extraction
    computes the average. *)
Theorem main_empty_document (σ : gmap path node) (data : string) :
  σ !! default_input_pdf = Some (File data) →
  PdfReader data = Some [] →
  dir_available σ default_output_dir = true →
  dir_available σ default_text_dir = true →
  pdf_names (entries σ default_output_dir) = [] →
  (main σ).1 = inl ZeroDivisionError
  ∧ is_dir (main σ).2 default_output_dir = true
  ∧ is_dir (main σ).2 default_text_dir = true
  ∧ (∀ p, p ≠ [] → p ≠ default_output_dir → p ≠ default_text_dir →
       (main σ).2 !! p = σ !! p).
Proof.
  intros Hsrc Hread Hav_out Hav_txt Hnone.
  destruct (pipeline_state σ default_input_pdf default_output_dir default_text_dir
              data [])
    as (σ1 & σ2 & Hrun & Hens2 & Hd2 & Hls & Hsort & _ & _ & Hframe);
    [done|done|done|simpl; lia|done|done| | | | | |].
  { intros [r E]. discriminate E. }
  { intros [r E]. discriminate E. }
  { intros i Hi. simpl in Hi. lia. }
  { intros f Hf. rewrite Hnone in Hf. by apply elem_of_nil in Hf. }
  { intros i Hi. simpl in Hi. lia. }
  assert (main σ = (inl ZeroDivisionError, σ2)) as ->.
  { unfold main, bind at 1, os_path_exists.
    assert (exists_at σ default_input_pdf = true) as ->.
    { unfold exists_at, default_input_pdf.
      apply bool_decide_eq_true. by eexists. }
    rewrite (bind_inr _ _ σ σ1 _ Hrun).
    unfold extract_text_from_pages.
    unfold bind at 1.
    rewrite (bind_inr _ _ σ1 σ2 tt Hens2), (bind_inr _ _ σ2 σ2 _ Hls).
    cbv zeta. rewrite Hsort. done. }
  assert (is_dir σ2 default_output_dir = true) as Hd_out.
  { unfold os_listdir in Hls.
    destruct (is_dir σ2 default_output_dir) eqn:E; [done|].
    unfold default_output_dir in Hls. by destruct (σ2 !! ["pdf_pages"]). }
  cbn [fst snd]. split_and!; [done..|].
  intros p Hp1 Hp2 Hp3.
  destruct (Hframe p) as [E|(_ & _ & [[Hp _]|[Hp _]])]; [|done|..].
  - intros i Hi. simpl in Hi. lia.
  - by apply prefix_of_singleton in Hp as [->| ->].
  - by apply prefix_of_singleton in Hp as [->| ->].
Qed.
End main_extras.

(** * What the extraction leaves alone *)

Section replace_facts.

Lemma startswith_inv (p s : string) :
  Py.startswith p s = true → ∃ x, s = p +:+ x.
Proof.
  revert s. induction p as [|a p IH]; intros s; [by exists s|].
  destruct s as [|b s]; [done|]. simpl.
  destruct (Ascii.eqb_spec a b) as [<-|]; [|done].
  intros (x & ->)%IH. by exists x.
Qed.

Lemma endswith_inv (p s : string) :
  Py.endswith p s = true → ∃ a, s = a +:+ p.
Proof.
  unfold Py.endswith. intros (x & Hx)%startswith_inv. exists (String.rev x).
  by rewrite <-(rev_involutive s), Hx, rev_append, rev_involutive.
Qed.

Lemma string_app_cons (c : ascii) (a b : string) :
  String c a +:+ b = String c (a +:+ b).
Proof. done. Qed.

Lemma string_app_nil_l (b : string) : "" +:+ b = b.
Proof. done. Qed.

(** An occurrence of [.pdf] at the head of [a.pdf] lies in [a], unless
    [a] is empty. *)
Lemma startswith_pdf_stem (a : string) :
  a ≠ EmptyString → Py.startswith ".pdf" (a +:+ ".pdf") = true →
  ∃ a', a = ".pdf" +:+ a'.
Proof.
  intros Ha Hs.
  destruct a as [|c1 [|c2 [|c3 [|c4 a']]]]; [done|..];
    rewrite ?string_app_cons, ?string_app_nil_l in Hs;
    cbn [Py.startswith] in Hs;
    repeat match type of Hs with
           | context [Ascii.eqb ?x ?y] =>
               destruct (Ascii.eqb_spec x y) as [E|E];
               [try discriminate E; subst|done]
           end; try done.
  by exists a'.
Qed.

Lemma last_char_cons (c : ascii) (s : string) :
  s ≠ EmptyString → Py.last_char (String c s) = Py.last_char s.
Proof. by destruct s. Qed.

Lemma last_char_nonempty (s : string) (c : ascii) :
  Py.last_char s = Some c → s ≠ EmptyString.
Proof. by intros Hs ->. Qed.

Lemma replace_pdf_stem_last_char (n : nat) (a : string) :
  (String.length a ≤ n)%nat →
  Py.last_char (Py.replace_go ".pdf" ".txt" 0 (a +:+ ".pdf")) = Some "t"%char.
Proof.
  revert a. induction n as [|n IH]; intros a Hn.
  { destruct a; [done|simpl in Hn; lia]. }
  destruct a as [|c a]; [done|].
  change (String c a +:+ ".pdf") with (String c (a +:+ ".pdf")).
  cbn [Py.replace_go].
  destruct (Py.startswith ".pdf" (String c (a +:+ ".pdf"))) eqn:Hs.
  - destruct (startswith_pdf_stem (String c a)) as (a' & Ea); [done|done|].
    injection Ea as -> ->.
    assert (String.length a' ≤ n)%nat as Hn'.
    { rewrite ?string_app_cons, ?string_app_nil_l in Hn. simpl in Hn. lia. }
    change (Py.replace_go ".pdf" ".txt" (Nat.pred (String.length ".pdf"))
              ("pdf" +:+ a' +:+ ".pdf"))
      with (Py.replace_go ".pdf" ".txt" 0 (a' +:+ ".pdf")).
    rewrite last_char_app.
    + by apply IH.
    + by eapply last_char_nonempty, IH.
  - rewrite last_char_cons.
    + apply IH. simpl in Hn. lia.
    + eapply last_char_nonempty, IH. simpl in Hn. lia.
Qed.

(** Whatever else [replace] rewrites in it, a name that ends with [.pdf]
    becomes a name that ends with the letter [t]. *)
Lemma replace_pdf_last_char (f : string) :
  Py.endswith ".pdf" f = true →
  Py.last_char (Py.replace ".pdf" ".txt" f) = Some "t"%char.
Proof.
  intros (a & ->)%endswith_inv. by apply (replace_pdf_stem_last_char (String.length a)).
Qed.
End replace_facts.

Section frame_extras.
Import OS Splitter.
Context `{PyPDF2}.

Lemma extract_page_frame (output_dir text_dir : path) (acc : totals) (f : string)
    (σ : gmap path node) (q : path) :
  q ≠ os_path_join text_dir (Py.replace ".pdf" ".txt" f) →
  (extract_page output_dir text_dir acc f σ).2 !! q = σ !! q.
Proof.
  intros Hq. unfold extract_page, bind.
  pose proof (read_pdf_state (os_path_join output_dir f) σ) as Hs.
  destruct (read_pdf (os_path_join output_dir f) σ) as [[e|pages] σ1];
    simpl in Hs; subst σ1; [done|].
  destruct (pages !! 0%nat) as [page|]; simpl; [|done].
  pose proof (write_file_frame
                (os_path_join text_dir (Py.replace ".pdf" ".txt" f))
                (extract_text page) σ q Hq) as Hw.
  destruct (write_file _ _ σ) as [[e|[]] σ2]; simpl in Hw; [done|].
  by destruct (token_estimate _).
Qed.

Lemma extract_loop_frame (output_dir text_dir : path) (l : list string)
    (acc : totals) (σ : gmap path node) (q : path) :
  (∀ f, f ∈ l → q ≠ os_path_join text_dir (Py.replace ".pdf" ".txt" f)) →
  (for_fold l (extract_page output_dir text_dir) acc σ).2 !! q = σ !! q.
Proof.
  revert acc σ. induction l as [|f l IH]; intros acc σ Hq; [done|].
  simpl. unfold bind.
  pose proof (extract_page_frame output_dir text_dir acc f σ q
                (Hq f ltac:(by left))) as Hstep.
  destruct (extract_page output_dir text_dir acc f σ) as [[e|acc1] σ1];
    simpl in Hstep; [done|].
  rewrite IH; [done|]. intros g Hg. apply Hq. by right.
Qed.

(** X15: whatever its outcome, the extraction changes nothing but the
    text files named after the [.pdf] entries of the pages directory and
    the directories it creates on the way to the text directory; a file
    whose name ends with [.pdf] keeps its content, wherever it lies, also
    when pages and texts share one directory. *)
Theorem extract_keeps_pdf_files (σ : gmap path node) (output_dir text_dir : path) :
  let σ0 := (ensure_dir text_dir σ).2 in
  let outcome := extract_text_from_pages output_dir text_dir σ in
  (∀ p, (∀ f, f ∈ pdf_names (entries σ0 output_dir) →
           p ≠ os_path_join text_dir (Py.replace ".pdf" ".txt" f)) →
     outcome.2 !! p = σ !! p
     ∨ (σ !! p = None ∧ outcome.2 !! p = Some Dir ∧ p `prefix_of` text_dir))
  ∧ (∀ (d : path) (name content : string),
       Py.endswith ".pdf" name = true →
       σ !! os_path_join d name = Some (File content) →
       outcome.2 !! os_path_join d name = Some (File content)).
Proof.
  intros σ0 outcome.
  assert (∀ p, (∀ f, f ∈ pdf_names (entries σ0 output_dir) →
                  p ≠ os_path_join text_dir (Py.replace ".pdf" ".txt" f)) →
            outcome.2 !! p = σ0 !! p) as Hframe.
  { intros p Hp. unfold outcome, extract_text_from_pages, bind. fold σ0.
    destruct (ensure_dir text_dir σ) as [[e|[]] σ0'] eqn:Hens;
      subst σ0; simpl in *; [done|].
    pose proof (os_listdir_state output_dir σ0') as Hls.
    unfold os_listdir in *.
    destruct (is_dir σ0' output_dir); cycle 1.
    { destruct output_dir as [|c d]; [|by destruct (σ0' !! (c :: d))].
      simpl. done. }
    simpl.
    pose proof (extract_loop_frame output_dir text_dir
                  (sort_names (pdf_names (entries σ0' output_dir)))
                  {| total_chars := 0; total_tokens := 0; printed := [] |} σ0' p)
      as Hloop.
    destruct (for_fold _ _ _ σ0') as [[e|acc] σ1]; simpl in Hloop.
    - apply Hloop. intros f Hf. apply Hp. by rewrite sort_names_perm in Hf.
    - unfold floordiv. case_decide; simpl; apply Hloop;
        intros f Hf; apply Hp; by rewrite sort_names_perm in Hf. }
  pose proof (ensure_dir_frame text_dir σ) as Hadd. fold σ0 in Hadd.
  split.
  - intros p Hp. rewrite (Hframe p Hp). apply Hadd.
  - intros d name content Hpdf Hfile. rewrite Hframe.
    + by apply (only_dirs_added_file text_dir σ).
    + intros f [Hf _]%list_elem_of_filter E.
      unfold os_path_join in E. apply app_inj_2 in E as [_ [= E]]; [|done].
      apply (f_equal Py.last_char) in E.
      rewrite (endswith_pdf_last_char name Hpdf), (replace_pdf_last_char f Hf) in E.
      discriminate E.
Qed.
End frame_extras.

(** * Running the script again *)

Section rerun_extras.
Import OS Splitter Script.
Context `{PyPDF2}.

Lemma text_path_page (text_dir : path) (i : nat) :
  text_path text_dir (page_filename i)
  = os_path_join text_dir ("page_" +:+ format_03d (i + 1) +:+ ".txt").
Proof. unfold text_path. by rewrite page_filename_base, string_app_assoc. Qed.

(** Printed lines with the same names and character counts are the same
    lines, as the estimate is computed from the count. *)
Lemma lines_determined (a b : list (string * Z * Z)) :
  (λ x, x.1.1) <$> a = (λ x, x.1.1) <$> b →
  (λ x, x.1.2) <$> a = (λ x, x.1.2) <$> b →
  Forall (λ x, token_estimate x.1.2 = Some x.2) a →
  Forall (λ x, token_estimate x.1.2 = Some x.2) b →
  a = b.
Proof.
  revert b. induction a as [|[[n c] t] a IH]; intros [|[[n' c'] t'] b];
    rewrite ?fmap_nil, ?fmap_cons; intros Hn Hc Ha Hb; try done.
  apply Forall_cons in Ha as [Ht Ha]. apply Forall_cons in Hb as [Ht' Hb].
  simpl in *. injection Hn as -> Hn. injection Hc as -> Hc.
  f_equal; [congruence|]. by apply IH.
Qed.

(** A run of the script under the conditions of the round trip: the
    summary, the files and what else has changed. *)
Lemma main_run (σ : gmap path node) (data : string) (pages : list Page) :
  σ !! default_input_pdf = Some (File data) →
  PdfReader data = Some pages →
  (0 < length pages ≤ 999)%nat →
  (∀ page, page ∈ pages → PdfReader (PdfWriter_write [page]) = Some [page]) →
  (∀ page, page ∈ pages → Z.of_nat (String.length (extract_text page)) < 2 ^ 63) →
  dir_available σ default_output_dir = true →
  dir_available σ default_text_dir = true →
  (∀ i, (i < length pages)%nat → σ !! page_path default_output_dir i ≠ Some Dir) →
  (∀ f, f ∈ pdf_names (entries σ default_output_dir) →
     ∃ i, (i < length pages)%nat ∧ f = page_filename i) →
  (∀ i, (i < length pages)%nat →
     σ !! text_path default_text_dir (page_filename i) ≠ Some Dir) →
  ∃ s σ3,
    main σ = (inr (Some s), σ3)
    ∧ (λ x, x.1.1) <$> lines s
      = (λ f, base_name f +:+ ".txt") <$> (page_filename <$> seq 0 (length pages))
    ∧ (λ x, x.1.2) <$> lines s
      = (λ page, Z.of_nat (String.length (extract_text page))) <$> pages
    ∧ Forall (λ x, token_estimate x.1.2 = Some x.2) (lines s)
    ∧ sum_chars s = foldr Z.add 0 ((λ x, x.1.2) <$> lines s)
    ∧ sum_tokens s = foldr Z.add 0 ((λ x, x.2) <$> lines s)
    ∧ average_tokens s = sum_tokens s / Z.of_nat (length pages)
    ∧ (∀ i page, pages !! i = Some page →
         σ3 !! page_path default_output_dir i = Some (File (PdfWriter_write [page]))
         ∧ σ3 !! text_path default_text_dir (page_filename i)
           = Some (File (extract_text page)))
    ∧ is_dir σ3 default_output_dir = true
    ∧ is_dir σ3 default_text_dir = true
    ∧ (∀ p, (∀ i, (i < length pages)%nat → p ≠ page_path default_output_dir i) →
         (∀ i, (i < length pages)%nat →
            p ≠ text_path default_text_dir (page_filename i)) →
         σ3 !! p = σ !! p
         ∨ (σ !! p = None ∧ σ3 !! p = Some Dir
            ∧ (p `prefix_of` default_output_dir ∧ is_dir σ default_output_dir = false
               ∨ p `prefix_of` default_text_dir
                 ∧ is_dir σ default_text_dir = false))).
Proof.
  intros Hsrc Hread [Hpos Hmax] Hround Hlen Hav_out Hav_txt Hnodir Hclean Htxt.
  destruct (pipeline_state σ default_input_pdf default_output_dir default_text_dir
              data pages)
    as (σ1 & σ2 & Hrun & Hens2 & Hd2 & Hls & Hsort & Hpages2 & Hfresh2 & Hframe2);
    [done|done|done|done|done|done| | |done|done|done|].
  { intros [r E]. discriminate E. }
  { intros [r E]. discriminate E. }
  set (files := page_filename <$> seq 0 (length pages)) in *.
  assert (∀ i page, pages !! i = Some page →
            page_text σ2 default_output_dir (page_filename i)
            = Some (extract_text page)) as Htexts.
  { intros i page Hpage. unfold page_text.
    pose proof (Hpages2 i page Hpage) as Hfile. unfold page_path in Hfile.
    rewrite Hfile, Hround; [done|]. by eapply list_elem_of_lookup_2. }
  assert (∀ f, f ∈ files → page_file_ready σ2 default_output_dir default_text_dir f)
    as Hready.
  { intros f (i & Hi & ->)%elem_of_page_names.
    destruct (lookup_lt_is_Some_2 pages i Hi) as [page Hpage].
    split; [apply page_filename_plain|]. exists (extract_text page).
    split_and!.
    - by apply Htexts.
    - apply Hlen. by eapply list_elem_of_lookup_2.
    - by apply Hfresh2. }
  destruct (extract_loop_ok default_output_dir default_text_dir files σ2
              {| total_chars := 0; total_tokens := 0; printed := [] |} Hd2 Hready)
    as (acc & σ3 & Hloop & Hprinted & Hwritten & Hframe).
  pose proof (extract_loop_lines _ _ _ _ _ _ _ Hd2 Hready Hloop) as Hlines.
  destruct (extract_loop_inv _ _ _ _ _ _ _ Hloop) as (new & Enew & _ & Ec & Et & Hall).
  simpl in Hprinted, Hlines, Enew, Ec, Et. subst new.
  set (s := {| lines := printed acc;
               sum_chars := total_chars acc;
               sum_tokens := total_tokens acc;
               average_tokens := total_tokens acc / Z.of_nat (length files) |}).
  assert (length files = length pages) as Hlenf.
  { unfold files. by rewrite length_fmap, length_seq. }
  assert (main σ = (inr (Some s), σ3)) as Hmain.
  { unfold main, bind at 1, os_path_exists.
    assert (exists_at σ default_input_pdf = true) as ->.
    { unfold exists_at, default_input_pdf.
      apply bool_decide_eq_true. by eexists. }
    rewrite (bind_inr _ _ σ σ1 _ Hrun).
    unfold extract_text_from_pages.
    unfold bind at 1.
    rewrite (bind_inr _ _ σ1 σ2 tt Hens2), (bind_inr _ _ σ2 σ2 _ Hls).
    cbv zeta. rewrite Hsort. fold files.
    rewrite (bind_inr _ _ σ2 σ3 acc Hloop).
    unfold bind, floordiv. case_decide as Hn; [|done]. lia. }
  assert (is_dir σ2 default_output_dir = true) as Hd_out.
  { unfold os_listdir in Hls.
    destruct (is_dir σ2 default_output_dir) eqn:E; [done|].
    unfold default_output_dir in Hls. by destruct (σ2 !! ["pdf_pages"]). }
  exists s, σ3. split_and!; [done|done| |..].
  - apply (f_equal (fmap snd)) in Hlines.
    rewrite <-!list_fmap_compose in Hlines.
    etrans; [exact Hlines|]. unfold files. rewrite <-list_fmap_compose.
    apply list_eq. intros i. rewrite !list_lookup_fmap.
    destruct (pages !! i) as [page|] eqn:Hpage.
    + rewrite lookup_seq_lt by (by eapply lookup_lt_Some). simpl.
      by rewrite (Htexts i page Hpage).
    + apply lookup_ge_None in Hpage. by rewrite lookup_seq_ge.
  - eapply Forall_impl; [exact Hall|]. by intros x (_ & Hx & _).
  - simpl. lia.
  - simpl. lia.
  - simpl. by rewrite Hlenf.
  - intros i page Hpage.
    assert (page_filename i ∈ files) as Hin.
    { apply elem_of_page_names. exists i. split; [|done]. by eapply lookup_lt_Some. }
    split.
    + rewrite Hframe; [by apply Hpages2|].
      intros g _. apply not_eq_sym, text_path_ne_page, page_filename_plain.
    + exact (Hwritten _ _ Hin (Htexts i page Hpage)).
  - unfold is_dir, default_output_dir in *. rewrite Hframe; [done|].
    intros f _ E. unfold text_path, os_path_join in E. discriminate E.
  - unfold is_dir, default_text_dir in *. rewrite Hframe; [done|].
    intros f _ E. unfold text_path, os_path_join in E. discriminate E.
  - intros p Hp1 Hp2. rewrite Hframe; [by apply Hframe2|].
    intros f (i & Hi & ->)%elem_of_page_names. by apply Hp2.
Qed.

(** X16: under the conditions of the round trip, running the script a
    second time prints the same summary and leaves every file and
    directory as the first run left it. *)
Theorem main_rerun (σ : gmap path node) (data : string) (pages : list Page) :
  σ !! default_input_pdf = Some (File data) →
  PdfReader data = Some pages →
  (0 < length pages ≤ 999)%nat →
  (∀ page, page ∈ pages → PdfReader (PdfWriter_write [page]) = Some [page]) →
  (∀ page, page ∈ pages → Z.of_nat (String.length (extract_text page)) < 2 ^ 63) →
  dir_available σ default_output_dir = true →
  dir_available σ default_text_dir = true →
  (∀ i, (i < length pages)%nat → σ !! page_path default_output_dir i ≠ Some Dir) →
  (∀ f, f ∈ pdf_names (entries σ default_output_dir) →
     ∃ i, (i < length pages)%nat ∧ f = page_filename i) →
  (∀ i, (i < length pages)%nat →
     σ !! os_path_join default_text_dir ("page_" +:+ format_03d (i + 1) +:+ ".txt")
     ≠ Some Dir) →
  ∃ s,
    (main σ).1 = inr (Some s)
    ∧ main (main σ).2 = (inr (Some s), (main σ).2).
Proof.
  intros Hsrc Hread Hn Hround Hlen Hav_out Hav_txt Hnodir Hclean Htxt.
  assert (∀ i, (i < length pages)%nat →
            σ !! text_path default_text_dir (page_filename i) ≠ Some Dir) as Htxt'.
  { intros i Hi. rewrite text_path_page. by apply Htxt. }
  destruct (main_run σ data pages)
    as (s & σ3 & Hmain & Hnames & Hchars & Htok & Hsc & Hst & Havg
        & Hfiles & Hd_out & Hd_txt & Hframe); [done..|].
  assert (∀ p, (∀ i, (i < length pages)%nat → p ≠ page_path default_output_dir i) →
            (∀ i, (i < length pages)%nat →
               p ≠ text_path default_text_dir (page_filename i)) →
            ∀ content, σ3 !! p = Some (File content) → σ !! p = Some (File content))
    as Hfile_inv.
  { intros p Hp1 Hp2 content E.
    destruct (Hframe p Hp1 Hp2) as [E'|(_ & E' & _)]; congruence. }
  destruct (main_run σ3 data pages)
    as (s' & σ4 & Hmain' & Hnames' & Hchars' & Htok' & Hsc' & Hst' & Havg'
        & Hfiles' & _ & _ & Hframe'); [|done..| | | | | |].
  - destruct (Hframe default_input_pdf) as [E|(E & _)]; [| |congruence..].
    + intros i _ E. discriminate E.
    + intros i _ E. discriminate E.
  - apply dir_available_intro. intros k content E.
    apply Hfile_inv in E.
    + by apply (dir_available_elim σ default_output_dir k content).
    + intros i _ E'. apply (f_equal length) in E'.
      unfold page_path, os_path_join in E'. rewrite length_app, length_take in E'.
      simpl in E'. lia.
    + intros i _ E'. apply (f_equal length) in E'.
      unfold text_path, os_path_join in E'. rewrite length_app, length_take in E'.
      simpl in E'. lia.
  - apply dir_available_intro. intros k content E.
    apply Hfile_inv in E.
    + by apply (dir_available_elim σ default_text_dir k content).
    + intros i _ E'. apply (f_equal length) in E'.
      unfold page_path, os_path_join in E'. rewrite length_app, length_take in E'.
      simpl in E'. lia.
    + intros i _ E'. apply (f_equal length) in E'.
      unfold text_path, os_path_join in E'. rewrite length_app, length_take in E'.
      simpl in E'. lia.
  - intros i Hi. destruct (lookup_lt_is_Some_2 pages i Hi) as [page Hpage].
    destruct (Hfiles i page Hpage) as [-> _]. done.
  - intros f Hf.
    destruct (decide (f ∈ page_filename <$> seq 0 (length pages))) as [Hin|Hnot].
    { by apply elem_of_page_names. }
    apply Hclean.
    apply list_elem_of_filter in Hf as [Hpdf Hf]. apply list_elem_of_filter.
    split; [done|]. apply elem_of_entries. apply elem_of_entries in Hf.
    destruct (Hframe (default_output_dir ++ [f])) as [<-|(_ & _ & [[Hp _]|[Hp _]])];
      [| |done|..].
    + intros i Hi E. apply Hnot, elem_of_page_names. exists i. split; [done|].
      unfold page_path, os_path_join in E. by apply app_inj_2 in E as [_ [= ->]].
    + intros i _ E. discriminate E.
    + apply prefix_length in Hp. simpl in Hp. lia.
    + apply prefix_length in Hp. simpl in Hp. lia.
  - intros i Hi. destruct (lookup_lt_is_Some_2 pages i Hi) as [page Hpage].
    destruct (Hfiles i page Hpage) as [_ ->]. done.
  - assert (s' = s) as ->.
    { assert (lines s' = lines s) as Hl.
      { apply lines_determined; [congruence|congruence|done|done]. }
      destruct s as [l sc st av], s' as [l' sc' st' av']. simpl in *.
      subst l'. congruence. }
    assert (σ4 = σ3) as ->.
    { apply map_eq. intros p.
      destruct (decide (p ∈ page_path default_output_dir <$> seq 0 (length pages)))
        as [(i & -> & Hi%elem_of_seq)%list_elem_of_fmap|Hp1].
      { destruct (lookup_lt_is_Some_2 pages i) as [page Hpage]; [lia|].
        destruct (Hfiles i page Hpage) as [-> _].
        by destruct (Hfiles' i page Hpage) as [-> _]. }
      destruct (decide (p ∈ (λ i, text_path default_text_dir (page_filename i))
                            <$> seq 0 (length pages)))
        as [(i & -> & Hi%elem_of_seq)%list_elem_of_fmap|Hp2].
      { destruct (lookup_lt_is_Some_2 pages i) as [page Hpage]; [lia|].
        destruct (Hfiles i page Hpage) as [_ ->].
        by destruct (Hfiles' i page Hpage) as [_ ->]. }
      destruct (Hframe' p) as [E|(_ & _ & [[_ E]|[_ E]])]; [| |done|congruence..].
      - intros i Hi ->. apply Hp1, list_elem_of_fmap. exists i.
        split; [done|]. apply elem_of_seq. lia.
      - intros i Hi ->. apply Hp2, list_elem_of_fmap. exists i.
        split; [done|]. apply elem_of_seq. lia. }
    exists s. rewrite Hmain. simpl. done.
Qed.
End rerun_extras.

(** * The token estimate as a function of the length *)

Section estimate_extras.
Import PyFloat Splitter.

Lemma token_estimate_value (n : Z) :
  0 ≤ n < 2 ^ 47 → token_estimate n = Some (Z.max 1 (n * 10 / 38)).
Proof.
  intros Hn. destruct (decide (n = 0)) as [->|Hne]; [done|].
  apply token_estimate_pos. lia.
Qed.

(** X17: the estimate grows with the length of the text, is 1 for every
    text of at most 7 characters, the empty one included, and never
    exceeds the length of a text that is not empty. *)
Theorem token_estimate_monotone (m n tm tn : Z) :
  0 ≤ m ≤ n → n < 2 ^ 47 →
  token_estimate m = Some tm → token_estimate n = Some tn →
  tm ≤ tn ∧ (n ≤ 7 → tn = 1) ∧ (1 ≤ n → tn ≤ n).
Proof.
  intros Hm Hn. rewrite !token_estimate_value by lia.
  intros [= <-] [= <-].
  assert (m * 10 / 38 ≤ n * 10 / 38) by (apply Z.div_le_mono; lia).
  assert (0 ≤ n * 10 / 38) by (apply Z.div_pos; lia).
  split_and!.
  - lia.
  - intros Hsmall.
    assert (n * 10 / 38 < 2) by (apply Z.div_lt_upper_bound; lia). lia.
  - intros Hpos.
    assert (n * 10 / 38 ≤ n) by (apply Z.div_le_upper_bound; lia). lia.
Qed.
End estimate_extras.

(** * The experimental paragraph of a section *)

Section experimental_extras.
Import Generator Chars Experimental.

(** [replace] copies a text in which the first character of [old] does
    not occur. *)
Lemma replace_plain (old new n X : string) (c0 : ascii) (old' : string) :
  old = String c0 old' →
  all_chars (λ c, negb (Ascii.eqb c0 c)) n = true →
  Py.replace_go old new 0 (n +:+ X) = n +:+ Py.replace_go old new 0 X.
Proof.
  intros -> Hn. induction n as [|c n IH]; [done|].
  cbn [all_chars] in Hn. apply andb_true_iff in Hn as [Hc Hn].
  rewrite !string_app_cons. cbn [Py.replace_go Py.startswith].
  apply negb_true_iff in Hc. rewrite Hc. f_equal. by apply IH.
Qed.

Lemma template_replaced (n : string) :
  all_chars not_newline n = true →
  Py.replace template_indent " " (experimental_template n)
  = " " +:+ experimental_head +:+ n +:+ experimental_tail +:+ " ".
Proof.
  intros Hn. unfold Py.replace, experimental_template.
  match goal with
  | |- Py.replace_go ?o ?w 0 (?P +:+ ?X) = _ =>
      assert (∀ Y, Py.replace_go o w 0 (P +:+ Y)
                   = (" " +:+ experimental_head) +:+ Py.replace_go o w 0 Y) as ->
        by (intros Y; vm_compute; reflexivity)
  end.
  rewrite (replace_plain template_indent " " n _ (Ascii.ascii_of_N 10) "            ");
    [|done|].
  - rewrite string_app_assoc. do 2 f_equal; try (vm_compute; reflexivity).
  - eapply all_chars_impl; [|exact Hn]. intros c Hc. unfold not_newline in Hc.
    by rewrite Ascii.eqb_sym.
Qed.

Lemma template_stripped (n : string) :
  Py.strip (" " +:+ experimental_head +:+ n +:+ experimental_tail +:+ " ")
  = experimental_head +:+ n +:+ experimental_tail.
Proof.
  unfold Py.strip.
  assert (∀ Y, Py.lstrip (" " +:+ experimental_head +:+ Y) = experimental_head +:+ Y)
    as -> by (intros Y; vm_compute; reflexivity).
  rewrite !rev_append, !string_app_assoc.
  assert (∀ Y, Py.lstrip (String.rev " " +:+ Y) = Py.lstrip Y)
    as -> by (intros Y; vm_compute; reflexivity).
  assert (∀ Y, Py.lstrip (String.rev experimental_tail +:+ Y)
               = String.rev experimental_tail +:+ Y)
    as -> by (intros Y; vm_compute; reflexivity).
  rewrite !rev_append, !rev_involutive. by rewrite string_app_assoc.
Qed.

Lemma is_digit_not_space (c : ascii) : is_digit c = true → not_space c = true.
Proof.
  unfold is_digit, not_space, Py.is_space. cbv zeta.
  intros [H1 H2]%andb_true_iff. apply N.leb_le in H1. apply N.leb_le in H2.
  apply negb_true_iff.
  rewrite !orb_false_iff, !andb_false_iff, N.eqb_neq, !N.leb_gt. lia.
Qed.

Lemma not_space_not_newline (c : ascii) : not_space c = true → not_newline c = true.
Proof.
  unfold not_space, not_newline. intros Hc.
  destruct (Ascii.eqb_spec c (Ascii.ascii_of_N 10)) as [->|]; [|done].
  by vm_compute in Hc.
Qed.

Lemma pretty_positive_digits (p : positive) : all_chars is_digit (pretty p) = true.
Proof.
  unfold pretty, pretty_positive, pretty, pretty_N.
  case_decide; [done|]. by apply pretty_N_go_digits.
Qed.

(** [str] of an [int] holds digits and at most a sign: no white space. *)
Lemma str_of_int_not_space (z : Z) : all_chars not_space (Py.str_of_int z) = true.
Proof.
  unfold Py.str_of_int, pretty, pretty_Z. destruct z as [|p|p]; [done| |].
  - apply (all_chars_impl is_digit), pretty_positive_digits. apply is_digit_not_space.
  - rewrite all_chars_app. apply andb_true_iff. split; [done|].
    apply (all_chars_impl is_digit), pretty_positive_digits. apply is_digit_not_space.
Qed.

Lemma experimental_text_closed (repeat_cycle : Z) :
  experimental_text repeat_cycle
  = experimental_head +:+ Py.str_of_int (repeat_cycle + 5) +:+ experimental_tail.
Proof.
  unfold experimental_text. rewrite template_replaced; [apply template_stripped|].
  apply (all_chars_impl not_space), str_of_int_not_space.
  apply not_space_not_newline.
Qed.

(** X18: the paragraph that closes a section is the text of the literal
    on one line: it starts at [Comprehensive], holds the number
    [repeat_cycle + 5] at the place of the field, ends at [seeds.] and
    contains no line break; every line break of the literal with its
    indentation has become one blank. *)
Theorem experimental_text_one_line (repeat_cycle : Z) :
  experimental_text repeat_cycle
  = experimental_head +:+ Py.str_of_int (repeat_cycle + 5) +:+ experimental_tail
  ∧ all_chars not_newline (experimental_text repeat_cycle) = true.
Proof.
  split; [apply experimental_text_closed|].
  rewrite experimental_text_closed, !all_chars_app.
  apply andb_true_iff. split; [by vm_compute|].
  apply andb_true_iff. split; [|by vm_compute].
  apply (all_chars_impl not_space), str_of_int_not_space.
  apply not_space_not_newline.
Qed.

(** X19: unlike the expanded paragraphs, the closing paragraph changes
    from cycle to cycle: different cycles give different texts. *)
Theorem experimental_text_distinct (c1 c2 : Z) :
  c1 ≠ c2 → experimental_text c1 ≠ experimental_text c2.
Proof.
  intros Hne E. rewrite !experimental_text_closed in E.
  rewrite <-!string_app_assoc in E. apply string_app_inj_r in E.
  assert (∀ a b : string, experimental_head +:+ a = experimental_head +:+ b → a = b)
    as Hcancel.
  { intros a b Hab. unfold experimental_head in Hab.
    rewrite ?string_app_cons, ?string_app_nil_l in Hab. by simplify_eq. }
  apply Hcancel in E. unfold Py.str_of_int in E.
  apply (inj pretty) in E. lia.
Qed.
End experimental_extras.

Section extra_examples.
Import OS Splitter Script Example Scenario.

Lemma split_stops_at_directory_witness :
  (split_pdf (H := example_library)
     ["large_ai_research_document.pdf"] ["pdf_pages"] blocked_second_page).1
  = inl IsADirectoryError
  ∧ (split_pdf (H := example_library)
       ["large_ai_research_document.pdf"] ["pdf_pages"] blocked_second_page).2
      !! ["pdf_pages"; "page_001.pdf"] = Some (File "%PDF:a").
Proof.
  destruct (split_stops_at_directory (H := example_library) blocked_second_page
              ["large_ai_research_document.pdf"] ["pdf_pages"] "%PDF:abc"
              ["a"; "b"; "c"]%char 1)
    as (Herr & Hbefore & _).
  - vm_compute. reflexivity.
  - discriminate.
  - vm_compute. reflexivity.
  - vm_compute. reflexivity.
  - simpl. lia.
  - vm_compute. reflexivity.
  - intros i Hi. destruct i as [|i]; [vm_compute; discriminate|lia].
  - intros i _. discriminate.
  - split; [exact Herr|].
    exact (Hbefore 0%nat "a"%char (Nat.lt_0_succ 0) eq_refl).
Defined.

Lemma split_listing_page_order_witness :
  (split_pdf (H := example_library)
     ["large_ai_research_document.pdf"] ["pdf_pages"] three_pages).1
  = inr ["page_001.pdf"; "page_002.pdf"; "page_003.pdf"].
Proof.
  apply (split_listing_page_order (H := example_library) three_pages
           ["large_ai_research_document.pdf"] ["pdf_pages"] "%PDF:abc"
           ["a"; "b"; "c"]%char).
  - vm_compute. reflexivity.
  - discriminate.
  - vm_compute. reflexivity.
  - simpl. lia.
  - vm_compute. reflexivity.
  - intros i Hi. destruct i as [|[|[|i]]]; [vm_compute; discriminate..|simpl in Hi; lia].
  - intros i _. discriminate.
  - intros f Hf. vm_compute in Hf. by apply elem_of_nil in Hf.
Defined.

Lemma extract_totals_witness :
  let s := {| lines := [("page_001.txt", 6, 1); ("page_002.txt", 6, 1)];
              sum_chars := 12; sum_tokens := 2; average_tokens := 1 |} in
  (extract_text_from_pages (H := example_library)
     ["pdf_pages"] ["pdf_text"] two_page_files).1 = inr s
  ∧ (λ x, x.1.1) <$> lines s
    = Py.replace ".pdf" ".txt"
        <$> sort_names (pdf_names (entries (ensure_dir ["pdf_text"] two_page_files).2
                                     ["pdf_pages"]))
  ∧ 1 ≤ average_tokens s ≤ sum_tokens s.
Proof.
  intros s.
  assert ((extract_text_from_pages (H := example_library)
             ["pdf_pages"] ["pdf_text"] two_page_files).1 = inr s) as Hrun.
  { vm_compute. reflexivity. }
  destruct (extract_totals (H := example_library) two_page_files
              ["pdf_pages"] ["pdf_text"] s Hrun)
    as (Hnames & _ & _ & _ & _ & Havg).
  split; [exact Hrun|]. split; [exact Hnames|exact Havg].
Defined.

Lemma extract_stops_at_unreadable_witness :
  (extract_text_from_pages (H := example_library)
     ["pdf_pages"] ["pdf_text"] corrupt_second_page).1 = inl PdfReadError
  ∧ (extract_text_from_pages (H := example_library)
       ["pdf_pages"] ["pdf_text"] corrupt_second_page).2
      !! ["pdf_text"; "page_001.txt"] = Some (File "page a")
  ∧ (extract_text_from_pages (H := example_library)
       ["pdf_pages"] ["pdf_text"] corrupt_second_page).2
      !! ["pdf_text"; "page_003.txt"] = None.
Proof.
  destruct (extract_stops_at_unreadable (H := example_library) corrupt_second_page
              ["pdf_pages"] ["pdf_text"]
              ["page_001.pdf"] "page_002.pdf" ["page_003.pdf"])
    as (Herr & Hwritten & Hframe).
  - vm_compute. reflexivity.
  - vm_compute. reflexivity.
  - vm_compute. reflexivity.
  - intros g Hg. apply list_elem_of_singleton in Hg as ->.
    split; [vm_compute; reflexivity|]. exists "page a".
    split; [vm_compute; reflexivity|].
    split; [vm_compute; reflexivity|]. vm_compute. discriminate.
  - vm_compute. reflexivity.
  - split_and!.
    + etrans; [exact Herr|]. vm_compute. reflexivity.
    + refine (Hwritten "page_001.pdf" "page a" _ _).
      * apply list_elem_of_singleton. reflexivity.
      * vm_compute. reflexivity.
    + etrans; [apply Hframe|vm_compute; reflexivity].
      intros g Hg. apply list_elem_of_singleton in Hg as ->.
      vm_compute. discriminate.
Defined.

Lemma main_round_trip_witness :
  (main (H := example_library) three_pages).2
    !! ["pdf_pages"; "page_002.pdf"] = Some (File "%PDF:b")
  ∧ (main (H := example_library) three_pages).2
      !! ["pdf_text"; "page_002.txt"] = Some (File "page b").
Proof.
  destruct (main_round_trip (H := example_library) three_pages "%PDF:abc"
              ["a"; "b"; "c"]%char)
    as (s & _ & _ & _ & Hfiles).
  - vm_compute. reflexivity.
  - vm_compute. reflexivity.
  - simpl. lia.
  - intros page Hpage.
    apply elem_of_cons in Hpage as [->|Hpage]; [vm_compute; reflexivity|].
    apply elem_of_cons in Hpage as [->|Hpage]; [vm_compute; reflexivity|].
    apply list_elem_of_singleton in Hpage as ->. vm_compute. reflexivity.
  - intros page Hpage.
    apply elem_of_cons in Hpage as [->|Hpage]; [vm_compute; reflexivity|].
    apply elem_of_cons in Hpage as [->|Hpage]; [vm_compute; reflexivity|].
    apply list_elem_of_singleton in Hpage as ->. vm_compute. reflexivity.
  - vm_compute. reflexivity.
  - vm_compute. reflexivity.
  - intros i Hi. destruct i as [|[|[|i]]]; [vm_compute; discriminate..|simpl in Hi; lia].
  - intros f Hf. vm_compute in Hf. by apply elem_of_nil in Hf.
  - intros i Hi. destruct i as [|[|[|i]]]; [vm_compute; discriminate..|simpl in Hi; lia].
  - exact (Hfiles 1%nat "b"%char eq_refl).
Defined.

Lemma main_empty_document_witness :
  (main (H := example_library) empty_document).1 = inl ZeroDivisionError
  ∧ is_dir (main (H := example_library) empty_document).2 ["pdf_text"] = true.
Proof.
  destruct (main_empty_document (H := example_library) empty_document "%PDF:")
    as (Herr & _ & Hdir & _).
  - vm_compute. reflexivity.
  - vm_compute. reflexivity.
  - vm_compute. reflexivity.
  - vm_compute. reflexivity.
  - vm_compute. reflexivity.
  - split; [exact Herr|exact Hdir].
Defined.

Lemma main_rerun_witness :
  ∃ s, (main (H := example_library) three_pages).1 = inr (Some s)
       ∧ (main (H := example_library)
            (main (H := example_library) three_pages).2).1 = inr (Some s).
Proof.
  destruct (main_rerun (H := example_library) three_pages "%PDF:abc"
              ["a"; "b"; "c"]%char)
    as (s & Hfirst & Hsecond).
  - vm_compute. reflexivity.
  - vm_compute. reflexivity.
  - simpl. lia.
  - intros page Hpage.
    apply elem_of_cons in Hpage as [->|Hpage]; [vm_compute; reflexivity|].
    apply elem_of_cons in Hpage as [->|Hpage]; [vm_compute; reflexivity|].
    apply list_elem_of_singleton in Hpage as ->. vm_compute. reflexivity.
  - intros page Hpage.
    apply elem_of_cons in Hpage as [->|Hpage]; [vm_compute; reflexivity|].
    apply elem_of_cons in Hpage as [->|Hpage]; [vm_compute; reflexivity|].
    apply list_elem_of_singleton in Hpage as ->. vm_compute. reflexivity.
  - vm_compute. reflexivity.
  - vm_compute. reflexivity.
  - intros i Hi. destruct i as [|[|[|i]]]; [vm_compute; discriminate..|simpl in Hi; lia].
  - intros f Hf. vm_compute in Hf. by apply elem_of_nil in Hf.
  - intros i Hi. destruct i as [|[|[|i]]]; [vm_compute; discriminate..|simpl in Hi; lia].
  - exists s. split; [exact Hfirst|]. exact (f_equal fst Hsecond).
Defined.

Lemma token_estimate_monotone_witness :
  token_estimate 100 = Some 26 ∧ token_estimate 1000 = Some 263 ∧ 26 ≤ 263.
Proof.
  assert (token_estimate 100 = Some 26) as Hm by (vm_compute; reflexivity).
  assert (token_estimate 1000 = Some 263) as Hn by (vm_compute; reflexivity).
  split; [exact Hm|]. split; [exact Hn|].
  refine (proj1 (token_estimate_monotone 100 1000 26 263 _ _ Hm Hn)); lia.
Defined.

Lemma experimental_text_distinct_witness :
  Generator.experimental_text 0 ≠ Generator.experimental_text 1.
Proof. apply experimental_text_distinct. lia. Defined.
End extra_examples.
